(** * ResearchAutomator: a shallow embedding of the research pipeline

    The development follows the Python sources module by module
    ([modules/planner.py], [modules/execution_agent.py],
    [modules/rate_limiter.py], [modules/llm_tools.py],
    [modules/self_critique.py], [modules/goal_parser.py],
    [modules/emergency_mode.py], [modules/citation_engine.py],
    [modules/batch_processor.py], [modules/retriever.py]).  Part I gives the
    model, Part II the properties the specification states, Part III further
    properties of the same code.

    Conventions.
    - Python [str] is [string]; the text-processing functions are modelled on
      ASCII text (the [re] classes [\s], [\d], [\w] restricted to ASCII).
    - Python [float] scores are binary64 values ([PrimFloat.float]), compared
      with the IEEE comparisons the interpreter uses.
    - A dictionary with a fixed set of keys is a record; a key that the code
      reads with [d.get(k, default)] and that matters when absent is an
      [option] field.
    - An exception is an explicit outcome, carrying the text [str(e)];
      collaborators outside the core (language model, retrieval,
      persistence) are fields of a [World] record, indexed by a clock so
      that two calls may answer differently.
    - The answers of the language model have the types the prompts ask for:
      the code keeps what [json.loads] gives without validation, and the
      records here hold a list of strings where a list of strings is asked
      for.  A phase of a plan is a dictionary that is not empty. *)

From Stdlib Require Import ZArith QArith Floats Ascii String.
From stdpp Require Import base decidable option list strings pretty sets gmap.

#[local] Open Scope string_scope.
#[local] Open Scope list_scope.
#[local] Set Warnings "-clear-no-such-hyp".

(** * Part I: the model *)

(** ** Python string primitives used by the sources *)

Module Py.

Definition is_upper (c : ascii) : bool :=
  let n := nat_of_ascii c in (65 <=? n)%nat && (n <=? 90)%nat.

Definition is_lower (c : ascii) : bool :=
  let n := nat_of_ascii c in (97 <=? n)%nat && (n <=? 122)%nat.

(** [[a-zA-Z]] *)
Definition is_alpha (c : ascii) : bool := is_upper c || is_lower c.

(** [\d] *)
Definition is_digit (c : ascii) : bool :=
  let n := nat_of_ascii c in (48 <=? n)%nat && (n <=? 57)%nat.

(** [\w]: letters, digits and the underscore *)
Definition is_word (c : ascii) : bool :=
  is_alpha c || is_digit c || (nat_of_ascii c =? 95)%nat.

(** [\s] and [str.isspace]: tab, newline, vertical tab, form feed, carriage
    return, the four separators 0x1c-0x1f and the space *)
Definition is_space (c : ascii) : bool :=
  let n := nat_of_ascii c in
  ((9 <=? n)%nat && (n <=? 13)%nat) || ((28 <=? n)%nat && (n <=? 32)%nat).

Definition lower_ascii (c : ascii) : ascii :=
  if is_upper c then ascii_of_nat (nat_of_ascii c + 32) else c.

(** [s.lower()] *)
Fixpoint lower (s : string) : string :=
  match s with
  | EmptyString => EmptyString
  | String c r => String (lower_ascii c) (lower r)
  end.

Definition upper_ascii (c : ascii) : ascii :=
  if is_lower c then ascii_of_nat (nat_of_ascii c - 32) else c.

(** [s.upper()] *)
Fixpoint upper (s : string) : string :=
  match s with
  | EmptyString => EmptyString
  | String c r => String (upper_ascii c) (upper r)
  end.

(** [len(s) > 0] *)
Definition nonempty (s : string) : bool :=
  match s with EmptyString => false | _ => true end.

(** [s.startswith(p)] *)
Fixpoint startswith (p s : string) : bool :=
  match p, s with
  | EmptyString, _ => true
  | String _ _, EmptyString => false
  | String a p', String b s' => Ascii.eqb a b && startswith p' s'
  end.

(** [sub in s] *)
Fixpoint contains (sub s : string) : bool :=
  match s with
  | EmptyString => startswith sub EmptyString
  | String _ r => startswith sub s || contains sub r
  end.

(** [any(ind in s for ind in inds)] *)
Definition contains_any (inds : list string) (s : string) : bool :=
  existsb (fun ind => contains ind s) inds.

Fixpoint lstrip (s : string) : string :=
  match s with
  | EmptyString => EmptyString
  | String c r => if is_space c then lstrip r else s
  end.

Fixpoint rstrip (s : string) : string :=
  match s with
  | EmptyString => EmptyString
  | String c r =>
      match rstrip r with
      | EmptyString => if is_space c then EmptyString else String c EmptyString
      | r' => String c r'
      end
  end.

(** [s.strip()] *)
Definition strip (s : string) : string := rstrip (lstrip s).

(** [s.split(sep)] for a one-character separator: never the empty list *)
Fixpoint split (sep : ascii) (s : string) : list string :=
  match s with
  | EmptyString => [EmptyString]
  | String c r =>
      if Ascii.eqb c sep then EmptyString :: split sep r
      else match split sep r with
           | [] => [String c EmptyString]
           | h :: t => String c h :: t
           end
  end.

(** [s.split()]: the maximal runs of characters that are not white space;
    [cur] is the run being read. *)
Fixpoint words_from (cur : string) (s : string) : list string :=
  match s with
  | EmptyString => if nonempty cur then [cur] else []
  | String c r =>
      if is_space c
      then (if nonempty cur then [cur] else []) ++ words_from EmptyString r
      else words_from (cur +:+ String c EmptyString) r
  end.

Definition words (s : string) : list string := words_from EmptyString s.

(** [s.split(sep, 1)[-1]]: the text after the first separator, or [s] itself *)
Fixpoint after_first (sep : ascii) (s : string) : option string :=
  match s with
  | EmptyString => None
  | String c r => if Ascii.eqb c sep then Some r else after_first sep r
  end.

Definition split1_last (sep : ascii) (s : string) : string :=
  default s (after_first sep s).

(** [sep.join(parts)] *)
Fixpoint join (sep : string) (parts : list string) : string :=
  match parts with
  | [] => EmptyString
  | [p] => p
  | p :: rest => p +:+ sep +:+ join sep rest
  end.

(** [list(dict.fromkeys(l))]: first occurrences, in order *)
Fixpoint fromkeys_from (seen l : list string) : list string :=
  match l with
  | [] => []
  | x :: r =>
      if bool_decide (x ∈ seen) then fromkeys_from seen r
      else x :: fromkeys_from (x :: seen) r
  end.

Definition fromkeys (l : list string) : list string := fromkeys_from [] l.

(** The longest prefix of digits, and what follows it. *)
Fixpoint span_digits (s : string) : string * string :=
  match s with
  | EmptyString => (EmptyString, EmptyString)
  | String c r =>
      if is_digit c
      then let '(d, rest) := span_digits r in (String c d, rest)
      else (EmptyString, s)
  end.

(** [s] without the prefix [p], when it starts with it. *)
Fixpoint strip_prefix (p s : string) : option string :=
  match p, s with
  | EmptyString, _ => Some s
  | String _ _, EmptyString => None
  | String a p', String b s' =>
      if Ascii.eqb a b then strip_prefix p' s' else None
  end.

(** The longest prefix of white space, and what follows it. *)
Fixpoint span_spaces (s : string) : string * string :=
  match s with
  | EmptyString => (EmptyString, EmptyString)
  | String c r =>
      if is_space c
      then let '(d, rest) := span_spaces r in (String c d, rest)
      else (EmptyString, s)
  end.

(** The [for x in xs: if p(x): out.append(x); if len(out) >= limit: break]
    loop, started with [out]. *)
Fixpoint collect (limit : nat) (p : string → bool) (xs out : list string)
  : list string :=
  match xs with
  | [] => out
  | x :: rest =>
      if p x then
        let out' := out ++ [x] in
        if (limit <=? length out')%nat then out' else collect limit p rest out'
      else collect limit p rest out
  end.

(** [str(n)] for a natural number *)
Definition str_of_nat (n : nat) : string := pretty n.

(** the newline character, and the double quote as a string *)
Definition nl : ascii := ascii_of_nat 10.
Definition dquote : string := String (ascii_of_nat 34) EmptyString.

End Py.

(** ** Outcomes of calls that may raise *)

(** [Raise e] carries [str(e)], the text the code logs and stores. *)
Inductive exc (A : Type) : Type :=
| Ok (a : A)
| Raise (e : string).
Arguments Ok {A} a.
Arguments Raise {A} e.

(** ** modules/planner.py *)

Module Planner.

(** A phase dictionary, not empty.  ['id'] may be absent (the code reads it
    both with [phase.get('id', '')] and with [phase['id']]);
    ['search_terms'] may be JSON [null], which is not iterable. *)
Record Phase := mkPhase {
  ph_id : option string;
  ph_title : string;
  ph_description : string;
  ph_type : string;
  ph_search_terms : option (list string);
  ph_expected_sources : list string;
  ph_dependencies : list string;
  ph_success_criteria : list string;
  ph_priority : string
}.

Record Plan := mkPlan {
  plan_id : string;
  strategy : string;
  phases : list Phase;
  research_goal : string;
  last_updated : option string;
  update_reason : option string
}.

#[global] Instance Phase_eq_dec : EqDecision Phase.
Proof. solve_decision. Defined.

#[global] Instance Plan_eq_dec : EqDecision Plan.
Proof. solve_decision. Defined.

(** [phase.get('id', '')] *)
Definition get_id (phase : Phase) : string := default "" (ph_id phase).

(** [all(dep in completed_phases for dep in dependencies)] *)
Definition deps_satisfied (completed_phases : list string) (phase : Phase) : bool :=
  forallb (fun dep => bool_decide (dep ∈ completed_phases)) (ph_dependencies phase).

(** The [for phase in phases] loop of [get_next_phase]. *)
Fixpoint next_in (phases : list Phase) (completed_phases : list string)
  : option Phase :=
  match phases with
  | [] => None
  | phase :: rest =>
      if bool_decide (get_id phase ∈ completed_phases)
      then next_in rest completed_phases
      else if deps_satisfied completed_phases phase
           then Some phase
           else next_in rest completed_phases
  end.

Definition get_next_phase (plan : Plan) (completed_phases : list string)
  : option Phase :=
  next_in (phases plan) completed_phases.

(** *** Re-planning *)

(** An entry of ['new_phases'] in the model's update instructions. *)
Record NewPhase := mkNewPhase {
  np_title : string;
  np_description : string;
  np_search_terms : option (list string);
  np_priority : string
}.

(** An entry of ['modify_phases']: the phase to change and the fields of
    ['updates'] (those the update prompt asks for). *)
Record Modification := mkModification {
  mod_phase_id : string;
  mod_search_terms : option (option (list string));
  mod_priority : option string
}.

(** The dictionary [_parse_plan_updates] returns. *)
Record Updates := mkUpdates {
  update_needed : bool;
  new_phases : list NewPhase;
  modify_phases : list Modification;
  reasoning : option string
}.

(** The phase appended for [new_phase] to a plan of [n] phases. *)
Definition appended_phase (n : nat) (new_phase : NewPhase) : Phase :=
  {| ph_id := Some ("phase_" +:+ Py.str_of_nat (n + 1));
     ph_title := np_title new_phase;
     ph_description := np_description new_phase;
     ph_type := "research";
     ph_search_terms := np_search_terms new_phase;
     ph_expected_sources := ["web"; "academic"];
     ph_dependencies := [];
     ph_success_criteria := [];
     ph_priority := np_priority new_phase |}.

(** [for new_phase in new_phases: updated_plan['phases'].append(phase)] *)
Definition append_phases (phases : list Phase) (new_phases : list NewPhase)
  : list Phase :=
  fold_left (λ phases new_phase,
               phases ++ [appended_phase (length phases) new_phase])
            new_phases phases.

(** [phase.update(phase_updates)] *)
Definition update_phase (phase : Phase) (m : Modification) : Phase :=
  {| ph_id := ph_id phase;
     ph_title := ph_title phase;
     ph_description := ph_description phase;
     ph_type := ph_type phase;
     ph_search_terms := default (ph_search_terms phase) (mod_search_terms m);
     ph_expected_sources := ph_expected_sources phase;
     ph_dependencies := ph_dependencies phase;
     ph_success_criteria := ph_success_criteria phase;
     ph_priority := default (ph_priority phase) (mod_priority m) |}.

(** The inner loop of a modification: the first phase with the id is
    updated; [phase['id']] raises on a phase without id met before it. *)
Fixpoint modify_phase (phases : list Phase) (m : Modification)
  : exc (list Phase) :=
  match phases with
  | [] => Ok []
  | phase :: rest =>
      match ph_id phase with
      | None => Raise "'id'"
      | Some i =>
          if bool_decide (i = mod_phase_id m)
          then Ok (update_phase phase m :: rest)
          else match modify_phase rest m with
               | Ok rest' => Ok (phase :: rest')
               | Raise e => Raise e
               end
      end
  end.

(** The loop over the modifications.  The phase list is shared with the
    current plan and changed in place: what was done before an exception
    stays done.  The result is the list as left, and the exception if any. *)
Fixpoint modify_phases_loop (phases : list Phase) (ms : list Modification)
  : list Phase * option string :=
  match ms with
  | [] => (phases, None)
  | m :: rest =>
      match modify_phase phases m with
      | Ok phases' => modify_phases_loop phases' rest
      | Raise e => (phases, Some e)
      end
  end.

Definition with_phases (plan : Plan) (phases : list Phase) : Plan :=
  {| plan_id := plan_id plan;
     strategy := strategy plan;
     phases := phases;
     research_goal := research_goal plan;
     last_updated := last_updated plan;
     update_reason := update_reason plan |}.

(** [_apply_plan_updates]: the current plan as the in-place changes leave
    it, and the plan returned (or the exception raised). *)
Definition _apply_plan_updates (current_plan : Plan) (updates : Updates)
    (now : string) : Plan * exc Plan :=
  if negb (update_needed updates) then (current_plan, Ok current_plan)
  else
    let phases1 := append_phases (phases current_plan) (new_phases updates) in
    let '(phases2, raised) := modify_phases_loop phases1 (modify_phases updates) in
    let current_plan := with_phases current_plan phases2 in
    match raised with
    | Some e => (current_plan, Raise e)
    | None =>
        (current_plan,
         Ok {| plan_id := plan_id current_plan;
               strategy := strategy current_plan;
               phases := phases2;
               research_goal := research_goal current_plan;
               last_updated := Some now;
               update_reason :=
                 Some (default "Plan updated based on new findings"
                               (reasoning updates)) |})
    end.

(** [update_plan]: [answer] is what the model's answer to the update prompt
    decodes to, or the error of the generation call.  The result is the
    current plan as left by the in-place changes, and the plan returned. *)
Definition update_plan (current_plan : Plan) (answer : exc Updates)
    (now : string) : Plan * Plan :=
  match answer with
  | Raise _ => (current_plan, current_plan)
  | Ok updates =>
      match _apply_plan_updates current_plan updates now with
      | (current_plan, Ok updated_plan) => (current_plan, updated_plan)
      | (current_plan, Raise _) => (current_plan, current_plan)
      end
  end.

End Planner.

(** ** Findings and citations (dictionaries shared by several modules) *)

(** A finding as [ExecutionAgent._execute_single_phase] builds it. *)
Record Finding := mkFinding {
  f_source_title : string;
  f_source_url : string;
  f_key_findings : list string;
  f_relevant_facts : list string;
  f_statistics : list string;
  f_conclusions : list string;
  f_relevance_score : float;
  f_phase_id : string
}.

(** A citation; a key that is absent reads as the empty string (the code
    always reads these keys with [citation.get(key, '')]). *)
Record Citation := mkCitation {
  c_type : string;
  c_title : string;
  c_url : string;
  c_authors : list string;
  c_date : string;
  c_source_type : string;
  c_content : string;
  c_context : string;
  c_quote : string;
  c_page_section : string
}.

(** ** modules/self_critique.py *)

Module SelfCritique.
#[local] Set Warnings "-inexact-float".
#[local] Open Scope float_scope.

(** [float(n)] for a count *)
Definition float_of_nat (n : nat) : float :=
  PrimFloat.of_uint63 (Uint63.of_Z (Z.of_nat n)).

(** Python's [min(a, b)]: [b] when [b < a], otherwise [a]. *)
Definition py_min (a b : float) : float := if b <? a then b else a.

(** [sum(xs)] starting from the integer 0 *)
Definition py_sum (xs : list float) : float := fold_left PrimFloat.add xs 0.

(** The sub-assessment dictionaries: the score and the issue list. *)
Record Assessment := mkAssessment {
  score : float;
  issues : list string
}.

Record ResearchContent := mkResearchContent {
  rc_goal : string;
  rc_findings : list Finding;
  rc_citations : list Citation;
  rc_phases_completed : nat
}.

Definition _review_content_quality (research_content : ResearchContent) : Assessment :=
  let findings := rc_findings research_content in
  match findings with
  | [] => mkAssessment 0.0 ["No research findings available"%string]
  | _ =>
      let total_findings := length findings in
      let unique_sources :=
        size (list_to_set (f_source_title <$> findings) : gset string) in
      let avg_relevance :=
        py_sum (f_relevance_score <$> findings) / float_of_nat total_findings in
      let quantity_score := py_min 1.0 (float_of_nat total_findings / 20.0) in
      let diversity_score := py_min 1.0 (float_of_nat unique_sources / 10.0) in
      let relevance_score := avg_relevance in
      mkAssessment
        ((quantity_score * 0.3) + (diversity_score * 0.3) + (relevance_score * 0.4))
        []
  end.

Definition citation_complete (c : Citation) : bool :=
  negb (String.eqb (c_title c) "") && negb (String.eqb (c_url c) "").

Definition _review_citation_quality (citations : list Citation) : Assessment :=
  match citations with
  | [] => mkAssessment 0.0 ["No citations provided"%string]
  | _ =>
      let total_score :=
        fold_left (fun acc c => if citation_complete c then acc + 1.0 else acc)
                  citations 0.0 in
      mkAssessment
        (total_score / float_of_nat (length citations))
        ((fun c => "Incomplete citation: " +:+ c_title c)
           <$> filter (fun c => (citation_complete c = false)) citations)
  end.

Definition _assess_research_coverage (research_content : ResearchContent) : Assessment :=
  let goal := rc_goal research_content in
  let findings := rc_findings research_content in
  if String.eqb goal "" || bool_decide (findings = [])
  then mkAssessment 0.0 ["Insufficient data for coverage assessment"%string]
  else
    let high_relevance_count :=
      length (filter (fun f => ((0.7 <? f_relevance_score f) = true)) findings) in
    mkAssessment
      (py_min 1.0 (float_of_nat high_relevance_count
                   / float_of_nat (Nat.max 1 (length findings))))
      [].

Definition _review_methodology (research_content : ResearchContent) : Assessment :=
  mkAssessment
    (py_min 1.0 (float_of_nat (rc_phases_completed research_content) / 5.0)) [].

Definition _calculate_overall_quality_score
    (content_quality citation_quality coverage_assessment methodology_review : Assessment)
  : float :=
  (score content_quality * 0.4) + (score citation_quality * 0.2)
  + (score coverage_assessment * 0.3) + (score methodology_review * 0.1).

Definition _generate_final_recommendations
    (content_quality citation_quality coverage_assessment methodology_review : Assessment)
  : list string :=
  (if score content_quality <? 0.7
   then ["Expand research scope to include more diverse and comprehensive sources"%string]
   else [])
  ++ (if score citation_quality <? 0.8
      then ["Improve citation completeness and formatting"%string] else [])
  ++ (if score coverage_assessment <? 0.6
      then ["Address research gaps to better cover the stated research goal"%string]
      else [])
  ++ (if score methodology_review <? 0.7
      then ["Follow a more systematic research methodology with additional phases"%string]
      else []).

Definition _assign_quality_grade (score : float) : string :=
  if 0.9 <=? score then "A"
  else if 0.8 <=? score then "B"
  else if 0.7 <=? score then "C"
  else if 0.6 <=? score then "D"
  else "F".

(** The dictionary [final_quality_review] returns. *)
Record Review := mkReview {
  overall_score : float;
  content_quality : option Assessment;
  citation_quality : option Assessment;
  coverage_assessment : option Assessment;
  methodology_review : option Assessment;
  final_recommendations : list string;
  quality_grade : string;
  approval_status : string;
  error : option string
}.

(** The body of the [try] block. *)
Definition review (research_content : ResearchContent) : Review :=
  let content_quality := _review_content_quality research_content in
  let citation_quality := _review_citation_quality (rc_citations research_content) in
  let coverage_assessment := _assess_research_coverage research_content in
  let methodology_review := _review_methodology research_content in
  let overall_score :=
    _calculate_overall_quality_score
      content_quality citation_quality coverage_assessment methodology_review in
  let final_recommendations :=
    _generate_final_recommendations
      content_quality citation_quality coverage_assessment methodology_review in
  {| overall_score := overall_score;
     content_quality := Some content_quality;
     citation_quality := Some citation_quality;
     coverage_assessment := Some coverage_assessment;
     methodology_review := Some methodology_review;
     final_recommendations := final_recommendations;
     quality_grade := _assign_quality_grade overall_score;
     approval_status := if 0.7 <=? overall_score then "approved" else "needs_revision";
     error := None |}.

(** The dictionary of the [except] branch. *)
Definition review_failed (e : string) : Review :=
  {| overall_score := 0.5;
     content_quality := None;
     citation_quality := None;
     coverage_assessment := None;
     methodology_review := None;
     final_recommendations := [];
     quality_grade := "C";
     approval_status := "needs_revision";
     error := Some e |}.

(** [final_quality_review]: on well-typed content the [try] block does not
    raise; [raised] stands for an exception of the interpreter inside it
    (ill-typed content), which selects the [except] branch. *)
Definition final_quality_review
    (research_content : ResearchContent) (raised : option string) : Review :=
  match raised with
  | None => review research_content
  | Some e => review_failed e
  end.

End SelfCritique.

(** ** modules/rate_limiter.py *)

Module RateLimiter.

(** Seconds are exact rationals here: the properties of the limiter concern
    which delay is chosen and how often the call is tried, not rounding. *)
Record RateLimiter := mkRateLimiter {
  max_retries : Z;
  base_delay : Q
}.

(** The number matched at the start of [s] by the group of the pattern (one
    or more digits, an optional dot, any digits) followed by the letter s:
    the integer digits and the fraction digits.  Each quantifier is greedy
    and none can give back a character to let the final letter match. *)
Definition match_seconds (s : string) : option (string * string) :=
  let '(int_digits, r1) := Py.span_digits s in
  match int_digits with
  | EmptyString => None
  | _ =>
      let r2 := match r1 with
                | String "."%char r => r
                | _ => r1
                end in
      let '(frac_digits, r3) := Py.span_digits r2 in
      match r3 with
      | String "s"%char _ => Some (int_digits, frac_digits)
      | _ => None
      end
  end.

(** [re.search] of the pattern "try again in <number>s" in the message: the
    leftmost position where the whole pattern matches. *)
Fixpoint search_wait (error_message : string) : option (string * string) :=
  match error_message with
  | EmptyString => None
  | String _ r =>
      match Py.strip_prefix "try again in " error_message with
      | Some rest =>
          match match_seconds rest with
          | Some g => Some g
          | None => search_wait r
          end
      | None => search_wait r
      end
  end.

Definition digit_value (c : ascii) : Z := Z.of_nat (nat_of_ascii c) - 48.

(** The decimal number a digit string denotes, after the digits in [acc]. *)
Fixpoint digits_value (acc : Z) (s : string) : Z :=
  match s with
  | EmptyString => acc
  | String c r => digits_value (10 * acc + digit_value c) r
  end.

(** [float(match.group(1))] *)
Definition seconds_value (g : string * string) : Q :=
  let '(int_digits, frac_digits) := g in
  (inject_Z (digits_value 0 int_digits)
   + inject_Z (digits_value 0 frac_digits)
     / inject_Z (10 ^ Z.of_nat (String.length frac_digits)))%Q.

(** The delay the provider states in its message, if it states one. *)
Definition provider_delay (error_message : string) : option Q :=
  seconds_value <$> search_wait error_message.

(** [_extract_wait_time]: the stated delay plus a buffer of half a second. *)
Definition _extract_wait_time (error_message : string) : option Q :=
  (fun w => (w + (1 # 2))%Q) <$> provider_delay error_message.

(** ["rate_limit_exceeded" in error_str or "429" in error_str] *)
Definition is_rate_limit_error (error_str : string) : bool :=
  Py.contains "rate_limit_exceeded" error_str || Py.contains "429" error_str.

(** How [call_with_backoff] ends. *)
Inductive result (A : Type) : Type :=
| Returned (a : A)
| Raised (e : string)
| ReturnedNone.
Arguments Returned {A} a.
Arguments Raised {A} e.
Arguments ReturnedNone {A}.

(** One [time.sleep(wait_time)] between two attempts. *)
Record Sleep := mkSleep {
  sl_attempt : nat;
  sl_error : string;
  sl_wait_time : Q
}.

Record Run (A : Type) := mkRun {
  outcome : result A;
  calls : nat;
  sleeps : list Sleep
}.
Arguments mkRun {A}.
Arguments outcome {A}.
Arguments calls {A}.
Arguments sleeps {A}.

(** The iterations [attempt, attempt + 1, ...] of
    [for attempt in range(self.max_retries + 1)], [remaining] of them.
    [func k] is what the [k]-th invocation of the wrapped function does;
    [time.sleep] raises [ValueError] on a negative length. *)
Fixpoint attempts {A} (self : RateLimiter) (func : nat → exc A)
    (remaining attempt : nat) : Run A :=
  match remaining with
  | O => mkRun ReturnedNone 0 []
  | S remaining' =>
      match func attempt with
      | Ok r => mkRun (Returned r) 1 []
      | Raise error_str =>
          if is_rate_limit_error error_str then
            if (Z.of_nat attempt <? max_retries self)%Z then
              let wait_time :=
                match _extract_wait_time error_str with
                | Some w => w
                | None => (base_delay self * inject_Z (2 ^ Z.of_nat attempt))%Q
                end in
              if Qle_bool 0 wait_time then
                let rest := attempts self func remaining' (S attempt) in
                mkRun (outcome rest) (S (calls rest))
                      (mkSleep attempt error_str wait_time :: sleeps rest)
              else mkRun (Raised "sleep length must be non-negative") 1 []
            else mkRun (Raised error_str) 1 []
          else mkRun (Raised error_str) 1 []
      end
  end.

(** The loop of [call_with_backoff], which follows the pacing prelude
    [wait_if_needed]. *)
Definition call_with_backoff {A} (self : RateLimiter) (func : nat → exc A) : Run A :=
  attempts self func (Z.to_nat (max_retries self + 1)) 0.

(** The attributes of the limiter that pace its calls. *)
Record Pace := mkPace {
  last_call_time : Q;
  min_interval : Q
}.

(** The values [__init__] gives them. *)
Definition new_pace : Pace := mkPace 0 1.

(** [x < y] on seconds. *)
Definition Qlt_bool (x y : Q) : bool := negb (Qle_bool y x).

(** [wait_if_needed]; [current_time] and [time_after] are what its two
    calls of [time.time()] return.  The result is the length of the sleep,
    when there is one, and the attributes afterwards.  The length is
    positive: this [time.sleep] does not raise. *)
Definition wait_if_needed (pace : Pace) (current_time time_after : Q)
  : option Q * Pace :=
  let time_since_last := (current_time - last_call_time pace)%Q in
  (if Qlt_bool time_since_last (min_interval pace)
   then Some (min_interval pace - time_since_last)%Q
   else None,
   mkPace time_after (min_interval pace)).

(** A whole call of [call_with_backoff]: the sleep of the prelude, the
    attributes it leaves, and the run of the loop. *)
Record Call (A : Type) := mkCall {
  pacing : option Q;
  pace_after : Pace;
  backoff : Run A
}.
Arguments mkCall {A}.
Arguments pacing {A}.
Arguments pace_after {A}.
Arguments backoff {A}.

Definition paced_call_with_backoff {A} (self : RateLimiter) (pace : Pace)
    (current_time time_after : Q) (func : nat → exc A) : Call A :=
  let '(slept, pace) := wait_if_needed pace current_time time_after in
  mkCall slept pace (call_with_backoff self func).

(** The lengths of all the [time.sleep] of a call, in order. *)
Definition all_sleeps {A} (r : Call A) : list Q :=
  option_list (pacing r) ++ (sl_wait_time <$> sleeps (backoff r)).

End RateLimiter.

(** ** modules/llm_tools.py *)

Module LLMTools.
Import RateLimiter.

(** The answer of the provider to a request: the status code and, for a
    200, what [result['choices'][0]['message']['content']] evaluates to
    (a body of another shape raises). *)
Record Response := mkResponse {
  status_code : nat;
  content : exc string
}.

(** [_make_request], given what [requests.post] does (it raises on a
    connection error or a timeout). *)
Definition _make_request (posted : exc Response) : exc string :=
  match posted with
  | Raise e => Raise e
  | Ok response =>
      if (status_code response =? 200)%nat then content response
      else Raise ("API request failed: "
                  +:+ Py.str_of_nat (status_code response))
  end.

(** [RateLimiter(max_retries=3, base_delay=2.0)] *)
Definition rate_limiter : RateLimiter := mkRateLimiter 3 2.

(** [generate_text]: the request goes through the limiter; the [except]
    clause logs and raises again.  [post k] is what the [k]-th request
    does. *)
Definition generate_text (post : nat → exc Response) : Run string :=
  call_with_backoff rate_limiter (λ k, _make_request (post k)).

End LLMTools.

(** ** modules/emergency_mode.py *)

Module EmergencyMode.
#[local] Set Warnings "-inexact-float".

(** [re.sub(r'\s+', ' ', text)]; [in_run] tells that the previous character
    was white space. *)
Fixpoint collapse_spaces (in_run : bool) (text : string) : string :=
  match text with
  | EmptyString => EmptyString
  | String c r =>
      if Py.is_space c
      then if in_run then collapse_spaces true r
           else String " "%char (collapse_spaces true r)
      else String c (collapse_spaces false r)
  end.

(** The characters the second substitution keeps: word characters, white
    space and the punctuation [. , ! ? ; : - ( )]. *)
Definition kept (c : ascii) : bool :=
  Py.is_word c || Py.is_space c
  || bool_decide (c ∈ [","; "."; "!"; "?"; ";"; ":"; "-"; "("; ")"]%char).

Fixpoint keep_only (p : ascii → bool) (text : string) : string :=
  match text with
  | EmptyString => EmptyString
  | String c r => if p c then String c (keep_only p r) else keep_only p r
  end.

Definition _clean_text (text : string) : string :=
  let text := collapse_spaces false text in
  let text := keep_only kept text in
  Py.strip text.

Definition is_terminator (c : ascii) : bool :=
  bool_decide (c ∈ ["."; "!"; "?"]%char).

(** [re.split(r'[.!?]+', text)]; [in_run] tells that the previous character
    was a terminator. *)
Fixpoint split_terminators (in_run : bool) (text : string) : list string :=
  match text with
  | EmptyString => [EmptyString]
  | String c r =>
      if is_terminator c
      then if in_run then split_terminators true r
           else EmptyString :: split_terminators true r
      else match split_terminators false r with
           | [] => [String c EmptyString]
           | h :: t => String c h :: t
           end
  end.

Definition _split_into_sentences (text : string) : list string :=
  let sentences := split_terminators false text in
  Py.strip <$>
    filter (fun s => (20 < String.length (Py.strip s))%nat) sentences.

Definition key_indicators : list string :=
  ["found that"; "discovered"; "revealed"; "showed"; "demonstrated";
   "indicates"; "suggests"; "evidence"; "research shows"; "study found"].

Definition _extract_key_findings (sentences : list string) : list string :=
  Py.collect 5
    (fun sentence => Py.contains_any key_indicators (Py.lower sentence))
    sentences [].

(** The statistics pattern tried at the start of [s]: one or more digits, an
    optional dot, any digits, any white space, and then a percent sign or
    one of the four words.  The quantifiers are greedy, and giving back a
    character never lets what follows match. *)
Definition match_statistic (s : string) : bool :=
  let '(digits, r1) := Py.span_digits s in
  Py.nonempty digits
  && (let r2 := match r1 with
                | String "."%char r => r
                | _ => r1
                end in
      let '(_, r3) := Py.span_digits r2 in
      let '(_, r4) := Py.span_spaces r3 in
      existsb (fun w => Py.startswith w r4)
              ["%"; "percent"; "million"; "billion"; "thousand"]).

(** [re.search(pattern, s)] for the statistics pattern *)
Fixpoint search_statistic (s : string) : bool :=
  match s with
  | EmptyString => false
  | String _ r => match_statistic s || search_statistic r
  end.

Definition _extract_statistics (sentences : list string) : list string :=
  Py.collect 3 (fun sentence => search_statistic (Py.lower sentence))
    sentences [].

Definition conclusion_indicators : list string :=
  ["conclude"; "in conclusion"; "therefore"; "thus"; "hence";
   "in summary"; "overall"; "finally"; "results show"].

Definition _extract_conclusions (sentences : list string) : list string :=
  Py.collect 3
    (fun sentence => Py.contains_any conclusion_indicators (Py.lower sentence))
    sentences [].

(** The metadata dictionary of a source, as far as the extractor reads it. *)
Record SourceMetadata := mkSourceMetadata {
  sm_title : option string;
  sm_url : option string;
  sm_type : option string
}.

Record KeyInformation := mkKeyInformation {
  source_title : string;
  source_url : string;
  source_type : string;
  key_findings : list string;
  relevant_facts : list string;
  statistics : list string;
  conclusions : list string;
  confidence_level : string;
  relevance_score : float;
  emergency_extraction : bool
}.

Definition extract_key_information (content : string)
    (source_metadata : SourceMetadata) : KeyInformation :=
  let content := _clean_text content in
  let sentences := _split_into_sentences content in
  let key_findings := _extract_key_findings sentences in
  let statistics := _extract_statistics sentences in
  let conclusions := _extract_conclusions sentences in
  {| source_title := default "Unknown Source" (sm_title source_metadata);
     source_url := default "" (sm_url source_metadata);
     source_type := default "web" (sm_type source_metadata);
     key_findings := take 3 key_findings;
     relevant_facts := take 5 sentences;
     statistics := take 2 statistics;
     conclusions := take 2 conclusions;
     confidence_level := "basic";
     relevance_score := 0.6%float;
     emergency_extraction := true |}.

End EmergencyMode.

(** ** modules/goal_parser.py *)

Module GoalParser.

(** A subgoal dictionary; [None] is an absent key. *)
Record Subgoal := mkSubgoal {
  sg_id : option Z;
  sg_title : option string;
  sg_description : option string;
  sg_search_terms : option (list string);
  sg_priority : option string;
  sg_expected_sources : option (list string)
}.

(** The goal dictionary, as decoded from the model's answer and as returned;
    [None] is an absent key. *)
Record Goal := mkGoal {
  main_goal : option string;
  research_domain : option string;
  time_scope : option string;
  subgoals : option (list Subgoal);
  success_criteria : option (list string);
  estimated_complexity : option string;
  created_at : option string;
  total_subgoals : option nat
}.

(** [goal.get('subgoals', [])] *)
Definition get_subgoals (goal : Goal) : list Subgoal := default [] (subgoals goal).

(** The maximal runs of word characters of [s]; [cur] is the run being read. *)
Fixpoint word_runs (cur : string) (s : string) : list string :=
  match s with
  | EmptyString => if Py.nonempty cur then [cur] else []
  | String c r =>
      if Py.is_word c then word_runs (cur +:+ String c EmptyString) r
      else (if Py.nonempty cur then [cur] else []) ++ word_runs EmptyString r
  end.

Fixpoint all_chars (p : ascii → bool) (s : string) : bool :=
  match s with
  | EmptyString => true
  | String c r => p c && all_chars p r
  end.

(** [re.findall(r'\b[a-zA-Z]{3,}\b', text)]: a match starts and ends at a word
    boundary, so it is a whole run of word characters, made of letters only
    and at least three of them. *)
Definition findall_words (text : string) : list string :=
  filter (fun w => all_chars Py.is_alpha w = true ∧ (3 ≤ String.length w)%nat)
         (word_runs EmptyString text).

Definition stop_words : gset string :=
  list_to_set
    ["the"; "and"; "for"; "are"; "but"; "not"; "you"; "all"; "can"; "had";
     "her"; "was"; "one"; "our"; "out"; "day"; "get"; "has"; "him"; "his";
     "how"; "its"; "may"; "new"; "now"; "old"; "see"; "two"; "way"; "who";
     "boy"; "did"; "she"; "use"; "find"; "any"; "work"; "part"; "take";
     "know"; "back"; "good"; "give"; "most"; "very"; "research";
     "comprehensive"; "conduct"; "information"; "data"].

Definition _generate_search_terms (description : string) : list string :=
  if negb (Py.nonempty description) then ["research"; "information"]
  else
    let words := findall_words (Py.lower description) in
    let keywords :=
      filter (fun word => (word ∉ stop_words) ∧ (2 < String.length word)%nat) words in
    let unique_keywords := Py.fromkeys keywords in
    match unique_keywords with
    | [] =>
        if Py.contains "morocco" (Py.lower description)
        then ["morocco"; "location"; "geography"; "africa"; "country"]
        else if Py.contains_any ["where"; "location"; "place"; "country"; "city"]
                                (Py.lower description)
        then
          let words_clean := filter (fun w => (3 < String.length w)%nat) words in
          match words_clean with
          | [] => ["location"; "geography"; "place"]
          | _ => take 3 words_clean ++ ["location"; "geography"]
          end
        else ["information"; "research"; "facts"]
    | _ => take 5 unique_keywords
    end.

(** The text of [s] from its first opening brace on. *)
Fixpoint from_first_open (s : string) : option string :=
  match s with
  | EmptyString => None
  | String c r => if Ascii.eqb c "{" then Some s else from_first_open r
  end.

(** The longest prefix of [s] that ends with a closing brace. *)
Fixpoint upto_last_close (s : string) : option string :=
  match s with
  | EmptyString => None
  | String c r =>
      match upto_last_close r with
      | Some p => Some (String c p)
      | None => if Ascii.eqb c "}" then Some (String c EmptyString) else None
      end
  end.

(** [re.search(r'\{.*\}', response, re.DOTALL)]: from the first opening
    brace to the last closing brace after it. *)
Definition search_json (response : string) : option string :=
  from_first_open response ≫= upto_last_close.

(** The state of the loop of [_manual_parse]; [current_subgoal] is [None]
    for the empty dictionary. *)
Record ManualState := mkManualState {
  ms_main_goal : string;
  ms_subgoals : list Subgoal;
  ms_current_subgoal : option Subgoal;
  ms_in_subgoal : bool
}.

Definition append_description (line : string) (subgoal : Subgoal) : Subgoal :=
  let description := default "" (sg_description subgoal) in
  {| sg_id := sg_id subgoal;
     sg_title := sg_title subgoal;
     sg_description :=
       Some (if Py.nonempty description then description +:+ " " +:+ line else line);
     sg_search_terms := sg_search_terms subgoal;
     sg_priority := sg_priority subgoal;
     sg_expected_sources := sg_expected_sources subgoal |}.

(** One iteration of [for line in lines]. *)
Definition manual_step (st : ManualState) (line : string) : ManualState :=
  let line := Py.strip line in
  if negb (Py.nonempty line) then st
  else if Py.contains_any ["main goal"; "objective"; "research goal"] (Py.lower line)
  then {| ms_main_goal :=
            if Py.contains ":" line then Py.strip (Py.split1_last ":" line) else line;
          ms_subgoals := ms_subgoals st;
          ms_current_subgoal := ms_current_subgoal st;
          ms_in_subgoal := ms_in_subgoal st |}
  else if Py.contains_any ["subtask"; "subgoal"; "task"] (Py.lower line)
  then
    let subgoals :=
      match ms_current_subgoal st with
      | Some current => ms_subgoals st ++ [current]
      | None => ms_subgoals st
      end in
    {| ms_main_goal := ms_main_goal st;
       ms_subgoals := subgoals;
       ms_current_subgoal :=
         Some {| sg_id := Some (Z.of_nat (length subgoals) + 1)%Z;
                 sg_title := Some line;
                 sg_description := Some "";
                 sg_search_terms := Some [];
                 sg_priority := Some "medium";
                 sg_expected_sources := Some ["academic papers"; "websites"] |};
       ms_in_subgoal := true |}
  else if ms_in_subgoal st
  then {| ms_main_goal := ms_main_goal st;
          ms_subgoals := ms_subgoals st;
          ms_current_subgoal := append_description line <$> ms_current_subgoal st;
          ms_in_subgoal := ms_in_subgoal st |}
  else st.

Definition _manual_parse (response : string) : Goal :=
  let lines := Py.split Py.nl response in
  let st := fold_left manual_step lines (mkManualState "" [] None false) in
  let subgoals :=
    match ms_current_subgoal st with
    | Some current => ms_subgoals st ++ [current]
    | None => ms_subgoals st
    end in
  {| main_goal :=
       Some (if Py.nonempty (ms_main_goal st) then ms_main_goal st
             else "Research the specified topic");
     research_domain := Some "General";
     time_scope := Some "recent";
     subgoals := Some subgoals;
     success_criteria := Some ["Comprehensive coverage"; "Accurate citations"];
     estimated_complexity := Some "moderate";
     created_at := None;
     total_subgoals := None |}.

(** The collaborators of the parser: the language model's answer to the
    parsing prompt (or the error [generate_text] raises), the JSON decoder
    (which raises on text that is not JSON; a decoded object is well typed)
    and the clock. *)
Record Env := mkEnv {
  generate_text : string → exc string;
  json_loads : string → exc Goal;
  timestamp : string
}.

Definition _extract_structured_goal (env : Env) (response : string) : Goal :=
  match search_json response with
  | Some json_str =>
      match json_loads env json_str with
      | Ok parsed => parsed
      | Raise _ => _manual_parse response
      end
  | None => _manual_parse response
  end.

(** The body of the loop over [enumerate(parsed_goal['subgoals'])]. *)
Definition enhance_subgoal (i : nat) (subgoal : Subgoal) : Subgoal :=
  {| sg_id := Some (default (Z.of_nat i + 1)%Z (sg_id subgoal));
     sg_title := sg_title subgoal;
     sg_description := sg_description subgoal;
     sg_search_terms :=
       Some match sg_search_terms subgoal with
            | None | Some [] =>
                _generate_search_terms (default "" (sg_description subgoal))
            | Some terms => terms
            end;
     sg_priority := Some (default "medium" (sg_priority subgoal));
     sg_expected_sources :=
       Some (default ["academic papers"; "websites"; "reports"]
                     (sg_expected_sources subgoal)) |}.

Definition _validate_and_enhance (env : Env) (parsed_goal : Goal)
    (original_goal : string) : Goal :=
  let subgoals := imap enhance_subgoal (default [] (subgoals parsed_goal)) in
  {| main_goal := Some (default original_goal (main_goal parsed_goal));
     research_domain := research_domain parsed_goal;
     time_scope := time_scope parsed_goal;
     subgoals := Some subgoals;
     success_criteria := success_criteria parsed_goal;
     estimated_complexity := estimated_complexity parsed_goal;
     created_at := Some (timestamp env);
     total_subgoals := Some (length subgoals) |}.

Definition _create_fallback_structure (env : Env) (goal : string) : Goal :=
  {| main_goal := Some goal;
     research_domain := Some "General";
     time_scope := Some "recent";
     subgoals :=
       Some [ {| sg_id := Some 1%Z;
                 sg_title := Some "Primary Research";
                 sg_description :=
                   Some ("Conduct comprehensive research on: " +:+ goal);
                 sg_search_terms := Some (_generate_search_terms goal);
                 sg_priority := Some "high";
                 sg_expected_sources :=
                   Some ["academic papers"; "websites"; "reports"] |} ];
     success_criteria :=
       Some ["Comprehensive coverage"; "Accurate information"; "Proper citations"];
     estimated_complexity := Some "moderate";
     created_at := Some (timestamp env);
     total_subgoals := Some 1 |}.

(** The prompt of [_create_parsing_prompt]; only the goal text varies. *)
Definition _create_parsing_prompt (goal : string) : string :=
  "Research Goal: " +:+ goal.

(** [parse_goal]: the [try] block ends in the [except] branch only when
    [generate_text] raises (on well-typed answers nothing else in it does). *)
Definition parse_goal (env : Env) (goal : string) : Goal :=
  let parsing_prompt := _create_parsing_prompt goal in
  match generate_text env parsing_prompt with
  | Ok response =>
      let parsed_goal := _extract_structured_goal env response in
      _validate_and_enhance env parsed_goal goal
  | Raise _ => _create_fallback_structure env goal
  end.

End GoalParser.

(** ** modules/planner.py: the creation of a plan *)

Module PlanCreation.
Import Planner.

(** The collaborators of [create_execution_plan]: the answer of the
    language model to the planning prompt (or the error [generate_text]
    raises) and the plan that the two JSON searches of
    [_extract_execution_plan] decode from an answer, if they decode one.
    The plan record keeps the keys of a plan dictionary that the agent
    reads: ['quality_gates'], ['risk_factors'], ['created_at'] and
    ['estimated_complexity'] are left out, and an absent ['research_goal']
    reads as the empty string, as [plan.get('research_goal', '')] does. *)
Record Env := mkEnv {
  generate_text : string → exc string;
  json_plan : string → option Plan
}.

(** [f"phase_{i}"] *)
Definition phase_name (i : nat) : string := "phase_" +:+ Py.str_of_nat i.

Definition stop_words : gset string :=
  list_to_set
    ["the"; "and"; "for"; "are"; "but"; "not"; "you"; "all"; "can"; "had";
     "her"; "was"; "one"; "our"; "out"; "day"; "get"; "has"; "him"; "his";
     "how"; "its"; "may"; "new"; "now"; "old"; "see"; "two"; "way"; "who";
     "boy"; "did"; "she"; "use"; "find"; "any"; "work"; "part"; "take";
     "know"; "back"; "good"; "give"; "most"; "very"; "phase"; "research";
     "description"; "type"; "analysis"; "step"; "stage"].

Definition _generate_search_terms_from_text (text : string) : list string :=
  if negb (Py.nonempty text) then ["research"; "information"]
  else
    let words := GoalParser.findall_words (Py.lower text) in
    let keywords :=
      filter (fun word => (word ∉ stop_words) ∧ (2 < String.length word)%nat)
             words in
    let unique_keywords := take 5 (Py.fromkeys keywords) in
    match unique_keywords with
    | [] =>
        if Py.contains "morocco" (Py.lower text)
        then ["morocco"; "location"; "geography"; "africa"; "country"]
        else ["information"; "research"; "data"; "facts"; "details"]
    | _ => unique_keywords
    end.

(** [[f"phase_{n - 1}"] if n > 1 else []] *)
Definition previous_phase (n : nat) : list string :=
  if (1 <? n)%nat then [phase_name (n - 1)] else [].

(** *** [_manual_parse_plan] *)

(** [any(char.isdigit() for char in line)] *)
Fixpoint any_digit (line : string) : bool :=
  match line with
  | EmptyString => false
  | String c r => Py.is_digit c || any_digit r
  end.

(** The first of the first ten lines that mentions a goal, stripped. *)
Definition manual_main_goal (lines : list string) : string :=
  match find (fun line => Py.contains "goal" (Py.lower line)
                          || Py.contains "research" (Py.lower line))
             (take 10 lines) with
  | Some line => Py.strip line
  | None => "research topic"
  end.

(** The variables of the loop over the lines: [phases], [current_phase]
    (the empty dictionary is [None]) and [phase_count]. *)
Record ParseState := mkParseState {
  ps_phases : list Phase;
  ps_current : option Phase;
  ps_count : nat
}.

Definition flush (st : ParseState) : list Phase :=
  match ps_current st with
  | Some phase => ps_phases st ++ [phase]
  | None => ps_phases st
  end.

(** The phase opened by a stripped [line], the [phase_count]-th. *)
Definition manual_phase (main_goal line : string) (phase_count : nat) : Phase :=
  let title :=
    match Py.after_first ":" line with
    | Some rest => Py.strip rest
    | None => line
    end in
  {| ph_id := Some (phase_name phase_count);
     ph_title := title;
     ph_description := title;
     ph_type := "research";
     ph_search_terms :=
       Some (_generate_search_terms_from_text (title +:+ " " +:+ main_goal));
     ph_expected_sources := ["web"; "academic"];
     ph_dependencies := previous_phase phase_count;
     ph_success_criteria := ["Relevant information found"];
     ph_priority := "medium" |}.

(** The body of [for line in lines]. *)
Definition manual_step (main_goal : string) (st : ParseState) (line : string)
  : ParseState :=
  let line := Py.strip line in
  if negb (Py.nonempty line) then st
  else if Py.contains_any ["phase"; "step"; "stage"] (Py.lower line)
          && any_digit line
  then
    let phase_count := S (ps_count st) in
    {| ps_phases := flush st;
       ps_current := Some (manual_phase main_goal line phase_count);
       ps_count := phase_count |}
  else st.

Definition default_manual_phase (main_goal : string) : Phase :=
  {| ph_id := Some "phase_1";
     ph_title := "Primary Research";
     ph_description := "Research the main topic: " +:+ main_goal;
     ph_type := "research";
     ph_search_terms := Some (_generate_search_terms_from_text main_goal);
     ph_expected_sources := ["web"; "academic"];
     ph_dependencies := [];
     ph_success_criteria := ["Relevant information found"];
     ph_priority := "high" |}.

Definition _manual_parse_plan (response : string) : Plan :=
  let lines := Py.split Py.nl response in
  let main_goal := manual_main_goal lines in
  let st := fold_left (manual_step main_goal) lines (mkParseState [] None 0) in
  let phases :=
    match flush st with
    | [] => [default_manual_phase main_goal]
    | phases => phases
    end in
  {| plan_id := "manual_plan";
     strategy := "Sequential research and analysis";
     phases := phases;
     research_goal := "";
     last_updated := None;
     update_reason := None |}.

(** [_extract_execution_plan]: the plan decoded from the answer, and the
    manual parse when none is decoded or the decoding raises. *)
Definition _extract_execution_plan (env : Env) (response : string) : Plan :=
  match json_plan env response with
  | Some parsed => parsed
  | None => _manual_parse_plan response
  end.

(** *** [_enhance_plan] *)

(** [not phase.get('search_terms')] *)
Definition lacks_search_terms (phase : Phase) : bool :=
  match ph_search_terms phase with
  | None | Some [] => true
  | Some (_ :: _) => false
  end.

(** The body of the loop over [enumerate(plan.get('phases', []))]. *)
Definition enhance_phase (subgoals : list GoalParser.Subgoal) (i : nat)
    (phase : Phase) : Phase :=
  match subgoals !! i with
  | Some subgoal =>
      if lacks_search_terms phase then
        {| ph_id := ph_id phase;
           ph_title := ph_title phase;
           ph_description := ph_description phase;
           ph_type := ph_type phase;
           ph_search_terms :=
             Some (default [] (GoalParser.sg_search_terms subgoal));
           ph_expected_sources :=
             default ["web"; "academic"]
                     (GoalParser.sg_expected_sources subgoal);
           ph_dependencies := ph_dependencies phase;
           ph_success_criteria := ph_success_criteria phase;
           ph_priority := ph_priority phase |}
      else phase
  | None => phase
  end.

Definition _enhance_plan (plan : Plan) (parsed_goal : GoalParser.Goal)
  : Plan :=
  {| plan_id := plan_id plan;
     strategy := strategy plan;
     phases :=
       imap (enhance_phase (GoalParser.get_subgoals parsed_goal)) (phases plan);
     research_goal := default "" (GoalParser.main_goal parsed_goal);
     last_updated := last_updated plan;
     update_reason := update_reason plan |}.

(** *** [_create_fallback_plan] *)

(** The phase built for the subgoal at index [i]. *)
Definition fallback_phase (main_goal : string) (i : nat)
    (subgoal : GoalParser.Subgoal) : Phase :=
  let search_terms :=
    match default [] (GoalParser.sg_search_terms subgoal) with
    | [] =>
        _generate_search_terms_from_text
          (default "" (GoalParser.sg_description subgoal)
           +:+ " " +:+ main_goal)
    | terms => terms
    end in
  {| ph_id := Some (phase_name (i + 1));
     ph_title :=
       default ("Research Phase " +:+ Py.str_of_nat (i + 1))
               (GoalParser.sg_title subgoal);
     ph_description :=
       default ("Research aspect " +:+ Py.str_of_nat (i + 1) +:+ " of: "
                +:+ main_goal)
               (GoalParser.sg_description subgoal);
     ph_type := "research";
     ph_search_terms := Some search_terms;
     ph_expected_sources :=
       default ["web"; "academic"] (GoalParser.sg_expected_sources subgoal);
     ph_dependencies := if (0 <? i)%nat then [phase_name i] else [];
     ph_success_criteria := ["Relevant information found"];
     ph_priority := default "medium" (GoalParser.sg_priority subgoal) |}.

Definition default_fallback_phase (main_goal : string) : Phase :=
  {| ph_id := Some "phase_1";
     ph_title := "Primary Research";
     ph_description := "Comprehensive research on: " +:+ main_goal;
     ph_type := "research";
     ph_search_terms := Some (_generate_search_terms_from_text main_goal);
     ph_expected_sources := ["web"; "academic"];
     ph_dependencies := [];
     ph_success_criteria := ["Relevant information found"];
     ph_priority := "high" |}.

Definition _create_fallback_plan (parsed_goal : GoalParser.Goal) : Plan :=
  let subgoals := GoalParser.get_subgoals parsed_goal in
  let main_goal := default "" (GoalParser.main_goal parsed_goal) in
  let phases :=
    match imap (fallback_phase main_goal) subgoals with
    | [] => [default_fallback_phase main_goal]
    | phases => phases
    end in
  {| plan_id := "fallback_plan";
     strategy := "Sequential research of identified subgoals";
     phases := phases;
     research_goal := main_goal;
     last_updated := None;
     update_reason := None |}.

(** *** [create_execution_plan] *)

(** The line of the prompt for the subgoal at index [i]; [subgoal['title']]
    and [subgoal['description']] raise [KeyError] on an absent key. *)
Definition subgoal_line (i : nat) (subgoal : GoalParser.Subgoal) : exc string :=
  match GoalParser.sg_title subgoal, GoalParser.sg_description subgoal with
  | None, _ => Raise "'title'"
  | Some _, None => Raise "'description'"
  | Some title, Some description =>
      Ok (Py.str_of_nat (i + 1) +:+ ". " +:+ title +:+ ": " +:+ description)
  end.

(** The list comprehension over [enumerate(subgoals)], from index [i] on. *)
Fixpoint subgoal_lines (i : nat) (subgoals : list GoalParser.Subgoal)
  : exc (list string) :=
  match subgoals with
  | [] => Ok []
  | subgoal :: rest =>
      match subgoal_line i subgoal with
      | Raise e => Raise e
      | Ok line =>
          match subgoal_lines (S i) rest with
          | Raise e => Raise e
          | Ok lines => Ok (line :: lines)
          end
      end
  end.

(** The prompt of [_create_planning_prompt]: of its text, the parts that
    vary with the goal. *)
Definition _create_planning_prompt (parsed_goal : GoalParser.Goal) : exc string :=
  match subgoal_lines 0 (GoalParser.get_subgoals parsed_goal) with
  | Raise e => Raise e
  | Ok lines =>
      Ok ("Main Goal: " +:+ default "" (GoalParser.main_goal parsed_goal)
          +:+ String Py.nl
                ("Research Domain: "
                 +:+ default "" (GoalParser.research_domain parsed_goal))
          +:+ String Py.nl
                ("Time Scope: "
                 +:+ default "" (GoalParser.time_scope parsed_goal))
          +:+ String Py.nl ("Subgoals:" +:+ String Py.nl
                              (Py.join (String Py.nl EmptyString) lines)))
  end.

(** [create_execution_plan]: every exception of the [try] block selects the
    fallback plan. *)
Definition create_execution_plan (env : Env) (parsed_goal : GoalParser.Goal)
  : Plan :=
  match _create_planning_prompt parsed_goal with
  | Raise _ => _create_fallback_plan parsed_goal
  | Ok plan_prompt =>
      match generate_text env plan_prompt with
      | Raise _ => _create_fallback_plan parsed_goal
      | Ok plan_response =>
          _enhance_plan (_extract_execution_plan env plan_response) parsed_goal
      end
  end.

End PlanCreation.

(** ** modules/batch_processor.py *)

Module BatchProcessor.
Import Planner.

(** Seconds are exact rationals, as for the rate limiter. *)
Record BatchProcessor := mkBatchProcessor {
  batch_size : Z;
  delay_between_batches : Q
}.

(** What a run of a batch loop leaves: the results, and the lengths of the
    sleeps between batches or phases, in order. *)
Record Run (R : Type) := mkRun {
  results : list R;
  sleeps : list Q
}.
Arguments mkRun {R}.
Arguments results {R}.
Arguments sleeps {R}.

(** [range(0, stop, step)] for [0 <= stop] and a step that is not zero. *)
Definition range_by (stop step : Z) : list Z :=
  if (0 <? step)%Z
  then (λ i, Z.of_nat i * step)%Z <$> seq 0 (Z.to_nat ((stop + step - 1) / step))
  else [].

(** [l[start:stop]] for [0 <= start] *)
Definition slice {A} (start stop : Z) (l : list A) : list A :=
  take (Z.to_nat (stop - start)) (drop (Z.to_nat start) l).

Section Sources.
Context {Source R : Type}.

(** The loop over the sources of one batch: a result that is falsy
    ([None] here) and a source whose processing raises are skipped. *)
Fixpoint process_batch (processor_func : Source → exc (option R))
    (batch : list Source) : list R :=
  match batch with
  | [] => []
  | source :: rest =>
      match processor_func source with
      | Ok (Some result) => result :: process_batch processor_func rest
      | Ok None | Raise _ => process_batch processor_func rest
      end
  end.

(** The loop [for batch_idx in range(0, len(sources), self.batch_size)]
    over the indices [indices]; [time.sleep] raises [ValueError] on a
    negative length. *)
Fixpoint batches (self : BatchProcessor) (sources : list Source)
    (processor_func : Source → exc (option R)) (indices : list Z)
    (run : Run R) : exc (Run R) :=
  match indices with
  | [] => Ok run
  | batch_idx :: rest =>
      let batch := slice batch_idx (batch_idx + batch_size self) sources in
      let batch_results := process_batch processor_func batch in
      let results := results run ++ batch_results in
      if (batch_idx + batch_size self <? Z.of_nat (length sources))%Z then
        if Qle_bool 0 (delay_between_batches self)
        then batches self sources processor_func rest
               {| results := results;
                  sleeps := sleeps run ++ [delay_between_batches self] |}
        else Raise "sleep length must be non-negative"
      else batches self sources processor_func rest
             {| results := results; sleeps := sleeps run |}
  end.

(** [process_sources_in_batches], called without a progress callback.  The
    number of batches is computed first: a batch size of zero raises
    [ZeroDivisionError] there. *)
Definition process_sources_in_batches (self : BatchProcessor)
    (sources : list Source) (processor_func : Source → exc (option R))
  : exc (Run R) :=
  if (batch_size self =? 0)%Z then Raise "integer division or modulo by zero"
  else
    batches self sources processor_func
      (range_by (Z.of_nat (length sources)) (batch_size self)) (mkRun [] []).

End Sources.

(** An entry of the list [process_phases_incrementally] returns: what the
    executor returned, or the failure dictionary
    [{'phase_id', 'success': False, 'error'}]. *)
Inductive Entry (R : Type) : Type :=
| Executed (result : R)
| Failed (phase_id error : string).
Arguments Executed {R} result.
Arguments Failed {R} phase_id error.

Section Phases.
Context {R : Type}.

(** The body of [for i, phase in enumerate(phases)], with its [try]:
    [time.sleep] raises [ValueError] on a negative length, inside the
    [try], after the result has been appended. *)
Definition phase_step (self : BatchProcessor) (count : nat)
    (executor_func : Phase → exc R) (run : Run (Entry R))
    (i : nat) (phase : Phase) : Run (Entry R) :=
  let failed error :=
    Failed (default ("phase_" +:+ Py.str_of_nat (i + 1)) (ph_id phase)) error in
  match executor_func phase with
  | Ok result =>
      let appended := results run ++ [Executed result] in
      if (Z.of_nat i <? Z.of_nat count - 1)%Z then
        let wait := (delay_between_batches self * 2)%Q in
        if Qle_bool 0 wait
        then {| results := appended; sleeps := sleeps run ++ [wait] |}
        else {| results :=
                  appended ++ [failed "sleep length must be non-negative"];
                sleeps := sleeps run |}
      else {| results := appended; sleeps := sleeps run |}
  | Raise e =>
      {| results := results run ++ [failed e]; sleeps := sleeps run |}
  end.

(** The loop, from the phase at index [i] on. *)
Fixpoint phases_from (self : BatchProcessor) (count : nat)
    (executor_func : Phase → exc R) (i : nat) (phases : list Phase)
    (run : Run (Entry R)) : Run (Entry R) :=
  match phases with
  | [] => run
  | phase :: rest =>
      phases_from self count executor_func (S i) rest
        (phase_step self count executor_func run i phase)
  end.

(** [process_phases_incrementally], called without a progress callback. *)
Definition process_phases_incrementally (self : BatchProcessor)
    (phases : list Phase) (executor_func : Phase → exc R) : Run (Entry R) :=
  phases_from self (length phases) executor_func 0 phases (mkRun [] []).

End Phases.

End BatchProcessor.

(** ** modules/citation_engine.py *)

Module CitationEngine.

(** What the formatter takes from outside: the configured style (already in
    lower case), [urlparse(url).netloc] and the two renderings of today's
    date. *)
Record Env := mkEnv {
  citation_style : string;
  netloc : string → string;
  today_mla : string;
  today_chicago : string
}.

Definition _format_apa_citation (citation : Citation) : string :=
  let authors := c_authors citation in
  let parts :=
    match authors with
    | [] => []
    | [a] => [a]
    | a :: _ =>
        if (length authors <=? 3)%nat
        then [Py.join ", " (removelast authors) +:+ ", & " +:+ List.last authors ""]
        else [a +:+ ", et al."]
    end
    ++ (if Py.nonempty (c_date citation) then ["(" +:+ c_date citation +:+ ")"] else [])
    ++ (if Py.nonempty (c_title citation) then [c_title citation +:+ "."] else [])
    ++ (if Py.nonempty (c_url citation)
        then ["Retrieved from " +:+ c_url citation] else []) in
  Py.join " " parts.

Definition _format_mla_citation (env : Env) (citation : Citation) : string :=
  let url := c_url citation in
  let date := c_date citation in
  let parts :=
    match c_authors citation with
    | [] => []
    | a :: _ => [a +:+ "."]
    end
    ++ (if Py.nonempty (c_title citation)
        then [Py.dquote +:+ c_title citation +:+ "." +:+ Py.dquote] else [])
    ++ (if Py.nonempty url then [netloc env url +:+ ","] else [])
    ++ (if Py.nonempty date then [date +:+ "."] else [])
    ++ (if Py.nonempty url then ["Web. " +:+ today_mla env +:+ "."] else []) in
  Py.join " " parts.

Definition _format_chicago_citation (env : Env) (citation : Citation) : string :=
  let url := c_url citation in
  let parts :=
    match c_authors citation with
    | [] => []
    | a :: _ => [a +:+ "."]
    end
    ++ (if Py.nonempty (c_title citation)
        then [Py.dquote +:+ c_title citation +:+ "." +:+ Py.dquote] else [])
    ++ (if Py.nonempty url
        then ["Accessed " +:+ today_chicago env +:+ ". " +:+ url +:+ "."] else []) in
  Py.join " " parts.

(** [format_citation]; on well-typed citations the formatters do not raise. *)
Definition format_citation (env : Env) (citation_data : Citation) : string :=
  if String.eqb (citation_style env) "apa" then _format_apa_citation citation_data
  else if String.eqb (citation_style env) "mla"
  then _format_mla_citation env citation_data
  else if String.eqb (citation_style env) "chicago"
  then _format_chicago_citation env citation_data
  else _format_apa_citation citation_data.

(** [key and key in seen] *)
Definition seen_before (key : string) (seen : gset string) : bool :=
  bool_decide (key ≠ "" ∧ key ∈ seen).

(** [if key: seen.add(key)] *)
Definition remember (key : string) (seen : gset string) : gset string :=
  if bool_decide (key ≠ "") then {[key]} ∪ seen else seen.

(** The loop of [_deduplicate_citations], with the two sets of what was seen. *)
Fixpoint dedup_from (seen_urls seen_titles : gset string)
    (citations : list Citation) : list Citation :=
  match citations with
  | [] => []
  | citation :: rest =>
      let url := c_url citation in
      let title := Py.lower (c_title citation) in
      if seen_before url seen_urls
      then dedup_from seen_urls seen_titles rest
      else if seen_before title seen_titles
      then dedup_from seen_urls seen_titles rest
      else
        citation ::
          dedup_from (remember url seen_urls) (remember title seen_titles) rest
  end.

Definition _deduplicate_citations (citations : list Citation) : list Citation :=
  dedup_from ∅ ∅ citations.

(** [sorted(xs, key=lambda x: x.get('title', '').lower())]: a stable sort.
    [insert_sorted] puts a citation before the first one whose key is not
    smaller, so that citations with equal keys keep their order. *)
Definition sort_key (citation : Citation) : string := Py.lower (c_title citation).

Fixpoint insert_sorted (x : Citation) (sorted : list Citation) : list Citation :=
  match sorted with
  | [] => [x]
  | y :: rest =>
      if String.leb (sort_key x) (sort_key y) then x :: sorted
      else y :: insert_sorted x rest
  end.

Definition sorted_by_title (citations : list Citation) : list Citation :=
  foldr insert_sorted [] citations.

(** The [formatted_citations] list of [create_bibliography]. *)
Definition formatted_citations (env : Env) (citations : list Citation)
  : list string :=
  let unique_citations := _deduplicate_citations citations in
  let sorted_citations := sorted_by_title unique_citations in
  filter (λ formatted, Py.nonempty formatted = true)
         (format_citation env <$> sorted_citations).

Definition blank_line : string := String Py.nl (String Py.nl EmptyString).

Definition header (env : Env) : string :=
  "## References (" +:+ Py.upper (citation_style env) +:+ " Style)" +:+ blank_line.

(** The numbered line of one entry: [f"{i}. {citation}\n\n"]. *)
Definition entry (i : nat) (citation : string) : string :=
  Py.str_of_nat i +:+ ". " +:+ citation +:+ blank_line.

Definition create_bibliography (env : Env) (citations : list Citation) : string :=
  fold_left String.append
    (imap (λ i citation, entry (S i) citation) (formatted_citations env citations))
    (header env).

End CitationEngine.

(** ** The computations of the agent: state, exceptions, fuel *)

(** A retrieved document, as [Retriever] builds it. *)
Record Document := mkDocument {
  d_title : string;
  d_url : string;
  d_content : string;
  d_source_type : string;
  d_authors : list string;
  d_published : string;
  d_retrieved_at : string
}.

(** ** modules/retriever.py: previews and source quality *)

Module Retriever.
#[local] Set Warnings "-inexact-float".

(** [s[:n]] for [0 <= n] *)
Fixpoint prefix_chars (n : nat) (s : string) : string :=
  match n, s with
  | S n', String c r => String c (prefix_chars n' r)
  | _, _ => EmptyString
  end.

(** [s[:stop]]: a negative [stop] counts from the end. *)
Definition slice_to (stop : Z) (s : string) : string :=
  if (stop <? 0)%Z
  then prefix_chars (Z.to_nat (Z.of_nat (String.length s) + stop)) s
  else prefix_chars (Z.to_nat stop) s.

(** [s.rfind(c)]: the index of the last [c] in [s], or -1. *)
Fixpoint rfind (c : ascii) (s : string) : Z :=
  match s with
  | EmptyString => (-1)%Z
  | String a r =>
      let i := rfind c r in
      if (0 <=? i)%Z then (i + 1)%Z
      else if Ascii.eqb a c then 0%Z else (-1)%Z
  end.

(** [float(z)], exact for an integer of at most 53 bits. *)
Definition float_of_Z (z : Z) : float :=
  if (z <? 0)%Z then PrimFloat.opp (PrimFloat.of_uint63 (Uint63.of_Z (- z)))
  else PrimFloat.of_uint63 (Uint63.of_Z z).

(** [get_content_summary]; the comparison of the index with the float
    [max_length * 0.7] is the comparison of the two numbers. *)
Definition get_content_summary (content : string) (max_length : Z) : string :=
  if negb (Py.nonempty content) then EmptyString
  else if (Z.of_nat (String.length content) <=? max_length)%Z then content
  else
    let summary := slice_to max_length content in
    let last_sentence := rfind "." summary in
    let summary :=
      if (float_of_Z max_length * 0.7 <? float_of_Z last_sentence)%float
      then slice_to (last_sentence + 1) summary
      else summary in
    summary +:+ "...".

(** [validate_source_quality] *)
Definition validate_source_quality (source : Document) : float :=
  let score := 0%float in
  let content_length := String.length (d_content source) in
  let score :=
    if (1000 <? content_length)%nat then (score + 0.3)%float
    else if (500 <? content_length)%nat then (score + 0.2)%float
    else if (100 <? content_length)%nat then (score + 0.1)%float
    else score in
  let score :=
    if String.eqb (d_source_type source) "academic" then (score + 0.3)%float
    else score in
  let score :=
    if Py.nonempty (d_title source) then (score + 0.2)%float else score in
  let score :=
    if Py.nonempty (d_url source) then (score + 0.2)%float else score in
  SelfCritique.py_min score 1%float.

End Retriever.

(** ** modules/citation_engine.py: the extraction of citations *)

Module CitationExtraction.

(** The entries of the JSON object asked from the model; a key that is
    absent reads as the empty string ([claim.get('claim', '')]). *)
Record Claim := mkClaim {
  cl_claim : string;
  cl_context : string;
  cl_quote : string;
  cl_page_section : string
}.

Record Statistic := mkStatistic {
  st_statistic : string;
  st_context : string
}.

Record Insight := mkInsight {
  in_insight : string;
  in_quote : string
}.

(** The decoded object; an absent list reads as the empty list. *)
Record CitationData := mkCitationData {
  key_claims : list Claim;
  statistics : list Statistic;
  author_insights : list Insight
}.

(** The collaborators: the language model, the JSON decoder (which raises
    on text that is not JSON) and the date of the day. *)
Record Env := mkEnv {
  generate_text : string → exc string;
  json_loads : string → exc CitationData;
  today : string
}.

(** The prompt of [_create_citation_prompt]: of its text, the parts that
    vary with the source. *)
Definition _create_citation_prompt (content : string)
    (source_metadata : Document) : string :=
  "- Title: " +:+ d_title source_metadata
  +:+ String Py.nl ("- URL: " +:+ d_url source_metadata)
  +:+ String Py.nl ("- Source Type: " +:+ d_source_type source_metadata)
  +:+ String Py.nl ("- Retrieved: " +:+ d_retrieved_at source_metadata)
  +:+ String Py.nl ("Content to analyze:" +:+ String Py.nl
                      (Retriever.prefix_chars 2000 content)).

(** [_extract_date]: the first ten characters of the publication date, or
    of the retrieval date, or the date of the day. *)
Definition _extract_date (env : Env) (source_metadata : Document) : string :=
  if Py.nonempty (d_published source_metadata)
  then Retriever.prefix_chars 10 (d_published source_metadata)
  else if Py.nonempty (d_retrieved_at source_metadata)
  then Retriever.prefix_chars 10 (d_retrieved_at source_metadata)
  else today env.

(** [_create_basic_citation].  A document of the retriever always has the
    keys ['title'], ['url'] and ['source_type']: the defaults the code gives
    for them when absent do not occur. *)
Definition _create_basic_citation (env : Env) (source_metadata : Document)
  : Citation :=
  {| c_type := "source";
     c_title := d_title source_metadata;
     c_url := d_url source_metadata;
     c_authors := d_authors source_metadata;
     c_date := _extract_date env source_metadata;
     c_source_type := d_source_type source_metadata;
     c_content := d_title source_metadata;
     c_context := "";
     c_quote := "";
     c_page_section := "" |}.

Definition claim_citation (env : Env) (source_metadata : Document)
    (claim : Claim) : Citation :=
  {| c_type := "claim";
     c_title := d_title source_metadata;
     c_url := d_url source_metadata;
     c_authors := d_authors source_metadata;
     c_date := _extract_date env source_metadata;
     c_source_type := d_source_type source_metadata;
     c_content := cl_claim claim;
     c_context := cl_context claim;
     c_quote := cl_quote claim;
     c_page_section := cl_page_section claim |}.

Definition statistic_citation (env : Env) (source_metadata : Document)
    (stat : Statistic) : Citation :=
  {| c_type := "statistic";
     c_title := d_title source_metadata;
     c_url := d_url source_metadata;
     c_authors := d_authors source_metadata;
     c_date := _extract_date env source_metadata;
     c_source_type := d_source_type source_metadata;
     c_content := st_statistic stat;
     c_context := st_context stat;
     c_quote := "";
     c_page_section := "" |}.

Definition insight_citation (env : Env) (source_metadata : Document)
    (insight : Insight) : Citation :=
  {| c_type := "insight";
     c_title := d_title source_metadata;
     c_url := d_url source_metadata;
     c_authors := d_authors source_metadata;
     c_date := _extract_date env source_metadata;
     c_source_type := d_source_type source_metadata;
     c_content := in_insight insight;
     c_context := "";
     c_quote := in_quote insight;
     c_page_section := "" |}.

(** [_parse_citation_response]: the three loops over the decoded object,
    and the basic citation when nothing was decoded or nothing is listed. *)
Definition _parse_citation_response (env : Env) (response : string)
    (source_metadata : Document) : list Citation :=
  let citations :=
    match GoalParser.search_json response with
    | Some json_str =>
        match json_loads env json_str with
        | Ok data =>
            (claim_citation env source_metadata <$> key_claims data)
            ++ (statistic_citation env source_metadata <$> statistics data)
            ++ (insight_citation env source_metadata <$> author_insights data)
        | Raise _ => []
        end
    | None => []
    end in
  match citations with
  | [] => [_create_basic_citation env source_metadata]
  | _ => citations
  end.

(** [extract_citations_from_content]: the basic citation when the
    generation raises. *)
Definition extract_citations_from_content (env : Env) (content : string)
    (source_metadata : Document) : list Citation :=
  let extraction_prompt := _create_citation_prompt content source_metadata in
  match generate_text env extraction_prompt with
  | Ok response => _parse_citation_response env response source_metadata
  | Raise _ => [_create_basic_citation env source_metadata]
  end.

End CitationExtraction.

(** How a computation ends: with a value, with an exception, or not within
    the fuel given to the phase loop. *)
Inductive result (A : Type) : Type :=
| Val (a : A)
| Exn (e : string)
| Diverge.
Arguments Val {A} a.
Arguments Exn {A} e.
Arguments Diverge {A}.

Module ExecutionAgent.
Import Planner.
#[local] Set Warnings "-inexact-float".

(** The dictionary [LLMTools.extract_key_information] returns, with lists
    of strings under the four keys of the prompt; ['relevance_score'] may be
    absent. *)
Record KeyInfo := mkKeyInfo {
  ki_key_findings : list string;
  ki_relevant_facts : list string;
  ki_statistics : list string;
  ki_conclusions : list string;
  ki_relevance_score : option float
}.

(** The critique of a phase, as [SelfCritique.critique_phase_results]
    returns it. *)
Record PhaseCritique := mkPhaseCritique {
  pc_overall_score : float;
  pc_strengths : list string;
  pc_weaknesses : list string;
  pc_recommendations : list string
}.

(** The two shapes of a phase result: the failure dictionary
    [{'phase_id', 'success': False, 'error'}] and the full one. *)
Inductive PhaseResult : Type :=
| PhaseFailed (phase_id error : string)
| PhaseDone (phase_id phase_title : string)
            (documents_retrieved documents_stored : nat)
            (findings : list Finding) (citations : list Citation)
            (summary : string) (critique : PhaseCritique)
            (new_insights : list string).

(** [result.get('new_insights')] *)
Definition get_new_insights (r : PhaseResult) : list string :=
  match r with
  | PhaseFailed _ _ => []
  | PhaseDone _ _ _ _ _ _ _ _ new_insights => new_insights
  end.

Record LogEntry := mkLogEntry {
  timestamp : float;
  description : string;
  completed_phases_count : nat
}.

Record Synthesis := mkSynthesis {
  syn_summary : string;
  thematic_groups : list (string * list Finding);
  key_conclusions : list string;
  total_findings : nat;
  unique_sources : nat
}.

(** What [execute_research] returns (the derived ['steps'] and ['metadata']
    entries of the success dictionary are left out). *)
Inductive ResearchResult : Type :=
| ResearchSucceeded
    (research_goal : string) (execution_plan : option Plan)
    (phase_results : list PhaseResult) (synthesis : Synthesis)
    (quality_check : SelfCritique.Review)
    (findings : list Finding) (citations : list Citation)
    (execution_log : list LogEntry) (execution_time : float)
    (session_id : option string)
| ResearchFailed
    (error : string) (execution_log : list LogEntry)
    (partial_findings : list Finding) (partial_citations : list Citation)
    (session_id : option string).

(** The collaborators.  Each answer depends on the arguments and on the
    clock, the number of calls made so far.  A collaborator whose code
    catches every exception has a plain result type; the others may raise. *)
Record World := mkWorld {
  w_time : nat → float;
  w_now : nat → string;
  w_create_research_session : nat → string → exc string;
  w_update_session_status : nat → string → string → bool;
  w_save_research_phase : nat → string → PhaseResult → exc bool;
  w_save_findings : nat → string → list Finding → exc nat;
  w_save_citations : nat → string → list Citation → exc nat;
  w_create_execution_plan : nat → GoalParser.Goal → exc Plan;
  w_plan_updates : nat → Plan → list string → list string → exc Updates;
  w_search_web : nat → string → Z → list Document;
  w_search_arxiv : nat → string → list Document;
  w_store_documents : nat → list Document → list string;
  w_extract_key_information : nat → string → string → exc KeyInfo;
  w_extract_citations_from_content : nat → Document → exc (list Citation);
  w_generate_text : nat → string → exc string;
  w_critique_phase_results :
    nat → Phase → list Finding → string → PhaseCritique;
  w_review_raises : nat → option string
}.

(** The attributes of the agent, with the clock of the world. *)
Record Agent := mkAgent {
  max_sources : Z;
  current_plan : option Plan;
  completed_phases : list string;
  all_findings : list Finding;
  all_citations : list Citation;
  execution_log : list LogEntry;
  current_session_id : option string;
  clock : nat
}.

(** The agent [__init__] builds. *)
Definition new_agent (max_sources : Z) : Agent :=
  mkAgent max_sources None [] [] [] [] None 0.

Definition M (A : Type) : Type := Agent → result A * Agent.

Definition ret {A} (a : A) : M A := λ s, (Val a, s).

Definition raise {A} (e : string) : M A := λ s, (Exn e, s).

Definition diverge {A} : M A := λ s, (Diverge, s).

Definition bind {A B} (m : M A) (k : A → M B) : M B :=
  λ s, match m s with
       | (Val a, s') => k a s'
       | (Exn e, s') => (Exn e, s')
       | (Diverge, s') => (Diverge, s')
       end.

(** [try: m except Exception as e: ...], as a value: the state reached when
    the exception was raised is kept. *)
Definition catch {A} (m : M A) : M (exc A) :=
  λ s, match m s with
       | (Val a, s') => (Val (Ok a), s')
       | (Exn e, s') => (Val (Raise e), s')
       | (Diverge, s') => (Diverge, s')
       end.

Definition get : M Agent := λ s, (Val s, s).

Definition modify (f : Agent → Agent) : M unit := λ s, (Val tt, f s).

Notation "'do' x <- m ;; k" := (bind m (λ x, k))
  (at level 10, x name, m at level 99, k at level 200).

Definition tick (s : Agent) : Agent :=
  mkAgent (max_sources s) (current_plan s) (completed_phases s)
          (all_findings s) (all_citations s) (execution_log s)
          (current_session_id s) (S (clock s)).

(** A call to a collaborator that does not raise. *)
Definition call {A} (f : nat → A) : M A :=
  λ s, (Val (f (clock s)), tick s).

(** A call to a collaborator that may raise. *)
Definition call_exc {A} (f : nat → exc A) : M A :=
  λ s, match f (clock s) with
       | Ok a => (Val a, tick s)
       | Raise e => (Exn e, tick s)
       end.

Definition set_current_plan (plan : option Plan) (s : Agent) : Agent :=
  mkAgent (max_sources s) plan (completed_phases s) (all_findings s)
          (all_citations s) (execution_log s) (current_session_id s) (clock s).

Definition append_completed (phase_id : string) (s : Agent) : Agent :=
  mkAgent (max_sources s) (current_plan s) (completed_phases s ++ [phase_id])
          (all_findings s) (all_citations s) (execution_log s)
          (current_session_id s) (clock s).

Definition append_finding (finding : Finding) (s : Agent) : Agent :=
  mkAgent (max_sources s) (current_plan s) (completed_phases s)
          (all_findings s ++ [finding]) (all_citations s) (execution_log s)
          (current_session_id s) (clock s).

Definition extend_citations (citations : list Citation) (s : Agent) : Agent :=
  mkAgent (max_sources s) (current_plan s) (completed_phases s)
          (all_findings s) (all_citations s ++ citations) (execution_log s)
          (current_session_id s) (clock s).

Definition append_log (entry : LogEntry) (s : Agent) : Agent :=
  mkAgent (max_sources s) (current_plan s) (completed_phases s)
          (all_findings s) (all_citations s) (execution_log s ++ [entry])
          (current_session_id s) (clock s).

Definition set_session_id (session_id : option string) (s : Agent) : Agent :=
  mkAgent (max_sources s) (current_plan s) (completed_phases s)
          (all_findings s) (all_citations s) (execution_log s)
          session_id (clock s).

(** [if self.current_session_id:] *)
Definition session_of (s : Agent) : option string :=
  match current_session_id s with
  | Some sid => if Py.nonempty sid then Some sid else None
  | None => None
  end.

Section WithWorld.
Variable w : World.

Definition _log_step (description : string) : M unit :=
  do now <- call (w_time w) ;;
  do s <- get ;;
  modify
    (append_log (mkLogEntry now description (length (completed_phases s)))).

(** *** Retriever.retrieve_from_sources *)

(** The de-duplication by url at the end of [retrieve_from_sources]. *)
Fixpoint unique_by_url (seen_urls : gset string) (results : list Document)
  : list Document :=
  match results with
  | [] => []
  | r :: rest =>
      if bool_decide (d_url r ≠ "" ∧ d_url r ∉ seen_urls)
      then r :: unique_by_url ({[d_url r]} ∪ seen_urls) rest
      else unique_by_url seen_urls rest
  end.

(** The searches for the terms, in order; [n] is [len(search_terms)]. *)
Fixpoint search_terms_loop (n : nat) (terms : list string)
    (source_types : list string) : M (list Document) :=
  match terms with
  | [] => ret []
  | term :: rest =>
      do s <- get ;;
      do web_results <-
        (if bool_decide ("web" ∈ source_types)
         then call (λ t, w_search_web w t term (max_sources s / Z.of_nat n)%Z)
         else ret []) ;;
      do arxiv_results <-
        (if bool_decide ("academic" ∈ source_types)
         then call (λ t, w_search_arxiv w t term)
         else ret []) ;;
      do more <- search_terms_loop n rest source_types ;;
      ret (web_results ++ arxiv_results ++ more)
  end.

(** A [null] list of search terms cannot be iterated. *)
Definition retrieve_from_sources (search_terms : option (list string))
    (source_types : list string) : M (list Document) :=
  match search_terms with
  | None => raise "'NoneType' object is not iterable"
  | Some terms =>
      do all_results <- search_terms_loop (length terms) terms source_types ;;
      ret (unique_by_url ∅ all_results)
  end.

(** *** The steps of a phase *)

(** [key_info.get('relevance_score', 0)] *)
Definition relevance (key_info : KeyInfo) : float :=
  default 0%float (ki_relevance_score key_info).

(** The body of [for doc in retrieved_docs], with its [try]: the two local
    lists go in and come out. *)
Definition process_document (phase_id : string) (doc : Document)
    (acc : list Finding * list Citation) : M (list Finding * list Citation) :=
  let '(phase_findings, phase_citations) := acc in
  do s <- get ;;
  match current_plan s with
  | None => ret acc
  | Some plan =>
      do extracted <-
        catch (call_exc (λ t, w_extract_key_information w t (d_content doc)
                                (research_goal plan))) ;;
      match extracted with
      | Raise _ => ret acc
      | Ok key_info =>
          do phase_findings <-
            (if (0.3 <? relevance key_info)%float
             then
               let finding :=
                 {| f_source_title := d_title doc;
                    f_source_url := d_url doc;
                    f_key_findings := ki_key_findings key_info;
                    f_relevant_facts := ki_relevant_facts key_info;
                    f_statistics := ki_statistics key_info;
                    f_conclusions := ki_conclusions key_info;
                    f_relevance_score := relevance key_info;
                    f_phase_id := phase_id |} in
               do _ <- modify (append_finding finding) ;;
               ret (phase_findings ++ [finding])
             else ret phase_findings) ;;
          do cited <-
            catch (call_exc (λ t, w_extract_citations_from_content w t doc)) ;;
          match cited with
          | Raise _ => ret (phase_findings, phase_citations)
          | Ok citations =>
              do _ <- modify (extend_citations citations) ;;
              ret (phase_findings, phase_citations ++ citations)
          end
      end
  end.

Fixpoint process_documents (phase_id : string) (docs : list Document)
    (acc : list Finding * list Citation) : M (list Finding * list Citation) :=
  match docs with
  | [] => ret acc
  | doc :: rest =>
      do acc <- process_document phase_id doc acc ;;
      process_documents phase_id rest acc
  end.

(** [len(set(f.get('source_title', '') for f in findings))] *)
Definition count_sources (findings : list Finding) : nat :=
  size (list_to_set (f_source_title <$> findings) : gset string).

Definition findings_text (findings : list Finding) : string :=
  Py.join (String Py.nl (String Py.nl EmptyString))
    ((λ finding,
        "Source: " +:+ f_source_title finding +:+ String Py.nl
        ("Key Findings: " +:+ Py.join "; " (f_key_findings finding)
         +:+ String Py.nl
         ("Facts: " +:+ Py.join "; " (f_relevant_facts finding)
          +:+ String Py.nl
          ("Statistics: " +:+ Py.join "; " (f_statistics finding)))))
       <$> take 5 findings).

Definition phase_synthesis_prompt (findings : list Finding) (phase : Phase)
  : string :=
  "
Synthesize the following research findings for the phase: " +:+ ph_title phase +:+ "

Phase Description: " +:+ ph_description phase +:+ "

Research Findings:
" +:+ findings_text findings +:+ "

Create a comprehensive synthesis that:
- Summarizes the key discoveries
- Identifies patterns and themes
- Highlights important statistics or facts
- Notes any contradictions or gaps
- Draws preliminary conclusions

Synthesis:
".

Definition _synthesize_phase_findings (findings : list Finding) (phase : Phase)
  : M string :=
  match findings with
  | [] => ret "No significant findings in this phase."
  | _ =>
      do synthesis <-
        catch (call_exc (λ t, w_generate_text w t
                                (phase_synthesis_prompt findings phase))) ;;
      match synthesis with
      | Ok text => ret text
      | Raise _ =>
          ret ("Phase completed with " +:+ Py.str_of_nat (length findings)
               +:+ " findings from " +:+ Py.str_of_nat (count_sources findings)
               +:+ " sources.")
      end
  end.

Definition _extract_new_insights (findings : list Finding) : list string :=
  take 5
    (concat
       ((λ finding,
           (if (0.8 <? f_relevance_score finding)%float
            then f_key_findings finding else [])
           ++ f_conclusions finding)
          <$> findings)).

Definition _execute_single_phase (phase : Phase) : M PhaseResult :=
  let phase_id := default "unknown" (ph_id phase) in
  let phase_title := ph_title phase in
  do _ <- _log_step ("Executing phase: " +:+ phase_title) ;;
  do retrieved_docs <-
    retrieve_from_sources (ph_search_terms phase) (ph_expected_sources phase) ;;
  match retrieved_docs with
  | [] => ret (PhaseFailed phase_id "No documents retrieved")
  | _ =>
      do stored_ids <- call (λ t, w_store_documents w t retrieved_docs) ;;
      do processed <- process_documents phase_id retrieved_docs ([], []) ;;
      let '(phase_findings, phase_citations) := processed in
      do phase_summary <- _synthesize_phase_findings phase_findings phase ;;
      do critique_result <-
        call (λ t, w_critique_phase_results w t phase phase_findings
                     phase_summary) ;;
      ret (PhaseDone phase_id phase_title (length retrieved_docs)
             (length stored_ids) phase_findings phase_citations phase_summary
             critique_result (_extract_new_insights phase_findings))
  end.

(** *** Re-planning *)

Definition _consider_plan_updates (new_insights : list string) : M unit :=
  match new_insights with
  | [] => ret tt
  | _ =>
      do s <- get ;;
      match current_plan s with
      | None => ret tt
      | Some plan =>
          do answer <-
            catch (call_exc (λ t, w_plan_updates w t plan new_insights
                                    (completed_phases s))) ;;
          do now <- call (w_now w) ;;
          let '(current, updated_plan) := update_plan plan answer now in
          if bool_decide (updated_plan ≠ current)
          then
            do _ <- modify (set_current_plan (Some updated_plan)) ;;
            _log_step "Plan updated based on new discoveries"
          else modify (set_current_plan (Some current))
      end
  end.

(** *** The phase loop *)

(** The [except] branch of the loop body: the failure is recorded;
    [next_phase['id']] raises when the phase has no id. *)
Definition record_failure (next_phase : Phase) (e : string)
    (phase_results : list PhaseResult) : M (list PhaseResult) :=
  match ph_id next_phase with
  | None => raise "'id'"
  | Some phase_id => ret (phase_results ++ [PhaseFailed phase_id e])
  end.

(** What follows [phase_results.append(result)] in the [try] block. *)
Definition complete_phase (next_phase : Phase) (result : PhaseResult) : M unit :=
  match ph_id next_phase with
  | None => raise "'id'"
  | Some phase_id =>
      do _ <- modify (append_completed phase_id) ;;
      do s <- get ;;
      do _ <-
        match session_of s with
        | Some sid =>
            do _ <- call_exc (λ t, w_save_research_phase w t sid result) ;;
            ret tt
        | None => ret tt
        end ;;
      _consider_plan_updates (get_new_insights result)
  end.

(** One turn of [while True]: [inl] is the [break], [inr] goes round again;
    both carry the local list [phase_results]. *)
Definition phase_iteration (phase_results : list PhaseResult)
  : M (list PhaseResult + list PhaseResult) :=
  do s <- get ;;
  match current_plan s with
  | None => raise "'NoneType' object has no attribute 'get'"
  | Some plan =>
      match get_next_phase plan (completed_phases s) with
      | None => ret (inl phase_results)
      | Some next_phase =>
          do executed <- catch (_execute_single_phase next_phase) ;;
          match executed with
          | Raise e =>
              do phase_results <- record_failure next_phase e phase_results ;;
              ret (inr phase_results)
          | Ok result =>
              let phase_results := phase_results ++ [result] in
              do completed <- catch (complete_phase next_phase result) ;;
              match completed with
              | Raise e =>
                  do phase_results <-
                    record_failure next_phase e phase_results ;;
                  ret (inr phase_results)
              | Ok _ => ret (inr phase_results)
              end
          end
      end
  end.

(** [while True], for at most [fuel] turns. *)
Fixpoint phase_loop (fuel : nat) (phase_results : list PhaseResult)
  : M (list PhaseResult) :=
  match fuel with
  | O => diverge
  | S fuel' =>
      do turn <- phase_iteration phase_results ;;
      match turn with
      | inl phase_results => ret phase_results
      | inr phase_results => phase_loop fuel' phase_results
      end
  end.

Definition _execute_phases (fuel : nat) : M (list PhaseResult) :=
  phase_loop fuel [].

(** *** Synthesis and final review *)

(** [themes[theme].append(finding)], creating the entry when it is new. *)
Fixpoint add_to_theme (theme : string) (finding : Finding)
    (themes : list (string * list Finding)) : list (string * list Finding) :=
  match themes with
  | [] => [(theme, [finding])]
  | (name, members) :: rest =>
      if String.eqb name theme then (name, members ++ [finding]) :: rest
      else (name, members) :: add_to_theme theme finding rest
  end.

(** The theme of a key finding: its first word of more than five characters. *)
Definition theme_of (key_finding : string) : option string :=
  head (filter (λ word, (5 < String.length word)%nat)
               (Py.words (Py.lower key_finding))).

Definition _group_findings_by_theme (findings : list Finding)
  : list (string * list Finding) :=
  fold_left
    (λ themes finding,
       fold_left
         (λ themes key_finding,
            match theme_of key_finding with
            | Some theme => add_to_theme theme finding themes
            | None => themes
            end)
         (f_key_findings finding) themes)
    findings [].

Definition overall_synthesis_prompt (goal : string) (findings : list Finding)
  : string :=
  "
Create a comprehensive synthesis of the research findings for the goal: " +:+ goal +:+ "

Key Findings Summary:
" +:+ Py.join (String Py.nl EmptyString)
        ((λ finding,
            "From " +:+ f_source_title finding +:+ ": "
            +:+ Py.join "; " (take 3 (f_key_findings finding)))
           <$> take 10 findings) +:+ "

Total sources analyzed: " +:+ Py.str_of_nat (count_sources findings) +:+ "

Create a synthesis that:
- Provides an executive summary of key discoveries
- Identifies major trends and patterns
- Highlights the most significant findings
- Addresses the original research goal
- Notes any limitations or gaps in the research

Synthesis:
".

(** [self.current_plan.get('research_goal', '')] *)
Definition plan_goal : M string :=
  do s <- get ;;
  match current_plan s with
  | None => raise "'NoneType' object has no attribute 'get'"
  | Some plan => ret (research_goal plan)
  end.

Definition _generate_overall_synthesis : M string :=
  do s <- get ;;
  do goal <- plan_goal ;;
  do answer <-
    catch (call_exc (λ t, w_generate_text w t
                            (overall_synthesis_prompt goal (all_findings s)))) ;;
  match answer with
  | Ok text => ret text
  | Raise _ =>
      ret ("Research completed with "
           +:+ Py.str_of_nat (length (all_findings s)) +:+ " findings from "
           +:+ Py.str_of_nat (count_sources (all_findings s))
           +:+ " unique sources.")
  end.

(** [list(set(conclusions))[:10]]; the order in which Python lists a set is
    not fixed, [elements] fixes one. *)
Definition _extract_key_conclusions (findings : list Finding) : list string :=
  take 10
    (elements (list_to_set (concat (f_conclusions <$> findings)) : gset string)).

Definition _synthesize_findings : M Synthesis :=
  do s <- get ;;
  match all_findings s with
  | [] => ret (mkSynthesis "No findings to synthesize" [] [] 0 0)
  | _ =>
      let thematic_groups := _group_findings_by_theme (all_findings s) in
      do overall_synthesis <- _generate_overall_synthesis ;;
      let key_conclusions := _extract_key_conclusions (all_findings s) in
      ret (mkSynthesis overall_synthesis thematic_groups key_conclusions
             (length (all_findings s)) (count_sources (all_findings s)))
  end.

Definition _final_quality_check : M SelfCritique.Review :=
  do goal <- plan_goal ;;
  do s <- get ;;
  let research_content :=
    SelfCritique.mkResearchContent goal (all_findings s) (all_citations s)
      (length (completed_phases s)) in
  do raised <- call (w_review_raises w) ;;
  ret (SelfCritique.final_quality_review research_content raised).

(** *** execute_research *)

(** The [try] block of [execute_research]. *)
Definition research (fuel : nat) (parsed_goal : GoalParser.Goal)
    (start_time : float) : M ResearchResult :=
  let goal := default "" (GoalParser.main_goal parsed_goal) in
  do session_id <- call_exc (λ t, w_create_research_session w t goal) ;;
  do _ <- modify (set_session_id (Some session_id)) ;;
  do _ <- _log_step "Creating execution plan" ;;
  do plan <- call_exc (λ t, w_create_execution_plan w t parsed_goal) ;;
  do _ <- modify (set_current_plan (Some plan)) ;;
  do _ <- _log_step "Beginning research phases" ;;
  do phase_results <- _execute_phases fuel ;;
  do _ <- _log_step "Synthesizing research findings" ;;
  do synthesis_results <- _synthesize_findings ;;
  do _ <- _log_step "Conducting final quality review" ;;
  do quality_results <- _final_quality_check ;;
  do end_time <- call (w_time w) ;;
  let execution_time := (end_time - start_time)%float in
  do s <- get ;;
  do _ <-
    match session_of s with
    | Some sid =>
        do _ <- call_exc (λ t, w_save_findings w t sid (all_findings s)) ;;
        do _ <- call_exc (λ t, w_save_citations w t sid (all_citations s)) ;;
        do _ <- call (λ t, w_update_session_status w t sid "completed") ;;
        ret tt
    | None => ret tt
    end ;;
  do s <- get ;;
  ret (ResearchSucceeded goal (current_plan s) phase_results synthesis_results
         quality_results (all_findings s) (all_citations s) (execution_log s)
         execution_time (current_session_id s)).

(** The [except] branch of [execute_research]. *)
Definition research_failed (e : string) : M ResearchResult :=
  do s <- get ;;
  do _ <-
    match session_of s with
    | Some sid =>
        do _ <- call (λ t, w_update_session_status w t sid "failed") ;;
        ret tt
    | None => ret tt
    end ;;
  do s <- get ;;
  ret (ResearchFailed e (execution_log s) (all_findings s) (all_citations s)
         (current_session_id s)).

Definition execute_research (fuel : nat) (parsed_goal : GoalParser.Goal)
  : M ResearchResult :=
  do start_time <- call (w_time w) ;;
  do outcome <- catch (research fuel parsed_goal start_time) ;;
  match outcome with
  | Ok results => ret results
  | Raise e => research_failed e
  end.

End WithWorld.

End ExecutionAgent.

(** * Part II: properties *)

(** ** Phase selection *)

Section Selection.
Import Planner.

(** A phase may run: it is not completed and all its dependencies are. *)
Definition eligible (completed : list string) (p : Phase) : Prop :=
  (get_id p ∉ completed) ∧ ∀ dep, dep ∈ ph_dependencies p → dep ∈ completed.

Lemma deps_satisfied_spec completed p :
  deps_satisfied completed p = true ↔
  ∀ dep, dep ∈ ph_dependencies p → dep ∈ completed.
Proof.
  unfold deps_satisfied. rewrite forallb_forall. split.
  - intros H dep Hin. apply list_elem_of_In in Hin.
    specialize (H dep Hin). by apply bool_decide_eq_true in H.
  - intros H dep Hin. apply bool_decide_eq_true, H. by apply list_elem_of_In.
Qed.

Lemma next_in_spec phases completed :
  match next_in phases completed with
  | Some p =>
      ∃ before after, phases = before ++ p :: after
        ∧ eligible completed p
        ∧ Forall (λ q, ¬ (eligible completed q)) before
  | None => Forall (λ q, ¬ (eligible completed q)) phases
  end.
Proof.
  induction phases as [|ph rest IH]; simpl; [constructor|].
  destruct (bool_decide (get_id ph ∈ completed)) eqn:Hdone.
  - apply bool_decide_eq_true in Hdone.
    assert (Hne : ¬ eligible completed ph) by (intros [Hn _]; auto).
    destruct (next_in rest completed) as [p|].
    + destruct IH as (before & after & -> & Hel & Hbefore).
      exists (ph :: before), after. repeat split; try apply Hel.
      by constructor.
    + by constructor.
  - apply bool_decide_eq_false in Hdone.
    destruct (deps_satisfied completed ph) eqn:Hdeps.
    + exists [], rest. repeat split; auto.
      by apply deps_satisfied_spec.
    + assert (Hne : ¬ eligible completed ph).
      { intros [_ Hd]. apply deps_satisfied_spec in Hd. congruence. }
      destruct (next_in rest completed) as [p|].
      * destruct IH as (before & after & -> & Hel & Hbefore).
        exists (ph :: before), after. repeat split; try apply Hel.
        by constructor.
      * by constructor.
Qed.

(** C1: [Planner.get_next_phase] returns the first phase, in the order of the
    plan's phase list, whose id is not completed and whose dependencies are
    all completed, and returns nothing exactly when no phase is eligible.  The
    result is a function of the plan and the completed list alone, and a
    selected phase never has a dependency outside the completed list. *)
Theorem get_next_phase_first_eligible (plan : Plan) (completed : list string) :
  match get_next_phase plan completed with
  | Some p =>
      (∃ before after, phases plan = before ++ p :: after
         ∧ Forall (λ q, ¬ (eligible completed q)) before)
      ∧ (get_id p ∉ completed)
      ∧ (∀ dep, dep ∈ ph_dependencies p → dep ∈ completed)
  | None => ∀ q, q ∈ phases plan → ¬ eligible completed q
  end.
Proof.
  unfold get_next_phase.
  pose proof (next_in_spec (phases plan) completed) as H.
  destruct (next_in (phases plan) completed) as [p|].
  - destruct H as (before & after & Heq & [Hid Hdeps] & Hbefore).
    split; [by exists before, after|]. by split.
  - intros q Hq. by eapply Forall_forall in H.
Qed.

End Selection.

(** ** The order of binary64 values *)

Section FloatOrder.
#[local] Set Warnings "-inexact-float".
#[local] Open Scope float_scope.

Lemma SFcompare_antisym x y :
  SFcompare y x = option_map CompOpp (SFcompare x y).
Proof.
  destruct x as [sx|sx| |sx mx ex], y as [sy|sy| |sy my ey];
    cbn [SFcompare option_map]; try reflexivity;
    try (destruct sx; reflexivity); try (destruct sy; reflexivity);
    try (destruct sx, sy; reflexivity).
  change (Pos.compare_cont Eq mx my) with (mx ?= my)%positive.
  change (Pos.compare_cont Eq my mx) with (my ?= mx)%positive.
  destruct sx, sy; cbn [CompOpp]; try reflexivity;
    rewrite (Z.compare_antisym ex ey); destruct (ex ?= ey)%Z;
    cbn [CompOpp]; try reflexivity;
    rewrite (Pos.compare_antisym mx my); destruct (mx ?= my)%positive;
    reflexivity.
Qed.

Lemma SFcompare_None x y :
  SFcompare x y = None → x = S754_nan ∨ y = S754_nan.
Proof. destruct x, y; cbn [SFcompare]; try discriminate; auto. Qed.

Lemma ltb_not_leb x y : (x <? y) = true → (y <=? x) = false.
Proof.
  rewrite ltb_spec, leb_spec. unfold SFltb, SFleb.
  rewrite (SFcompare_antisym (Prim2SF x) (Prim2SF y)).
  destruct (SFcompare (Prim2SF x) (Prim2SF y)) as [[]|]; cbn; congruence.
Qed.

Lemma leb_not_ltb x y : (x <=? y) = true → (y <? x) = false.
Proof.
  rewrite ltb_spec, leb_spec. unfold SFltb, SFleb.
  rewrite (SFcompare_antisym (Prim2SF x) (Prim2SF y)).
  destruct (SFcompare (Prim2SF x) (Prim2SF y)) as [[]|]; cbn; congruence.
Qed.

(** For [x] and [b] that are numbers, [not (b <= x)] is [x < b]. *)
Lemma not_leb_ltb a b x :
  (a <=? x) = true → (b <=? b) = true → (b <=? x) = false → (x <? b) = true.
Proof.
  rewrite ltb_spec, !leb_spec. unfold SFltb, SFleb.
  rewrite (SFcompare_antisym (Prim2SF b) (Prim2SF x)).
  intros Ha Hb.
  destruct (SFcompare (Prim2SF b) (Prim2SF x)) as [[]|] eqn:E; cbn; try congruence.
  intros _. apply SFcompare_None in E as [E|E]; rewrite E in *.
  - destruct (Prim2SF b); discriminate.
  - destruct (Prim2SF a); discriminate.
Qed.

Lemma SFleb_chain ma mb e x :
  (ma <= mb)%positive →
  SFleb (S754_finite false mb e) x = true →
  SFleb (S754_finite false ma e) x = true.
Proof.
  intros Hm. destruct x as [s|s| |s m0 e0]; unfold SFleb; cbn [SFcompare];
    try congruence.
  destruct s; try congruence.
  change (Pos.compare_cont Eq mb m0) with (mb ?= m0)%positive.
  change (Pos.compare_cont Eq ma m0) with (ma ?= m0)%positive.
  destruct (Z.compare_spec e e0); try congruence.
  destruct (Pos.compare_spec mb m0), (Pos.compare_spec ma m0);
    try congruence; lia.
Qed.

(** Thresholds in one binade: [a <= b] and [b <= x] give [a <= x]. *)
Lemma leb_chain a b x :
  match Prim2SF a, Prim2SF b with
  | S754_finite false ma ea, S754_finite false mb eb =>
      (ea =? eb)%Z && (ma <=? mb)%positive
  | _, _ => false
  end = true →
  (b <=? x) = true → (a <=? x) = true.
Proof.
  rewrite !leb_spec.
  destruct (Prim2SF a) as [| | |[] ma ea]; try discriminate.
  destruct (Prim2SF b) as [| | |[] mb eb]; try discriminate.
  intros H. apply andb_prop in H as [He Hm].
  apply Z.eqb_eq in He. subst. apply Pos.leb_le in Hm.
  by apply SFleb_chain.
Qed.

End FloatOrder.

(** ** Grades and approval *)

Section Grades.
Import SelfCritique.
#[local] Set Warnings "-inexact-float".
#[local] Open Scope float_scope.

Lemma grade_cases s :
  _assign_quality_grade s =
    if 0.9 <=? s then "A"%string
    else if 0.8 <=? s then "B"%string
    else if 0.7 <=? s then "C"%string
    else if 0.6 <=? s then "D"%string
    else "F"%string.
Proof. reflexivity. Qed.

Lemma leb_09_08 s : (0.9 <=? s) = true → (0.8 <=? s) = true.
Proof. apply leb_chain. reflexivity. Qed.
Lemma leb_08_07 s : (0.8 <=? s) = true → (0.7 <=? s) = true.
Proof. apply leb_chain. reflexivity. Qed.
Lemma leb_07_06 s : (0.7 <=? s) = true → (0.6 <=? s) = true.
Proof. apply leb_chain. reflexivity. Qed.

Lemma grade_band (lo hi : float) s :
  (hi <=? hi) = true →
  ((hi <=? s) = false ∧ (lo <=? s) = true) ↔ ((lo <=? s) = true ∧ (s <? hi) = true).
Proof.
  intros Hhi. split.
  - intros [Hn Hl]. split; [done|]. by eapply not_leb_ltb.
  - intros [Hl Hlt]. split; [|done]. by apply ltb_not_leb.
Qed.

Lemma grade_F s : _assign_quality_grade s = "F"%string ↔ (0.6 <=? s) = false.
Proof.
  rewrite grade_cases. split.
  - destruct (0.9 <=? s), (0.8 <=? s), (0.7 <=? s), (0.6 <=? s); done.
  - intros H6.
    destruct (0.7 <=? s) eqn:H7; [apply leb_07_06 in H7; congruence|].
    destruct (0.8 <=? s) eqn:H8; [apply leb_08_07 in H8; congruence|].
    destruct (0.9 <=? s) eqn:H9; [apply leb_09_08 in H9; congruence|].
    by rewrite H6.
Qed.

Lemma grade_A s : _assign_quality_grade s = "A"%string ↔ (0.9 <=? s) = true.
Proof.
  rewrite grade_cases.
  destruct (0.9 <=? s), (0.8 <=? s), (0.7 <=? s), (0.6 <=? s); done.
Qed.

Lemma grade_B s :
  _assign_quality_grade s = "B"%string ↔ (0.8 <=? s) = true ∧ (s <? 0.9) = true.
Proof.
  rewrite <- (grade_band 0.8 0.9) by done. rewrite grade_cases.
  destruct (0.9 <=? s), (0.8 <=? s), (0.7 <=? s), (0.6 <=? s); intuition congruence.
Qed.

Lemma grade_C s :
  _assign_quality_grade s = "C"%string ↔ (0.7 <=? s) = true ∧ (s <? 0.8) = true.
Proof.
  rewrite <- (grade_band 0.7 0.8) by done. rewrite grade_cases.
  destruct (0.9 <=? s) eqn:H9; [apply leb_09_08 in H9; rewrite H9; intuition congruence|].
  destruct (0.8 <=? s), (0.7 <=? s), (0.6 <=? s); intuition congruence.
Qed.

Lemma grade_D s :
  _assign_quality_grade s = "D"%string ↔ (0.6 <=? s) = true ∧ (s <? 0.7) = true.
Proof.
  rewrite <- (grade_band 0.6 0.7) by done. rewrite grade_cases.
  destruct (0.9 <=? s) eqn:H9;
    [apply leb_09_08 in H9 as H8; apply leb_08_07 in H8 as H7;
     rewrite H7; intuition congruence|].
  destruct (0.8 <=? s) eqn:H8; [apply leb_08_07 in H8; rewrite H8; intuition congruence|].
  destruct (0.7 <=? s), (0.6 <=? s); intuition congruence.
Qed.

Lemma approval_iff content raised :
  let r := final_quality_review content raised in
  (approval_status r = "approved"%string ↔ (0.7 <=? overall_score r) = true)
  ∧ (approval_status r = "needs_revision"%string
     ↔ (0.7 <=? overall_score r) = false).
Proof.
  destruct raised as [e|]; cbn.
  - split; split; done.
  - destruct (0.7 <=? _); split; split; done.
Qed.

(** C4: the grade is a total function of the score alone, with the bands
    [>= 0.9] A, [>= 0.8] B, [>= 0.7] C, [>= 0.6] D and F otherwise (in
    particular below 0.6); a score on a boundary gets the higher grade; and
    the final review is approved exactly when its overall score is at least
    0.7, and needs revision otherwise. *)
Theorem grade_mapping_and_approval :
  (∀ s, _assign_quality_grade s = "A"%string ↔ (0.9 <=? s) = true)
  ∧ (∀ s, _assign_quality_grade s = "B"%string
          ↔ (0.8 <=? s) = true ∧ (s <? 0.9) = true)
  ∧ (∀ s, _assign_quality_grade s = "C"%string
          ↔ (0.7 <=? s) = true ∧ (s <? 0.8) = true)
  ∧ (∀ s, _assign_quality_grade s = "D"%string
          ↔ (0.6 <=? s) = true ∧ (s <? 0.7) = true)
  ∧ (∀ s, _assign_quality_grade s = "F"%string ↔ (0.6 <=? s) = false)
  ∧ (∀ s, (s <? 0.6) = true → _assign_quality_grade s = "F"%string)
  ∧ (_assign_quality_grade 0.9 = "A"%string
     ∧ _assign_quality_grade 0.8 = "B"%string
     ∧ _assign_quality_grade 0.7 = "C"%string
     ∧ _assign_quality_grade 0.6 = "D"%string)
  ∧ (∀ content raised,
       let r := final_quality_review content raised in
       (approval_status r = "approved"%string ↔ (0.7 <=? overall_score r) = true)
       ∧ (approval_status r = "needs_revision"%string
          ↔ (0.7 <=? overall_score r) = false)).
Proof.
  split_and!; try reflexivity;
    auto using grade_A, grade_B, grade_C, grade_D, grade_F.
  - intros s Hlt. apply grade_F. by apply ltb_not_leb.
  - intros content raised. apply approval_iff.
Qed.

End Grades.

(** ** Retry with backoff *)

Section Backoff.
Import RateLimiter.
#[local] Open Scope nat_scope.
Context {A : Type}.
Variable self : RateLimiter.
Variable func : nat → exc A.

(** What every sleep of a run looks like, counted from the first attempt
    [attempt] of the remaining iterations. *)
Definition sleep_ok (attempt : nat) (i : nat) (s : Sleep) : Prop :=
  sl_attempt s = attempt + i
  ∧ func (attempt + i) = Raise (sl_error s)
  ∧ is_rate_limit_error (sl_error s) = true
  ∧ (0 <= sl_wait_time s)%Q
  ∧ sl_wait_time s =
      match provider_delay (sl_error s) with
      | Some w => (w + (1 # 2))%Q
      | None => (base_delay self * inject_Z (2 ^ Z.of_nat (attempt + i)))%Q
      end.

Lemma attempts_calls remaining attempt :
  calls (attempts self func remaining attempt) ≤ remaining.
Proof.
  revert attempt. induction remaining as [|n IH]; intros attempt; cbn; [lia|].
  destruct (func attempt) as [a|e]; cbn; [lia|].
  destruct (is_rate_limit_error e); cbn; [|lia].
  destruct (Z.of_nat attempt <? max_retries self)%Z; cbn; [|lia].
  destruct (Qle_bool 0 _); cbn; [|lia].
  specialize (IH (S attempt)). lia.
Qed.

Lemma attempts_sleeps remaining attempt i s :
  sleeps (attempts self func remaining attempt) !! i = Some s →
  sleep_ok attempt i s.
Proof.
  revert attempt i. induction remaining as [|n IH]; intros attempt i; cbn;
    [done|].
  destruct (func attempt) as [a|e] eqn:Hf; cbn; [done|].
  destruct (is_rate_limit_error e) eqn:Hrl; cbn; [|done].
  destruct (Z.of_nat attempt <? max_retries self)%Z; cbn; [|done].
  destruct (Qle_bool 0 _) eqn:Hle; cbn; [|done].
  destruct i as [|i]; cbn.
  - intros [= <-]. unfold sleep_ok; cbn. rewrite Nat.add_0_r.
    split_and!; try done; [by apply Qle_bool_iff|].
    unfold _extract_wait_time, provider_delay.
    by destruct (search_wait e).
  - intros Hs. apply IH in Hs. unfold sleep_ok in *.
    by replace (attempt + S i) with (S attempt + i) by lia.
Qed.

Lemma attempts_no_retry remaining attempt k e :
  k < calls (attempts self func remaining attempt) →
  func (attempt + k) = Raise e →
  is_rate_limit_error e = false →
  calls (attempts self func remaining attempt) = S k
  ∧ outcome (attempts self func remaining attempt) = Raised e
  ∧ length (sleeps (attempts self func remaining attempt)) = k.
Proof.
  revert attempt k. induction remaining as [|n IH]; intros attempt k; cbn;
    [lia|].
  destruct k as [|k].
  - rewrite Nat.add_0_r. intros _ Hf Hrl. by rewrite Hf, Hrl.
  - destruct (func attempt) as [a|e0] eqn:Hf0; cbn; [lia|].
    destruct (is_rate_limit_error e0) eqn:Hrl0; cbn; [|lia].
    destruct (Z.of_nat attempt <? max_retries self)%Z; cbn; [|lia].
    destruct (Qle_bool 0 _) eqn:Hle; cbn; [|lia].
    intros Hk Hf Hrl.
    replace (attempt + S k) with (S attempt + k) in Hf by lia.
    destruct (IH (S attempt) k ltac:(lia) Hf Hrl) as (-> & -> & ->). done.
Qed.

Lemma backoff_monotone (b : Q) (i j : nat) :
  i ≤ j →
  (0 <= b * inject_Z (2 ^ Z.of_nat i))%Q →
  (b * inject_Z (2 ^ Z.of_nat i) <= b * inject_Z (2 ^ Z.of_nat j))%Q.
Proof.
  intros Hij H0.
  assert (Hpi : (0 < 2 ^ Z.of_nat i)%Z) by (apply Z.pow_pos_nonneg; lia).
  assert (Hle : (2 ^ Z.of_nat i <= 2 ^ Z.of_nat j)%Z)
    by (apply Z.pow_le_mono_r; lia).
  destruct b as [n d]. unfold Qle, Qmult, inject_Z in *. cbn in *.
  nia.
Qed.

(** C5 (as amended): a wrapped call is tried at most [max_retries + 1] times
    (not at all when that number is not positive); every sleep between two
    attempts follows a rate-limit error and lasts the delay stated in the
    error message plus the half-second buffer when the message states one,
    and [base_delay * 2^attempt] otherwise; of two sleeps of the second kind
    the later one is not shorter; and an attempt that raises an error that
    is not a rate-limit error is the last one, its error is what the call
    raises, and no sleep follows it. *)
Theorem backoff_attempts_and_delays :
  let r := call_with_backoff self func in
  calls r ≤ Z.to_nat (max_retries self + 1)
  ∧ (∀ i s, sleeps r !! i = Some s →
       sl_attempt s = i
       ∧ func i = Raise (sl_error s)
       ∧ is_rate_limit_error (sl_error s) = true
       ∧ sl_wait_time s =
           match provider_delay (sl_error s) with
           | Some w => (w + (1 # 2))%Q
           | None => (base_delay self * inject_Z (2 ^ Z.of_nat i))%Q
           end)
  ∧ (∀ i j s t, i ≤ j →
       sleeps r !! i = Some s → sleeps r !! j = Some t →
       provider_delay (sl_error s) = None →
       provider_delay (sl_error t) = None →
       (sl_wait_time s <= sl_wait_time t)%Q)
  ∧ (∀ k e, k < calls r → func k = Raise e →
       is_rate_limit_error e = false →
       calls r = S k ∧ outcome r = Raised e ∧ length (sleeps r) = k).
Proof.
  unfold call_with_backoff. cbv zeta. split_and!.
  - apply attempts_calls.
  - intros i s Hs. apply attempts_sleeps in Hs as (? & ? & ? & ? & ?).
    by split_and!.
  - intros i j s t Hij Hs Ht Hps Hpt.
    apply attempts_sleeps in Hs as (_ & _ & _ & H0 & Hws).
    apply attempts_sleeps in Ht as (_ & _ & _ & _ & Hwt).
    rewrite Hps in Hws. rewrite Hpt in Hwt. cbn in Hws, Hwt.
    rewrite Hws in H0 |- *. rewrite Hwt. by apply backoff_monotone.
  - intros k e Hk Hf Hrl. by apply (attempts_no_retry _ 0 k e).
Qed.

End Backoff.

(** C5, the claim as first stated: a delay stated by the provider is not the
    delay slept; with the message "... try again in 2s" the limiter sleeps
    two and a half seconds. *)
Lemma provider_delay_gets_buffer :
  let msg := "rate_limit_exceeded: Please try again in 2s" in
  let r := RateLimiter.call_with_backoff
             (RateLimiter.mkRateLimiter 3 2)
             (fun k => match k with O => Raise msg | _ => Ok k end) in
  RateLimiter.provider_delay msg = Some (2 # 1)%Q
  ∧ RateLimiter.sleeps r = [RateLimiter.mkSleep 0 msg (5 # 2)]
  ∧ RateLimiter.outcome r = RateLimiter.Returned 1
  ∧ ¬ (5 # 2 == 2 # 1)%Q.
Proof. split_and!; try reflexivity. intros H. discriminate H. Qed.

(** ** Goal decomposition *)

Section GoalDecomposition.
Import GoalParser.
#[local] Open Scope nat_scope.

Lemma take_nonempty {X} (n : nat) (l : list X) : l ≠ [] → take (S n) l ≠ [].
Proof. by destruct l. Qed.

Lemma generate_search_terms_nonempty description :
  _generate_search_terms description ≠ [].
Proof.
  unfold _generate_search_terms.
  destruct (negb (Py.nonempty description)); [done|].
  destruct (Py.fromkeys _) as [|k ks] eqn:Hk.
  - destruct (Py.contains "morocco" _); [done|].
    destruct (Py.contains_any _ _); [|done].
    match goal with
    | |- match ?l with [] => _ | _ :: _ => _ end ≠ [] =>
        destruct l as [|w ws]; [done|]
    end.
    intros H. by apply app_eq_nil in H as [_ ?].
  - done.
Qed.

(** A subgoal that carries at least one search term. *)
Definition has_search_terms (sg : Subgoal) : Prop :=
  ∃ terms, sg_search_terms sg = Some terms ∧ terms ≠ [].

Lemma enhance_subgoal_has_terms i sg : has_search_terms (enhance_subgoal i sg).
Proof.
  unfold has_search_terms, enhance_subgoal; cbn.
  destruct (sg_search_terms sg) as [[|t ts]|]; eexists; split; try reflexivity;
    try done; apply generate_search_terms_nonempty.
Qed.

Lemma validate_has_terms env parsed goal :
  Forall has_search_terms (get_subgoals (_validate_and_enhance env parsed goal)).
Proof.
  unfold get_subgoals, _validate_and_enhance; cbn.
  apply Forall_forall. intros sg Hin.
  apply list_elem_of_lookup in Hin as [i Hi].
  rewrite list_lookup_imap in Hi.
  destruct (default [] (subgoals parsed) !! i) as [sg0|]; [|done].
  cbn in Hi. injection Hi as <-. apply enhance_subgoal_has_terms.
Qed.

(** The lines of an answer that open a subgoal in [_manual_parse]. *)
Definition opens_subgoal (line : string) : bool :=
  let line := Py.strip line in
  Py.nonempty line
  && negb (Py.contains_any ["main goal"; "objective"; "research goal"] (Py.lower line))
  && Py.contains_any ["subtask"; "subgoal"; "task"] (Py.lower line).

(** Subgoals collected so far, the one being filled included. *)
Definition collected (st : ManualState) : nat :=
  length (ms_subgoals st)
  + match ms_current_subgoal st with Some _ => 1 | None => 0 end.

Lemma manual_step_collected st line :
  collected (manual_step st line)
  = collected st + (if opens_subgoal line then 1 else 0).
Proof.
  unfold manual_step, opens_subgoal, collected.
  destruct (Py.nonempty (Py.strip line)),
    (Py.contains_any ["main goal"; "objective"; "research goal"]
       (Py.lower (Py.strip line))),
    (Py.contains_any ["subtask"; "subgoal"; "task"] (Py.lower (Py.strip line))),
    (ms_current_subgoal st) eqn:Hc, (ms_in_subgoal st);
    cbn; rewrite ?Hc; cbn; rewrite ?length_app; cbn; lia.
Qed.

Lemma manual_fold_collected lines st :
  collected (fold_left manual_step lines st)
  = collected st + length (filter (λ l, opens_subgoal l = true) lines).
Proof.
  revert st. induction lines as [|l ls IH]; intros st; [cbn; lia|].
  cbn [fold_left]. rewrite IH, manual_step_collected, filter_cons.
  destruct (opens_subgoal l) eqn:Ho.
  - rewrite decide_True by done. cbn [length]. lia.
  - rewrite decide_False by done. lia.
Qed.

Lemma manual_parse_subgoals response :
  length (get_subgoals (_manual_parse response))
  = length (filter (λ l, opens_subgoal l = true) (Py.split Py.nl response)).
Proof.
  unfold _manual_parse, get_subgoals; cbn.
  pose proof (manual_fold_collected (Py.split Py.nl response)
                (mkManualState "" [] None false)) as H.
  unfold collected in H at 1. cbn in H.
  destruct (ms_current_subgoal _); rewrite ?length_app; cbn; lia.
Qed.

(** C7 (as amended): whatever the goal text and whatever the model answers,
    every subgoal of the parser's output has a non-empty list of search
    terms; when the generation call raises, the output is the fallback with
    exactly one subgoal, whose search terms are the (non-empty) keywords of
    the goal text; and an answer in which no JSON object is found yields one
    subgoal per line that opens one, so possibly none. *)
Theorem parse_goal_search_terms (env : Env) (goal : string) :
  let g := parse_goal env goal in
  Forall has_search_terms (get_subgoals g)
  ∧ (∀ e, generate_text env (_create_parsing_prompt goal) = Raise e →
       ∃ sg, get_subgoals g = [sg]
         ∧ sg_search_terms sg = Some (_generate_search_terms goal)
         ∧ _generate_search_terms goal ≠ [])
  ∧ (∀ response,
       generate_text env (_create_parsing_prompt goal) = Ok response →
       search_json response = None →
       length (get_subgoals g)
       = length (filter (λ l, opens_subgoal l = true) (Py.split Py.nl response))).
Proof.
  cbv zeta. unfold parse_goal. split_and!.
  - destruct (generate_text env _) as [response|e].
    + apply validate_has_terms.
    + cbn. constructor; [|constructor]. eexists. split; [done|].
      apply generate_search_terms_nonempty.
  - intros e ->. eexists. split_and!; [done|done|].
    apply generate_search_terms_nonempty.
  - intros response -> Hnone.
    unfold _extract_structured_goal. rewrite Hnone.
    rewrite <- manual_parse_subgoals.
    unfold get_subgoals, _validate_and_enhance; cbn.
    by rewrite length_imap.
Qed.

End GoalDecomposition.

(** C7, the claim as first stated: an answer that is not JSON and has no
    line naming a task gives a goal without any subgoal. *)
Lemma unparseable_answer_without_subgoal :
  let goal := "Impact of AI on healthcare diagnostics in 2023-2024" in
  let env := GoalParser.mkEnv (fun _ => Ok "I cannot answer that.")
                              (fun _ => Raise "JSONDecodeError")
                              "2024-01-01T00:00:00" in
  GoalParser.search_json "I cannot answer that." = None
  ∧ GoalParser.get_subgoals (GoalParser.parse_goal env goal) = []
  ∧ GoalParser.total_subgoals (GoalParser.parse_goal env goal) = Some 0%nat.
Proof. by vm_compute. Qed.

(** ** The extractor of the emergency mode *)

Section Emergency.
Import EmergencyMode.

(** C9: on the document "the study found that X increased by 20%" the
    emergency extractor finds the key finding but no statistic: cleaning the
    text removes the percent sign before the statistics pattern is tried. *)
Theorem emergency_extractor_loses_percent (source_metadata : SourceMetadata) :
  let content := "the study found that X increased by 20%" in
  let info := extract_key_information content source_metadata in
  _clean_text content = "the study found that X increased by 20"
  ∧ key_findings info = ["the study found that X increased by 20"]
  ∧ statistics info = [].
Proof. by vm_compute. Qed.

End Emergency.

(** ** The bibliography *)

Section Bibliography.
Import CitationEngine.

Lemma lower_empty s : Py.lower s = "" ↔ s = "".
Proof. by destruct s. Qed.

Lemma nonempty_true s : Py.nonempty s = true ↔ s ≠ "".
Proof. by destruct s. Qed.

Lemma append_nonempty_l s t : s ≠ "" → s +:+ t ≠ "".
Proof. by destruct s. Qed.

Lemma append_nonempty_r s t : t ≠ "" → s +:+ t ≠ "".
Proof. by destruct s, t. Qed.

(** Joining with a separator gives the empty string only for no part or for a
    single empty part. *)
Lemma join_nonempty sep parts p :
  sep ≠ "" → p ∈ parts → p ≠ "" → Py.join sep parts ≠ "".
Proof.
  intros Hsep Hin Hp. destruct parts as [|q [|q' rest]].
  - by apply elem_of_nil in Hin.
  - apply list_elem_of_singleton in Hin as ->. done.
  - cbn [Py.join]. apply append_nonempty_r. by apply append_nonempty_l.
Qed.

Lemma format_with_url env c : c_url c ≠ "" → format_citation env c ≠ "".
Proof.
  intros Hu. pose proof (proj2 (nonempty_true _) Hu) as Hu'.
  assert (Hapa : _format_apa_citation c ≠ "").
  { unfold _format_apa_citation.
    apply (join_nonempty _ _ ("Retrieved from " +:+ c_url c)); [done| |done].
    rewrite Hu'. set_solver. }
  unfold format_citation. repeat case_match; try done.
  - unfold _format_mla_citation.
    apply (join_nonempty _ _ ("Web. " +:+ today_mla env +:+ ".")); [done| |done].
    rewrite Hu'. set_solver.
  - unfold _format_chicago_citation.
    apply (join_nonempty _ _
             ("Accessed " +:+ today_chicago env +:+ ". " +:+ c_url c +:+ "."));
      [done| |done].
    rewrite Hu'. set_solver.
Qed.

Lemma format_with_title env c : c_title c ≠ "" → format_citation env c ≠ "".
Proof.
  intros Ht. pose proof (proj2 (nonempty_true _) Ht) as Ht'.
  assert (Hapa : _format_apa_citation c ≠ "").
  { unfold _format_apa_citation.
    apply (join_nonempty _ _ (c_title c +:+ ".")); [done| |].
    - rewrite Ht'. set_solver.
    - by apply append_nonempty_l. }
  unfold format_citation. repeat case_match; try done.
  - unfold _format_mla_citation.
    apply (join_nonempty _ _ (Py.dquote +:+ c_title c +:+ "." +:+ Py.dquote));
      [done| |done].
    rewrite Ht'. set_solver.
  - unfold _format_chicago_citation.
    apply (join_nonempty _ _ (Py.dquote +:+ c_title c +:+ "." +:+ Py.dquote));
      [done| |done].
    rewrite Ht'. set_solver.
Qed.

(** The scenario: [a1] and [a2] share a url that is stated and differ in
    content; [b1] and [b2] have different urls and share a lower-cased title
    that is stated; across the two pairs urls and titles are distinct. *)
Record scenario (a1 a2 b1 b2 : Citation) : Prop := mkScenario {
  same_url : c_url a1 = c_url a2;
  url_stated : c_url a1 ≠ "";
  contents_differ : c_content a1 ≠ c_content a2;
  same_title : Py.lower (c_title b1) = Py.lower (c_title b2);
  title_stated : c_title b1 ≠ "";
  urls_differ : c_url b1 ≠ c_url b2;
  url_apart_1 : c_url b1 ≠ c_url a1;
  url_apart_2 : c_url b2 ≠ c_url a1;
  title_apart_1 : Py.lower (c_title a1) ≠ Py.lower (c_title b1);
  title_apart_2 : Py.lower (c_title a2) ≠ Py.lower (c_title b1)
}.

Lemma seen_before_spec key seen :
  seen_before key seen = true ↔ key ≠ "" ∧ key ∈ seen.
Proof. unfold seen_before. apply bool_decide_eq_true. Qed.

Lemma elem_of_remember x key seen :
  x ∈ remember key seen ↔ (key ≠ "" ∧ x = key) ∨ x ∈ seen.
Proof.
  unfold remember. case_bool_decide; set_solver.
Qed.

Lemma dedup_from_drop seen_urls seen_titles c rest :
  (c_url c ≠ "" ∧ c_url c ∈ seen_urls)
  ∨ (Py.lower (c_title c) ≠ "" ∧ Py.lower (c_title c) ∈ seen_titles) →
  dedup_from seen_urls seen_titles (c :: rest)
  = dedup_from seen_urls seen_titles rest.
Proof.
  intros H. cbn [dedup_from].
  destruct (seen_before (c_url c) seen_urls) eqn:Eu; [done|].
  destruct (seen_before (Py.lower (c_title c)) seen_titles) eqn:Et; [done|].
  apply not_true_iff_false in Eu, Et. rewrite seen_before_spec in Eu, Et.
  tauto.
Qed.

Lemma dedup_from_keep seen_urls seen_titles c rest :
  ¬ (c_url c ≠ "" ∧ c_url c ∈ seen_urls) →
  ¬ (Py.lower (c_title c) ≠ "" ∧ Py.lower (c_title c) ∈ seen_titles) →
  dedup_from seen_urls seen_titles (c :: rest)
  = c :: dedup_from (remember (c_url c) seen_urls)
                    (remember (Py.lower (c_title c)) seen_titles) rest.
Proof.
  intros Hu Ht. cbn [dedup_from].
  rewrite <- seen_before_spec in Hu, Ht.
  apply not_true_iff_false in Hu, Ht. by rewrite Hu, Ht.
Qed.

(** [key] is one of the remembered keys. *)
Ltac remembered :=
  rewrite elem_of_remember; first [left; split; congruence | right; remembered].

(** The citation at the head of the list repeats a url or a title. *)
Ltac repeats :=
  solve [left; split; [congruence|remembered]
        |right; split; [congruence|remembered]].

(** The key of the citation at the head of the list was not seen. *)
Ltac fresh_key :=
  let Hin := fresh "Hin" in
  intros [_ Hin];
  repeat (apply elem_of_remember in Hin as [[_ ?]|Hin]; [congruence|]);
  by apply elem_of_empty in Hin.

(** One iteration of the loop. *)
Ltac dedup_step :=
  first [rewrite dedup_from_drop by repeats
        |rewrite dedup_from_keep by fresh_key].

Lemma dedup_scenario a1 a2 b1 b2 l :
  scenario a1 a2 b1 b2 → l ≡ₚ [a1; a2; b1; b2] →
  ∃ x y, x ∈ [a1; a2] ∧ y ∈ [b1; b2]
    ∧ (_deduplicate_citations l = [x; y] ∨ _deduplicate_citations l = [y; x]).
Proof.
  intros [Hu Hus _ Ht Hts Hud Hx1 Hx2 Hy1 Hy2] Hperm.
  assert (Hts' : Py.lower (c_title b1) ≠ "") by (by rewrite lower_empty).
  symmetry in Hperm. apply permutations_Permutation in Hperm.
  unfold _deduplicate_citations.
  cbn in Hperm.
  repeat (apply elem_of_cons in Hperm as [->|Hperm]);
    [..|by apply elem_of_nil in Hperm].
  all: do 4 dedup_step; cbn [dedup_from].
  all: first
    [ solve [exists a1, b1; split_and!;
             [set_solver|set_solver|first [by left|by right]]]
    | solve [exists a1, b2; split_and!;
             [set_solver|set_solver|first [by left|by right]]]
    | solve [exists a2, b1; split_and!;
             [set_solver|set_solver|first [by left|by right]]]
    | solve [exists a2, b2; split_and!;
             [set_solver|set_solver|first [by left|by right]]] ].
Qed.

Lemma sorted_two x y :
  sorted_by_title [x; y] = [x; y] ∨ sorted_by_title [x; y] = [y; x].
Proof.
  unfold sorted_by_title. cbn.
  destruct (String.leb (sort_key x) (sort_key y)); auto.
Qed.

Lemma formatted_two env p q :
  format_citation env p ≠ "" → format_citation env q ≠ "" →
  filter (λ formatted, Py.nonempty formatted = true)
         (format_citation env <$> [p; q])
  = [format_citation env p; format_citation env q].
Proof.
  intros Hp Hq. apply nonempty_true in Hp, Hq. cbn [fmap list_fmap].
  rewrite filter_cons, decide_True by done.
  rewrite filter_cons, decide_True by done. done.
Qed.

(** C10 (as amended): take two citations with the same non-empty url and
    different content, and two citations with different urls and the same
    non-empty lower-cased title, urls and titles being distinct across the two
    pairs.  In whatever order the four are listed, the bibliography has
    exactly two numbered entries, one citation of each pair. *)
Theorem bibliography_two_entries (env : Env) (a1 a2 b1 b2 : Citation)
    (l : list Citation) :
  scenario a1 a2 b1 b2 → l ≡ₚ [a1; a2; b1; b2] →
  ∃ x y first second,
    x ∈ [a1; a2] ∧ y ∈ [b1; b2]
    ∧ ([first; second] = [x; y] ∨ [first; second] = [y; x])
    ∧ formatted_citations env l
      = [format_citation env first; format_citation env second]
    ∧ create_bibliography env l
      = (header env +:+ entry 1 (format_citation env first))
        +:+ entry 2 (format_citation env second).
Proof.
  intros Hs Hperm.
  destruct (dedup_scenario a1 a2 b1 b2 l Hs Hperm) as (x & y & Hx & Hy & Hd).
  destruct Hs as [Hu Hus _ Ht Hts _ _ _ _ _].
  assert (Hfx : format_citation env x ≠ "").
  { apply format_with_url.
    apply elem_of_cons in Hx as [->|Hx]; [done|].
    apply list_elem_of_singleton in Hx as ->. congruence. }
  assert (Hfy : format_citation env y ≠ "").
  { apply format_with_title.
    apply elem_of_cons in Hy as [->|Hy]; [done|].
    apply list_elem_of_singleton in Hy as ->.
    rewrite <- lower_empty, <- Ht. by rewrite lower_empty. }
  assert (Hsorted : ∃ first second,
             ([first; second] = [x; y] ∨ [first; second] = [y; x])
             ∧ sorted_by_title (_deduplicate_citations l) = [first; second]).
  { destruct Hd as [-> | ->].
    - destruct (sorted_two x y) as [-> | ->]; eauto.
    - destruct (sorted_two y x) as [-> | ->]; eauto. }
  destruct Hsorted as (first & second & Hfs & Hsorted).
  assert (Hff : format_citation env first ≠ "" ∧ format_citation env second ≠ "").
  { destruct Hfs as [[= -> ->]|[= -> ->]]; auto. }
  destruct Hff as [Hf1 Hf2].
  exists x, y, first, second. split_and!; try done.
  - unfold formatted_citations. rewrite Hsorted. by apply formatted_two.
  - unfold create_bibliography, formatted_citations.
    rewrite Hsorted, formatted_two by done. reflexivity.
Qed.

End Bibliography.

(** Four citations of the scenario, with their environment. *)
Definition sample_env : CitationEngine.Env :=
  CitationEngine.mkEnv "apa" (λ _, "example.org") "03 Nov 2026" "November 03, 2026".

Definition sample_citation (title url content : string) : Citation :=
  mkCitation "claim" title url ["Ann"; "Bob"] "2024-01-01" "web" content "" "" "".

Lemma bibliography_two_entries_witness :
  let a1 := sample_citation "Zeta" "http://a" "x" in
  let a2 := sample_citation "Other" "http://a" "y" in
  let b1 := sample_citation "Same Title" "http://b" "z" in
  let b2 := sample_citation "same title" "http://c" "w" in
  scenario a1 a2 b1 b2
  ∧ ∃ x y first second,
      x ∈ [a1; a2] ∧ y ∈ [b1; b2]
      ∧ ([first; second] = [x; y] ∨ [first; second] = [y; x])
      ∧ CitationEngine.formatted_citations sample_env [b2; a1; b1; a2]
        = [CitationEngine.format_citation sample_env first;
           CitationEngine.format_citation sample_env second]
      ∧ CitationEngine.create_bibliography sample_env [b2; a1; b1; a2]
        = (CitationEngine.header sample_env
           +:+ CitationEngine.entry 1 (CitationEngine.format_citation sample_env first))
          +:+ CitationEngine.entry 2 (CitationEngine.format_citation sample_env second).
Proof.
  intros a1 a2 b1 b2.
  assert (Hs : scenario a1 a2 b1 b2) by (split; by vm_compute).
  split; [exact Hs|].
  apply (bibliography_two_entries sample_env a1 a2 b1 b2 [b2; a1; b1; a2] Hs).
  rewrite (Permutation_swap a1 b2), (Permutation_swap a2 b1).
  rewrite (Permutation_swap b2 b1) at 1. by rewrite (Permutation_swap a2 b2).
Defined.

(** C10, the claim as first stated: two citations that both lack a url have
    "the same url", yet neither is dropped: three entries remain. *)
Lemma bibliography_without_url_three_entries :
  let a1 := sample_citation "Alpha" "" "x" in
  let a2 := sample_citation "Beta" "" "y" in
  let b1 := sample_citation "Same Title" "http://b" "z" in
  let b2 := sample_citation "same title" "http://c" "w" in
  c_url a1 = c_url a2 ∧ c_content a1 ≠ c_content a2
  ∧ c_url b1 ≠ c_url b2 ∧ Py.lower (c_title b1) = Py.lower (c_title b2)
  ∧ CitationEngine._deduplicate_citations [a1; a2; b1; b2] = [a1; a2; b1]
  ∧ length (CitationEngine.formatted_citations sample_env [a1; a2; b1; b2]) = 3.
Proof. by vm_compute. Qed.

(** ** The agent: what every step preserves *)

Section Preservation.
Import Planner ExecutionAgent.
#[local] Set Warnings "-inexact-float".

(** A relation between the state before and the state after, kept by every
    elementary step, is kept by a whole computation. *)
Variable R : Agent → Agent → Prop.
Hypothesis R_refl : ∀ s, R s s.
Hypothesis R_trans : ∀ s1 s2 s3, R s1 s2 → R s2 s3 → R s1 s3.

Definition preserves {A} (m : M A) : Prop := ∀ s, R s (m s).2.

Lemma preserves_ret {A} (a : A) : preserves (ret a).
Proof. intros s. apply R_refl. Qed.

Lemma preserves_raise {A} e : preserves (@raise A e).
Proof. intros s. apply R_refl. Qed.

Lemma preserves_diverge {A} : preserves (@diverge A).
Proof. intros s. apply R_refl. Qed.

Lemma preserves_get : preserves get.
Proof. intros s. apply R_refl. Qed.

Lemma preserves_bind {A B} (m : M A) (k : A → M B) :
  preserves m → (∀ a, preserves (k a)) → preserves (bind m k).
Proof.
  intros Hm Hk s. unfold bind. specialize (Hm s).
  destruct (m s) as [[a|e|] s']; cbn in *; [|done|done].
  eapply R_trans; [done|]. apply Hk.
Qed.

Lemma preserves_catch {A} (m : M A) : preserves m → preserves (catch m).
Proof.
  intros Hm s. unfold catch. specialize (Hm s).
  by destruct (m s) as [[a|e|] s'].
Qed.

Hypothesis R_tick : ∀ s, R s (tick s).

Lemma preserves_call {A} (f : nat → A) : preserves (call f).
Proof. intros s. apply R_tick. Qed.

Lemma preserves_call_exc {A} (f : nat → exc A) : preserves (call_exc f).
Proof. intros s. unfold call_exc. destruct (f (clock s)); apply R_tick. Qed.

Lemma preserves_modify (f : Agent → Agent) :
  (∀ s, R s (f s)) → preserves (modify f).
Proof. intros Hf s. apply Hf. Qed.

Variable w : World.

Hypothesis R_log : ∀ entry s, R s (append_log entry s).

(** Finish a goal [preserves m] by following the structure of [m]. *)
Ltac preserve :=
  repeat
    match goal with
    | |- preserves (ret _) => apply preserves_ret
    | |- preserves (raise _) => apply preserves_raise
    | |- preserves diverge => apply preserves_diverge
    | |- preserves get => apply preserves_get
    | |- preserves (call _) => apply preserves_call
    | |- preserves (call_exc _) => apply preserves_call_exc
    | |- preserves (catch _) => apply preserves_catch
    | |- preserves (bind _ _) => apply preserves_bind; [|intros ?]
    | |- preserves (modify _) => apply preserves_modify; intros ?; auto
    | H : context [preserves] |- preserves _ => apply H
    | |- preserves (match ?x with _ => _ end) => destruct x eqn:?
    end.

Lemma preserves_log_step description : preserves (_log_step w description).
Proof. unfold _log_step. preserve. Qed.

Lemma preserves_search_terms_loop n terms source_types :
  preserves (search_terms_loop w n terms source_types).
Proof.
  induction terms as [|term rest IH]; cbn [search_terms_loop]; preserve.
Qed.

Lemma preserves_retrieve search_terms source_types :
  preserves (retrieve_from_sources w search_terms source_types).
Proof.
  unfold retrieve_from_sources. pose proof preserves_search_terms_loop.
  preserve.
Qed.

Hypothesis R_finding :
  ∀ finding s,
    (0.3 <? f_relevance_score finding)%float = true →
    R s (append_finding finding s).
Hypothesis R_citations : ∀ citations s, R s (extend_citations citations s).

Lemma preserves_process_document phase_id doc acc :
  preserves (process_document w phase_id doc acc).
Proof.
  unfold process_document. destruct acc as [phase_findings phase_citations].
  preserve.
Qed.

Lemma preserves_process_documents phase_id docs acc :
  preserves (process_documents w phase_id docs acc).
Proof.
  revert acc. induction docs as [|doc rest IH]; intros acc;
    cbn [process_documents]; pose proof preserves_process_document; preserve.
Qed.

Lemma preserves_synthesize_phase findings phase :
  preserves (_synthesize_phase_findings w findings phase).
Proof. unfold _synthesize_phase_findings. preserve. Qed.

Lemma preserves_execute_single_phase phase :
  preserves (_execute_single_phase w phase).
Proof.
  unfold _execute_single_phase.
  pose proof preserves_log_step. pose proof preserves_retrieve.
  pose proof preserves_process_documents. pose proof preserves_synthesize_phase.
  preserve.
Qed.

Hypothesis R_plan : ∀ plan s, R s (set_current_plan plan s).
Hypothesis R_completed : ∀ phase_id s, R s (append_completed phase_id s).
Hypothesis R_session : ∀ session_id s, R s (set_session_id session_id s).

Lemma preserves_consider_plan_updates new_insights :
  preserves (_consider_plan_updates w new_insights).
Proof.
  unfold _consider_plan_updates. pose proof preserves_log_step. preserve.
Qed.

Lemma preserves_record_failure next_phase e phase_results :
  preserves (record_failure next_phase e phase_results).
Proof. unfold record_failure. preserve. Qed.

Lemma preserves_complete_phase next_phase result :
  preserves (complete_phase w next_phase result).
Proof.
  unfold complete_phase. pose proof preserves_consider_plan_updates. preserve.
Qed.

Lemma preserves_phase_iteration phase_results :
  preserves (phase_iteration w phase_results).
Proof.
  unfold phase_iteration.
  pose proof preserves_execute_single_phase.
  pose proof preserves_record_failure. pose proof preserves_complete_phase.
  preserve.
Qed.

Lemma preserves_phase_loop fuel phase_results :
  preserves (phase_loop w fuel phase_results).
Proof.
  revert phase_results. induction fuel as [|fuel IH]; intros phase_results;
    cbn [phase_loop]; pose proof preserves_phase_iteration; preserve.
Qed.

Lemma preserves_plan_goal : preserves plan_goal.
Proof. unfold plan_goal. preserve. Qed.

Lemma preserves_synthesize_findings : preserves (_synthesize_findings w).
Proof.
  unfold _synthesize_findings, _generate_overall_synthesis.
  pose proof preserves_plan_goal. preserve.
Qed.

Lemma preserves_final_quality_check : preserves (_final_quality_check w).
Proof.
  unfold _final_quality_check. pose proof preserves_plan_goal. preserve.
Qed.

Lemma preserves_research fuel parsed_goal start_time :
  preserves (research w fuel parsed_goal start_time).
Proof.
  unfold research, _execute_phases.
  pose proof preserves_log_step. pose proof preserves_phase_loop.
  pose proof preserves_synthesize_findings.
  pose proof preserves_final_quality_check.
  preserve.
Qed.

Lemma preserves_research_failed e : preserves (research_failed w e).
Proof. unfold research_failed. preserve. Qed.

Lemma preserves_execute_research fuel parsed_goal :
  preserves (execute_research w fuel parsed_goal).
Proof.
  unfold execute_research.
  pose proof preserves_research. pose proof preserves_research_failed.
  preserve.
Qed.

End Preservation.

(** ** The relevance gate *)

Section RelevanceGate.
Import Planner ExecutionAgent.
#[local] Set Warnings "-inexact-float".

(** A finding that clears the threshold. *)
Definition relevant (finding : Finding) : Prop :=
  (0.3 <? f_relevance_score finding)%float = true.

(** From [s] to [s'] the two global lists only grow, and every finding added
    clears the threshold. *)
Definition grows (s s' : Agent) : Prop :=
  (∃ new, all_findings s' = all_findings s ++ new ∧ Forall relevant new)
  ∧ (∃ new, all_citations s' = all_citations s ++ new).

Lemma grows_refl s : grows s s.
Proof. split; exists []; by rewrite app_nil_r. Qed.

Lemma grows_trans s1 s2 s3 : grows s1 s2 → grows s2 s3 → grows s1 s3.
Proof.
  intros [(f1 & Hf1 & Hg1) (c1 & Hc1)] [(f2 & Hf2 & Hg2) (c2 & Hc2)]. split.
  - exists (f1 ++ f2). rewrite Hf2, Hf1, app_assoc. split; [done|].
    by apply Forall_app.
  - exists (c1 ++ c2). by rewrite Hc2, Hc1, app_assoc.
Qed.

Lemma grows_same s s' :
  all_findings s' = all_findings s → all_citations s' = all_citations s →
  grows s s'.
Proof. intros Hf Hc. split; exists []; by rewrite app_nil_r. Qed.

Lemma grows_finding finding s :
  relevant finding → grows s (append_finding finding s).
Proof.
  intros Hr. split; cbn.
  - exists [finding]. split; [done|]. by constructor.
  - exists []. by rewrite app_nil_r.
Qed.

Lemma grows_citations citations s : grows s (extend_citations citations s).
Proof.
  split; cbn.
  - exists []. by rewrite app_nil_r.
  - by exists citations.
Qed.

Lemma execute_research_grows w fuel parsed_goal s :
  grows s (execute_research w fuel parsed_goal s).2.
Proof.
  apply preserves_execute_research;
    eauto using grows_refl, grows_trans, grows_finding, grows_citations;
    intros; by apply grows_same.
Qed.

(** What one document adds, when the extraction returns [key_info]. *)
Lemma process_document_returned w phase_id doc acc s plan key_info :
  current_plan s = Some plan →
  w_extract_key_information w (clock s) (d_content doc) (research_goal plan)
  = Ok key_info →
  let s' := (process_document w phase_id doc acc s).2 in
  ((0.3 <? relevance key_info)%float = false → all_findings s' = all_findings s)
  ∧ (∀ citations,
       w_extract_citations_from_content w (S (clock s)) doc = Ok citations →
       all_citations s' = all_citations s ++ citations).
Proof.
  intros Hplan Hki. destruct acc as [phase_findings phase_citations].
  unfold process_document, bind, get, catch, call_exc. cbn.
  rewrite Hplan, Hki. cbn.
  destruct (0.3 <? relevance key_info)%float eqn:Hrel; cbn;
    destruct (w_extract_citations_from_content w (S (clock s)) doc)
      as [citations|e]; cbn; split; try done;
    intros citations' [= <-]; done.
Qed.

(** *** What [execute_research] returns *)

Lemma bind_val {A B} (m : M A) (k : A → M B) s b s' :
  bind m k s = (Val b, s') →
  ∃ a s1, m s = (Val a, s1) ∧ k a s1 = (Val b, s').
Proof.
  unfold bind. destruct (m s) as [[a|e|] s1]; [eauto|done|done].
Qed.

(** Open a chain of binds that ends in a value. *)
Ltac open_binds H :=
  repeat
    match type of H with
    | bind _ _ _ = (Val _, _) =>
        let a := fresh "a" in
        let s := fresh "s" in
        let Hm := fresh "Hm" in
        apply bind_val in H as (a & s & Hm & H)
    end.

(** The success dictionary carries the lists and the log of the agent. *)
Lemma research_returns w fuel parsed_goal start_time s r s1 :
  research w fuel parsed_goal start_time s = (Val r, s1) →
  ∃ goal plan phase_results synthesis quality execution_time,
    r = ResearchSucceeded goal plan phase_results synthesis quality
          (all_findings s1) (all_citations s1) (execution_log s1)
          execution_time (current_session_id s1).
Proof.
  intros H. unfold research in H. open_binds H.
  unfold get in *. unfold ret in H. simplify_eq. eauto 10.
Qed.

Lemma research_failed_returns w e s :
  ∃ s', research_failed w e s
        = (Val (ResearchFailed e (execution_log s) (all_findings s)
                  (all_citations s) (current_session_id s)), s')
    ∧ all_findings s' = all_findings s
    ∧ all_citations s' = all_citations s
    ∧ execution_log s' = execution_log s.
Proof.
  unfold research_failed, bind, get, call, ret.
  destruct (session_of s); cbn; eexists; split_and!; reflexivity.
Qed.

(** [execute_research] follows its [try] block: the value, the failure
    dictionary built where the exception was raised, or no return. *)
Lemma execute_research_outcome w fuel parsed_goal s :
  match research w fuel parsed_goal (w_time w (clock s)) (tick s) with
  | (Val r, s1) => execute_research w fuel parsed_goal s = (Val r, s1)
  | (Exn e, s1) =>
      ∃ s', execute_research w fuel parsed_goal s
            = (Val (ResearchFailed e (execution_log s1) (all_findings s1)
                      (all_citations s1) (current_session_id s1)), s')
        ∧ all_findings s' = all_findings s1
        ∧ all_citations s' = all_citations s1
        ∧ execution_log s' = execution_log s1
  | (Diverge, s1) => execute_research w fuel parsed_goal s = (Diverge, s1)
  end.
Proof.
  unfold execute_research, bind, call, catch. cbn.
  destruct (research w fuel parsed_goal _ _) as [[r|e|] s1]; cbn; try done.
  apply research_failed_returns.
Qed.

(** C6: in every run, whatever the collaborators answer, the findings that
    [execute_research] adds to the global list all have a relevance above
    0.3, so after a run of a new agent every finding of the list (and of the
    result returned) has; a document whose extraction returns a relevance of
    at most 0.3 adds no finding; and the citations extracted from a document
    whose extraction returned are appended whatever that relevance is. *)
Theorem relevance_gate (w : World) (fuel : nat) (parsed_goal : GoalParser.Goal)
    (s : Agent) :
  let run := execute_research w fuel parsed_goal in
  (∃ new, all_findings (run s).2 = all_findings s ++ new ∧ Forall relevant new)
  ∧ Forall relevant (all_findings (run (new_agent (max_sources s))).2)
  ∧ match (run s).1 with
    | Val (ResearchSucceeded _ _ _ _ _ findings _ _ _ _) =>
        findings = all_findings (run s).2
    | Val (ResearchFailed _ _ partial_findings _ _) =>
        partial_findings = all_findings (run s).2
    | _ => True
    end
  ∧ (∀ phase_id doc acc s0 plan key_info,
       current_plan s0 = Some plan →
       w_extract_key_information w (clock s0) (d_content doc)
         (research_goal plan) = Ok key_info →
       let s1 := (process_document w phase_id doc acc s0).2 in
       ((relevance key_info <=? 0.3)%float = true →
        all_findings s1 = all_findings s0)
       ∧ (∀ citations,
            w_extract_citations_from_content w (S (clock s0)) doc
            = Ok citations →
            all_citations s1 = all_citations s0 ++ citations)).
Proof.
  cbv zeta. split_and!.
  - apply execute_research_grows.
  - destruct (execute_research_grows w fuel parsed_goal
                (new_agent (max_sources s))) as [(new & -> & Hnew) _].
    done.
  - pose proof (execute_research_outcome w fuel parsed_goal s) as H.
    destruct (research w fuel parsed_goal _ _) as [[res|e|] s1] eqn:Hres.
    + rewrite H. cbn. apply research_returns in Hres.
      destruct Hres as (? & ? & ? & ? & ? & ? & ->). done.
    + destruct H as (s' & -> & Hf & _). cbn. done.
    + by rewrite H.
  - intros phase_id doc acc s0 plan key_info Hplan Hki.
    destruct (process_document_returned w phase_id doc acc s0 plan key_info
                Hplan Hki) as [Hf Hc].
    split; [|done]. intros Hle. apply Hf. by apply leb_not_ltb.
Qed.

End RelevanceGate.

(** ** A phase whose execution raises *)

Section FailedPhase.
Import Planner ExecutionAgent.
#[local] Open Scope nat_scope.

(** A plan of one phase whose search terms are [null], as a planning answer
    with ["search_terms": null] gives it. *)
Definition null_terms_phase : Phase :=
  {| ph_id := Some "phase_1";
     ph_title := "Primary Research";
     ph_description := "Research the main topic";
     ph_type := "research";
     ph_search_terms := None;
     ph_expected_sources := ["web"; "academic"];
     ph_dependencies := [];
     ph_success_criteria := ["Relevant information found"];
     ph_priority := "high" |}.

Definition stuck_plan : Plan :=
  mkPlan "plan_1" "Sequential research" [null_terms_phase] "topic" None None.

Definition type_error : string :=
  "'NoneType' object is not iterable".

(** One turn of the loop on the stuck plan: the failure is recorded, the
    phase is not marked completed, and nothing else changes but the log. *)
Lemma stuck_iteration w phase_results s :
  current_plan s = Some stuck_plan → completed_phases s = [] →
  ∃ s', phase_iteration w phase_results s
        = (Val (inr (phase_results ++ [PhaseFailed "phase_1" type_error])), s')
    ∧ current_plan s' = Some stuck_plan
    ∧ completed_phases s' = []
    ∧ length (execution_log s') = S (length (execution_log s)).
Proof.
  intros Hplan Hdone.
  unfold phase_iteration, bind, get. rewrite Hplan.
  unfold get_next_phase. rewrite Hdone. cbn.
  eexists. split_and!; [reflexivity|done|done|].
  cbn. rewrite length_app. cbn. lia.
Qed.

Lemma stuck_loop w fuel phase_results s :
  current_plan s = Some stuck_plan → completed_phases s = [] →
  (phase_loop w fuel phase_results s).1 = Diverge
  ∧ completed_phases (phase_loop w fuel phase_results s).2 = []
  ∧ length (execution_log (phase_loop w fuel phase_results s).2)
    = length (execution_log s) + fuel.
Proof.
  revert phase_results s.
  induction fuel as [|fuel IH]; intros phase_results s Hplan Hdone.
  - cbn. split_and!; [done|done|lia].
  - destruct (stuck_iteration w phase_results s Hplan Hdone)
      as (s' & Hturn & Hplan' & Hdone' & Hlog).
    assert (Hstep : phase_loop w (S fuel) phase_results s
                    = phase_loop w fuel
                        (phase_results ++ [PhaseFailed "phase_1" type_error]) s')
      by (cbn [phase_loop]; unfold bind; by rewrite Hturn).
    rewrite Hstep.
    destruct (IH (phase_results ++ [PhaseFailed "phase_1" type_error]) s'
                Hplan' Hdone') as (-> & -> & ->).
    split_and!; [done|done|lia].
Qed.

(** C2: on a plan whose only phase raises when executed (its search terms
    are [null]), the failure is recorded but the phase is not marked
    completed, so the next turn selects it again: whatever the fuel, the
    loop has not ended, the completed list is empty, and the phase has been
    started once per turn. *)
Theorem failed_phase_selected_again (w : World) (fuel : nat) :
  let s := set_current_plan (Some stuck_plan) (new_agent 10) in
  (∃ s', phase_iteration w [] s
         = (Val (inr [PhaseFailed "phase_1" type_error]), s')
     ∧ get_next_phase stuck_plan (completed_phases s') = Some null_terms_phase)
  ∧ (_execute_phases w fuel s).1 = Diverge
  ∧ completed_phases (_execute_phases w fuel s).2 = []
  ∧ length (execution_log (_execute_phases w fuel s).2) = fuel.
Proof.
  cbv zeta. split.
  - destruct (stuck_iteration w [] (set_current_plan (Some stuck_plan)
                                      (new_agent 10)))
      as (s' & Hturn & _ & Hdone & _); [done|done|].
    exists s'. split; [done|]. by rewrite Hdone.
  - unfold _execute_phases.
    by destruct (stuck_loop w fuel [] (set_current_plan (Some stuck_plan)
                                         (new_agent 10))) as (-> & -> & ->).
Qed.

End FailedPhase.

(** ** A phase whose execution returns *)

Section ReturnedPhase.
Import Planner ExecutionAgent.
#[local] Open Scope nat_scope.

(** The schedule (plan, completed list, session) is the same in both states. *)
Definition same_schedule (s s' : Agent) : Prop :=
  completed_phases s' = completed_phases s
  ∧ current_plan s' = current_plan s
  ∧ current_session_id s' = current_session_id s.

Lemma execute_single_phase_same_schedule w phase s :
  same_schedule s (_execute_single_phase w phase s).2.
Proof.
  apply preserves_execute_single_phase; unfold same_schedule;
    try (intros; split_and!; done).
  intros s1 s2 s3 (-> & -> & ->) (-> & -> & ->). done.
Qed.

(** The list of completed phases is the same in both states. *)
Definition same_completed (s s' : Agent) : Prop :=
  completed_phases s' = completed_phases s.

Lemma consider_plan_updates_same_completed w new_insights s :
  same_completed s (_consider_plan_updates w new_insights s).2.
Proof.
  apply preserves_consider_plan_updates; unfold same_completed;
    try (intros; done).
  intros s1 s2 s3 -> ->. done.
Qed.

Lemma consider_plan_updates_returns w new_insights s :
  ∃ s', _consider_plan_updates w new_insights s = (Val tt, s').
Proof.
  unfold _consider_plan_updates, _log_step, bind, get, catch, call_exc, call,
    modify, ret.
  repeat case_match; simplify_eq/=; eauto.
Qed.

(** After [phase_results.append(result)] the phase is marked completed,
    whatever happens to the rest of the [try] block. *)
Lemma complete_phase_completes w next_phase result phase_id s :
  ph_id next_phase = Some phase_id →
  ∃ outcome s', catch (complete_phase w next_phase result) s = (Val outcome, s')
    ∧ completed_phases s' = completed_phases s ++ [phase_id].
Proof.
  intros Hid. unfold catch, complete_phase. rewrite Hid.
  unfold bind at 1. unfold modify at 1.
  unfold bind at 1. unfold get at 1.
  set (s1 := append_completed phase_id s).
  assert (Hs1 : completed_phases s1 = completed_phases s ++ [phase_id]) by done.
  clearbody s1.
  destruct (session_of s1) as [sid|].
  - unfold bind, call_exc, ret.
    destruct (w_save_research_phase w (clock s1) sid result) as [b|e].
    + pose proof (consider_plan_updates_same_completed w
                    (get_new_insights result) (tick s1)) as Hsame.
      destruct (consider_plan_updates_returns w (get_new_insights result)
                  (tick s1)) as (s' & Hs').
      rewrite Hs' in *. eexists _, _. split; [reflexivity|].
      cbn in Hsame. unfold same_completed in Hsame. by rewrite Hsame.
    + eexists _, _. split; [reflexivity|]. done.
  - unfold bind at 1. unfold ret at 1.
    pose proof (consider_plan_updates_same_completed w
                  (get_new_insights result) s1) as Hsame.
    destruct (consider_plan_updates_returns w (get_new_insights result) s1)
      as (s' & Hs').
    rewrite Hs' in *. eexists _, _. split; [reflexivity|].
    cbn in Hsame. unfold same_completed in Hsame. by rewrite Hsame.
Qed.

Lemma log_step_returns w description s :
  _log_step w description s = (Val tt, (_log_step w description s).2).
Proof. reflexivity. Qed.

(** A phase for which nothing is retrieved returns the failure dictionary. *)
Lemma no_documents_failure w phase s s2 :
  retrieve_from_sources w (ph_search_terms phase) (ph_expected_sources phase)
    (_log_step w ("Executing phase: " +:+ ph_title phase) s).2 = (Val [], s2) →
  _execute_single_phase w phase s
  = (Val (PhaseFailed (default "unknown" (ph_id phase))
            "No documents retrieved"), s2).
Proof.
  intros Hnone. unfold _execute_single_phase.
  unfold bind at 1. rewrite log_step_returns.
  unfold bind at 1. by rewrite Hnone.
Qed.

(** One turn of the loop when the execution of the selected phase returns. *)
Lemma returned_phase_turn w phase_results s plan next_phase phase_id r s1 :
  current_plan s = Some plan →
  get_next_phase plan (completed_phases s) = Some next_phase →
  ph_id next_phase = Some phase_id →
  _execute_single_phase w next_phase s = (Val r, s1) →
  ∃ phase_results' s',
    phase_iteration w phase_results s = (Val (inr phase_results'), s')
    ∧ (phase_results ++ [r]) `prefix_of` phase_results'
    ∧ completed_phases s' = completed_phases s ++ [phase_id].
Proof.
  intros Hplan Hnext Hid Hexec.
  pose proof (execute_single_phase_same_schedule w next_phase s) as Hsame.
  rewrite Hexec in Hsame. destruct Hsame as (Hdone & _ & _). cbn in Hdone.
  destruct (complete_phase_completes w next_phase r phase_id s1 Hid)
    as (outcome & s' & Hcomplete & Hdone').
  unfold phase_iteration. unfold bind at 1. unfold get at 1.
  rewrite Hplan, Hnext.
  unfold bind at 1. unfold catch at 1. rewrite Hexec.
  unfold bind at 1. rewrite Hcomplete.
  destruct outcome as [[]|e].
  - eexists _, _. split_and!; [reflexivity|done|]. by rewrite Hdone', Hdone.
  - unfold record_failure. rewrite Hid. cbn.
    eexists _, _. split_and!; [reflexivity| |by rewrite Hdone', Hdone].
    by eexists.
Qed.

(** The loop is left only when no phase can be selected. *)
Lemma phase_iteration_break w phase_results s x s' :
  phase_iteration w phase_results s = (Val (inl x), s') →
  ∃ plan, current_plan s' = Some plan
    ∧ get_next_phase plan (completed_phases s') = None.
Proof.
  unfold phase_iteration. intros H.
  apply bind_val in H as (s0 & s0' & Hget & H).
  unfold get in Hget. injection Hget as <- <-.
  destruct (current_plan s) as [plan|] eqn:Hplan; [|done].
  destruct (get_next_phase plan (completed_phases s)) as [next|] eqn:Hnext.
  - apply bind_val in H as ([r|e] & s1 & _ & H).
    + apply bind_val in H as ([[]|e] & s2 & _ & H).
      * unfold ret in H. simplify_eq.
      * apply bind_val in H as (? & ? & _ & H). unfold ret in H. simplify_eq.
    + apply bind_val in H as (? & ? & _ & H). unfold ret in H. simplify_eq.
  - unfold ret in H. simplify_eq. eauto.
Qed.

Lemma phase_loop_ends w fuel phase_results s phase_results' s' :
  phase_loop w fuel phase_results s = (Val phase_results', s') →
  ∃ plan, current_plan s' = Some plan
    ∧ get_next_phase plan (completed_phases s') = None.
Proof.
  revert phase_results s. induction fuel as [|fuel IH]; intros pr s H;
    cbn [phase_loop] in H; [done|].
  apply bind_val in H as ([x|x] & s1 & Hturn & H).
  - unfold ret in H. simplify_eq. by eapply phase_iteration_break.
  - by eapply IH.
Qed.

End ReturnedPhase.


(** ** Runs that end *)

Section Ending.
Import Planner ExecutionAgent.
#[local] Open Scope nat_scope.

(** [m] returns a value, whatever the state; [m] ends, with a value or an
    exception. *)
Definition returns {A} (m : M A) : Prop := ∀ s, ∃ a s', m s = (Val a, s').

Definition ends {A} (m : M A) : Prop := ∀ s, (m s).1 ≠ Diverge.

Lemma returns_ends {A} (m : M A) : returns m → ends m.
Proof. intros Hm s. by destruct (Hm s) as (a & s' & ->). Qed.

Lemma ends_ret {A} (a : A) : ends (ret a).
Proof. by intros s. Qed.

Lemma ends_raise {A} e : ends (@raise A e).
Proof. by intros s. Qed.

Lemma ends_get : ends get.
Proof. by intros s. Qed.

Lemma ends_modify f : ends (modify f).
Proof. by intros s. Qed.

Lemma ends_call {A} (f : nat → A) : ends (call f).
Proof. by intros s. Qed.

Lemma ends_call_exc {A} (f : nat → exc A) : ends (call_exc f).
Proof. intros s. unfold call_exc. by destruct (f (clock s)). Qed.

Lemma ends_bind {A B} (m : M A) (k : A → M B) :
  ends m → (∀ a, ends (k a)) → ends (bind m k).
Proof.
  intros Hm Hk s. unfold bind. specialize (Hm s).
  destruct (m s) as [[a|e|] s1]; [apply Hk|done|done].
Qed.

Lemma ends_catch {A} (m : M A) : ends m → ends (catch m).
Proof.
  intros Hm s. unfold catch. specialize (Hm s).
  by destruct (m s) as [[a|e|] s1].
Qed.

Lemma returns_ret {A} (a : A) : returns (ret a).
Proof. intros s. by eexists _, _. Qed.

Lemma returns_get : returns get.
Proof. intros s. by eexists _, _. Qed.

Lemma returns_modify f : returns (modify f).
Proof. intros s. by eexists _, _. Qed.

Lemma returns_call {A} (f : nat → A) : returns (call f).
Proof. intros s. by eexists _, _. Qed.

Lemma returns_bind {A B} (m : M A) (k : A → M B) :
  returns m → (∀ a, returns (k a)) → returns (bind m k).
Proof.
  intros Hm Hk s. unfold bind. destruct (Hm s) as (a & s1 & ->). apply Hk.
Qed.

Lemma returns_catch {A} (m : M A) : ends m → returns (catch m).
Proof.
  intros Hm s. unfold catch. specialize (Hm s).
  destruct (m s) as [[a|e|] s1]; [by eexists _, _..|done].
Qed.

(** Finish a goal [ends m] or [returns m] by following the structure of [m]. *)
Ltac finish :=
  repeat
    match goal with
    | |- ends (ret _) => apply ends_ret
    | |- ends (raise _) => apply ends_raise
    | |- ends get => apply ends_get
    | |- ends (modify _) => apply ends_modify
    | |- ends (call _) => apply ends_call
    | |- ends (call_exc _) => apply ends_call_exc
    | |- ends (catch _) => apply ends_catch
    | |- ends (bind _ _) => apply ends_bind; [|intros ?]
    | |- returns (ret _) => apply returns_ret
    | |- returns get => apply returns_get
    | |- returns (modify _) => apply returns_modify
    | |- returns (call _) => apply returns_call
    | |- returns (catch _) => apply returns_catch
    | |- returns (bind _ _) => apply returns_bind; [|intros ?]
    | H : context [returns] |- returns _ => apply H
    | H : context [ends] |- ends _ => apply H
    | H : context [returns] |- ends _ => apply returns_ends, H
    | |- ends (match ?x with _ => _ end) => destruct x eqn:?
    | |- returns (match ?x with _ => _ end) => destruct x eqn:?
    end.

Variable w : World.

Lemma returns_log_step description : returns (_log_step w description).
Proof. unfold _log_step. finish. Qed.

Lemma returns_search_terms_loop n terms source_types :
  returns (search_terms_loop w n terms source_types).
Proof.
  induction terms as [|term rest IH]; cbn [search_terms_loop]; finish.
Qed.

Lemma returns_process_document phase_id doc acc :
  returns (process_document w phase_id doc acc).
Proof.
  unfold process_document. destruct acc as [phase_findings phase_citations].
  finish.
Qed.

Lemma returns_process_documents phase_id docs acc :
  returns (process_documents w phase_id docs acc).
Proof.
  revert acc. induction docs as [|doc rest IH]; intros acc;
    cbn [process_documents]; pose proof returns_process_document; finish.
Qed.

Lemma returns_synthesize_phase findings phase :
  returns (_synthesize_phase_findings w findings phase).
Proof. unfold _synthesize_phase_findings. finish. Qed.

(** A phase whose search terms are a list is executed to its end. *)
Lemma returns_execute_single_phase phase :
  ph_search_terms phase ≠ None → returns (_execute_single_phase w phase).
Proof.
  intros Hterms. unfold _execute_single_phase, retrieve_from_sources.
  destruct (ph_search_terms phase) as [terms|]; [|done].
  pose proof returns_log_step. pose proof returns_search_terms_loop.
  pose proof returns_process_documents. pose proof returns_synthesize_phase.
  finish.
Qed.

(** The planner's answers never ask for an update. *)
Definition static : Prop :=
  ∀ t plan insights completed,
    match w_plan_updates w t plan insights completed with
    | Ok updates => update_needed updates = false
    | Raise _ => True
    end.

(** The phases of the plan that are not completed. *)
Definition pending (plan : Plan) (completed : list string) : nat :=
  length (filter (λ p, get_id p ∉ completed) (phases plan)).

Lemma static_consider_plan_updates new_insights s :
  static →
  ∃ s', _consider_plan_updates w new_insights s = (Val tt, s')
    ∧ current_plan s' = current_plan s
    ∧ completed_phases s' = completed_phases s.
Proof.
  intros Hstatic. unfold _consider_plan_updates.
  destruct new_insights as [|insight rest]; [by eexists|].
  unfold bind, get. destruct (current_plan s) as [plan|] eqn:Hplan;
    [|by eexists].
  unfold catch, call_exc, call, update_plan, _apply_plan_updates.
  specialize (Hstatic (clock s) plan (insight :: rest) (completed_phases s)).
  destruct (w_plan_updates w _ _ _ _) as [updates|e]; cbn.
  - rewrite Hstatic. cbn. rewrite bool_decide_eq_false_2 by (by intros []).
    by eexists.
  - rewrite bool_decide_eq_false_2 by (by intros []). by eexists.
Qed.

Lemma static_complete_phase next_phase result phase_id s :
  static → ph_id next_phase = Some phase_id →
  ∃ outcome s',
    catch (complete_phase w next_phase result) s = (Val outcome, s')
    ∧ current_plan s' = current_plan s
    ∧ completed_phases s' = completed_phases s ++ [phase_id].
Proof.
  intros Hstatic Hid. unfold complete_phase. rewrite Hid.
  unfold catch. unfold bind at 1. unfold modify at 1.
  unfold bind at 1. unfold get at 1. unfold bind at 1.
  destruct (session_of (append_completed phase_id s)) as [sid|].
  - unfold bind at 1. unfold call_exc.
    destruct (w_save_research_phase w _ sid result) as [saved|e].
    + unfold ret at 1.
      destruct (static_consider_plan_updates (get_new_insights result)
                  (tick (append_completed phase_id s)) Hstatic)
        as (s' & -> & Hplan & Hdone).
      by eexists _, _.
    + by eexists _, _.
  - unfold ret at 1.
    destruct (static_consider_plan_updates (get_new_insights result)
                (append_completed phase_id s) Hstatic)
      as (s' & -> & Hplan & Hdone).
    by eexists _, _.
Qed.

(** One turn under a static planner, for a selected phase with a list of
    search terms: an exception leaves the loop (the phase has no id), or the
    phase is completed and the plan is the same. *)
Lemma static_turn phase_results s plan next_phase :
  static → current_plan s = Some plan →
  get_next_phase plan (completed_phases s) = Some next_phase →
  ph_search_terms next_phase ≠ None →
  match phase_iteration w phase_results s with
  | (Val (inr _), s') =>
      current_plan s' = Some plan
      ∧ ∃ phase_id, ph_id next_phase = Some phase_id
          ∧ completed_phases s' = completed_phases s ++ [phase_id]
  | (Val (inl _), _) => False
  | (Exn _, _) => ph_id next_phase = None
  | (Diverge, _) => False
  end.
Proof.
  intros Hstatic Hplan Hnext Hterms.
  destruct (returns_execute_single_phase next_phase Hterms s)
    as (r & s1 & Hexec).
  pose proof (execute_single_phase_same_schedule w next_phase s) as Hsame.
  rewrite Hexec in Hsame. destruct Hsame as (Hdone1 & Hplan1 & _).
  cbn in Hdone1, Hplan1.
  unfold phase_iteration. unfold bind at 1. unfold get at 1.
  rewrite Hplan, Hnext.
  unfold bind at 1. unfold catch at 1. rewrite Hexec.
  unfold bind at 1.
  destruct (ph_id next_phase) as [phase_id|] eqn:Hid.
  - destruct (static_complete_phase next_phase r phase_id s1 Hstatic Hid)
      as (outcome & s' & -> & Hplan' & Hdone').
    rewrite Hplan1, Hplan in Hplan'. rewrite Hdone1 in Hdone'.
    destruct outcome as [[]|e]; unfold record_failure; rewrite ?Hid; cbn;
      (split; [done|by exists phase_id]).
  - unfold catch, complete_phase, record_failure. by rewrite Hid.
Qed.

Lemma pending_decreases plan completed next_phase :
  get_next_phase plan completed = Some next_phase →
  pending plan (completed ++ [get_id next_phase]) < pending plan completed.
Proof.
  unfold get_next_phase, pending. intros Hnext.
  pose proof (next_in_spec (phases plan) completed) as Hspec.
  rewrite Hnext in Hspec.
  destruct Hspec as (before & after & Hphases & [Hnew _] & _).
  assert (Hsub : filter (λ p, get_id p ∉ completed ++ [get_id next_phase])
                   (phases plan)
                 = filter (λ p, get_id p ∉ completed ++ [get_id next_phase])
                     (filter (λ p, get_id p ∉ completed) (phases plan))).
  { rewrite list_filter_filter. apply list_filter_iff. intros p.
    rewrite not_elem_of_app. tauto. }
  rewrite Hsub. apply (length_filter_lt _ _ next_phase).
  - apply list_elem_of_filter. split; [done|].
    rewrite Hphases. apply elem_of_app. right. apply list_elem_of_here.
  - intros Hn. apply Hn, elem_of_app. right. apply list_elem_of_here.
Qed.

Lemma pending_le plan completed : pending plan completed ≤ length (phases plan).
Proof. apply length_filter. Qed.

(** Every phase of the plan has a list of search terms. *)
Definition searchable (plan : Plan) : Prop :=
  Forall (λ p, ph_search_terms p ≠ None) (phases plan).

(** Under a static planner the loop ends within as many turns as there are
    pending phases, and one more to see that none is left. *)
Lemma static_loop_ends fuel : ∀ phase_results s plan,
  static → current_plan s = Some plan → searchable plan →
  pending plan (completed_phases s) < fuel →
  (phase_loop w fuel phase_results s).1 ≠ Diverge.
Proof.
  induction fuel as [|fuel IH]; intros pr s plan Hstatic Hplan Hterms Hfuel;
    [lia|].
  cbn [phase_loop]. unfold bind.
  destruct (get_next_phase plan (completed_phases s)) as [next|] eqn:Hnext.
  - assert (Hin : next ∈ phases plan).
    { pose proof (next_in_spec (phases plan) (completed_phases s)) as Hspec.
      unfold get_next_phase in Hnext. rewrite Hnext in Hspec.
      destruct Hspec as (before & after & -> & _).
      apply elem_of_app. right. apply list_elem_of_here. }
    assert (Hnext_terms : ph_search_terms next ≠ None)
      by (by apply (proj1 (Forall_forall _ _) Hterms)).
    pose proof (static_turn pr s plan next Hstatic Hplan Hnext Hnext_terms)
      as Hturn.
    destruct (phase_iteration w pr s) as [[[x|x]|e|] s']; [done| |done|done].
    destruct Hturn as (Hplan' & phase_id & Hid & Hdone').
    apply (IH x s' plan); [done..|].
    pose proof (pending_decreases plan (completed_phases s) next Hnext) as Hlt.
    unfold get_id in Hlt. rewrite Hid in Hlt. cbn in Hlt.
    rewrite Hdone'. lia.
  - unfold phase_iteration, bind, get. rewrite Hplan, Hnext. done.
Qed.

(** Every phase of the plan has an id. *)
Definition identified (plan : Plan) : Prop :=
  Forall (λ p, ph_id p ≠ None) (phases plan).

(** With ids on all phases the loop returns, and nothing is left to select. *)
Lemma static_loop_returns fuel : ∀ phase_results s plan,
  static → current_plan s = Some plan → searchable plan → identified plan →
  pending plan (completed_phases s) < fuel →
  ∃ results s',
    phase_loop w fuel phase_results s = (Val results, s')
    ∧ current_plan s' = Some plan
    ∧ get_next_phase plan (completed_phases s') = None.
Proof.
  induction fuel as [|fuel IH];
    intros pr s plan Hstatic Hplan Hterms Hids Hfuel; [lia|].
  cbn [phase_loop]. unfold bind.
  destruct (get_next_phase plan (completed_phases s)) as [next|] eqn:Hnext.
  - assert (Hin : next ∈ phases plan).
    { pose proof (next_in_spec (phases plan) (completed_phases s)) as Hspec.
      unfold get_next_phase in Hnext. rewrite Hnext in Hspec.
      destruct Hspec as (before & after & -> & _).
      apply elem_of_app. right. apply list_elem_of_here. }
    assert (Hnext_terms : ph_search_terms next ≠ None)
      by (by apply (proj1 (Forall_forall _ _) Hterms)).
    assert (Hnext_id : ph_id next ≠ None)
      by (by apply (proj1 (Forall_forall _ _) Hids)).
    pose proof (static_turn pr s plan next Hstatic Hplan Hnext Hnext_terms)
      as Hturn.
    destruct (phase_iteration w pr s) as [[[x|x]|e|] s']; [done| |done|done].
    destruct Hturn as (Hplan' & phase_id & Hid & Hdone').
    apply (IH x s' plan); [done..|].
    pose proof (pending_decreases plan (completed_phases s) next Hnext) as Hlt.
    unfold get_id in Hlt. rewrite Hid in Hlt. cbn in Hlt.
    rewrite Hdone'. lia.
  - unfold phase_iteration, bind, get. rewrite Hplan, Hnext. cbn.
    by eexists _, _.
Qed.

Lemma ends_bind_at {A B} (m : M A) (k : A → M B) s :
  (m s).1 ≠ Diverge →
  (∀ a s1, m s = (Val a, s1) → (k a s1).1 ≠ Diverge) →
  (bind m k s).1 ≠ Diverge.
Proof.
  intros Hm Hk. unfold bind.
  destruct (m s) as [[a|e|] s1]; [by apply Hk|done|done].
Qed.

Lemma ends_synthesize_findings : ends (_synthesize_findings w).
Proof.
  unfold _synthesize_findings, _generate_overall_synthesis, plan_goal. finish.
Qed.

Lemma ends_final_quality_check : ends (_final_quality_check w).
Proof. unfold _final_quality_check, plan_goal. finish. Qed.

(** When the planner is static and the plan it creates is searchable and
    shorter than [fuel], the [try] block of [execute_research] ends. *)
Lemma static_research_ends fuel parsed_goal start_time :
  static →
  (∀ t plan, w_create_execution_plan w t parsed_goal = Ok plan →
             searchable plan ∧ length (phases plan) < fuel) →
  ends (research w fuel parsed_goal start_time).
Proof.
  intros Hstatic Hcreated s. unfold research.
  apply ends_bind_at; [apply ends_call_exc|intros session_id s1 _].
  apply ends_bind_at; [done|intros [] s2 _].
  apply ends_bind_at; [apply returns_ends, returns_log_step|intros [] s3 _].
  apply ends_bind_at; [apply ends_call_exc|intros plan s4 Hcall].
  unfold call_exc in Hcall.
  destruct (w_create_execution_plan w (clock s3) parsed_goal)
    as [plan'|e] eqn:Hplan; [|done].
  injection Hcall as -> <-.
  destruct (Hcreated _ _ Hplan) as [Hterms Hlen].
  apply ends_bind_at; [done|intros [] s5 Hset].
  injection Hset as <-.
  apply ends_bind_at; [apply returns_ends, returns_log_step|intros [] s6 Hlog].
  rewrite log_step_returns in Hlog. injection Hlog as <-.
  apply ends_bind_at.
  - apply (static_loop_ends fuel [] _ plan); [done..|].
    eapply Nat.le_lt_trans; [apply pending_le|done].
  - intros phase_results s7 _.
    pose proof returns_log_step. pose proof ends_synthesize_findings.
    pose proof ends_final_quality_check.
    match goal with
    | |- (?m ?s).1 ≠ Diverge => cut (ends m); [intros Hm; apply Hm|]
    end.
    finish.
Qed.

Lemma ends_research_failed e : ends (research_failed w e).
Proof. unfold research_failed. finish. Qed.

Lemma static_execute_research_ends fuel parsed_goal :
  static →
  (∀ t plan, w_create_execution_plan w t parsed_goal = Ok plan →
             searchable plan ∧ length (phases plan) < fuel) →
  ends (execute_research w fuel parsed_goal).
Proof.
  intros Hstatic Hcreated. unfold execute_research.
  pose proof (static_research_ends fuel parsed_goal) as Hresearch.
  pose proof ends_research_failed.
  apply ends_bind; [apply ends_call|intros start_time].
  apply ends_bind; [by apply ends_catch, Hresearch|intros [r|e]]; finish.
Qed.

End Ending.

(** ** The completed list after a phase that returns *)

Section CompletedPhase.
Import Planner ExecutionAgent.
#[local] Open Scope nat_scope.

(** The completed list only grows in the loop. *)
Lemma phase_loop_completed_grows w fuel phase_results s :
  completed_phases s
  `prefix_of` completed_phases (phase_loop w fuel phase_results s).2.
Proof.
  apply (preserves_phase_loop
           (λ s s', completed_phases s `prefix_of` completed_phases s'));
    try done.
  - intros s1 s2 s3. apply transitivity.
  - intros phase_id s0. by exists [phase_id].
Qed.


End CompletedPhase.

(** ** A run on concrete collaborators *)

Section SampleRun.
Import Planner ExecutionAgent.
#[local] Open Scope nat_scope.

Definition storage_document : Document :=
  mkDocument "Grid storage report" "https://example.org/storage"
    "Storage capacity doubled in two years." "web" [] "2024" "2024-05-01".

Definition storage_citation : Citation :=
  mkCitation "web" "Grid storage report" "https://example.org/storage" []
    "2024" "web" "" "" "" "".

(** The first phase searches for a term nothing is found for; the second
    waits for the first. *)
Definition empty_phase : Phase :=
  {| ph_id := Some "phase_1";
     ph_title := "Background";
     ph_description := "Survey the background";
     ph_type := "research";
     ph_search_terms := Some ["nothing"];
     ph_expected_sources := ["web"];
     ph_dependencies := [];
     ph_success_criteria := [];
     ph_priority := "high" |}.

Definition dependent_phase : Phase :=
  {| ph_id := Some "phase_2";
     ph_title := "Storage";
     ph_description := "Study grid storage";
     ph_type := "research";
     ph_search_terms := Some ["storage"];
     ph_expected_sources := ["web"];
     ph_dependencies := ["phase_1"];
     ph_success_criteria := [];
     ph_priority := "medium" |}.

Definition two_phase_plan : Plan :=
  mkPlan "plan_1" "Sequential research" [empty_phase; dependent_phase]
    "grid storage" None None.

Definition sample_world : World :=
  {| w_time := SelfCritique.float_of_nat;
     w_now := λ _, "2024-05-01T00:00:00";
     w_create_research_session := λ _ _, Ok "session-1";
     w_update_session_status := λ _ _ _, true;
     w_save_research_phase := λ _ _ _, Ok true;
     w_save_findings := λ _ _ findings, Ok (length findings);
     w_save_citations := λ _ _ citations, Ok (length citations);
     w_create_execution_plan := λ _ _, Ok two_phase_plan;
     w_plan_updates := λ _ _ _ _, Ok (mkUpdates false [] [] None);
     w_search_web :=
       λ _ term _, if String.eqb term "storage" then [storage_document] else [];
     w_search_arxiv := λ _ _, [];
     w_store_documents := λ _ docs, d_url <$> docs;
     w_extract_key_information :=
       λ _ _ _, Ok (mkKeyInfo ["Storage capacity doubled"] [] [] []
                      (Some 0.5%float));
     w_extract_citations_from_content := λ _ _, Ok [storage_citation];
     w_generate_text := λ _ _, Ok "Storage is growing.";
     w_critique_phase_results := λ _ _ _ _, mkPhaseCritique 0.5 [] [] [];
     w_review_raises := λ _, None |}.

Definition planned_agent : Agent :=
  set_current_plan (Some two_phase_plan) (new_agent 10).


(** A plan in which a phase that raises stands between a phase and the
    phase that waits for it. *)
Definition raising_phase : Phase :=
  {| ph_id := Some "phase_2";
     ph_title := "Primary Research";
     ph_description := "Research the main topic";
     ph_type := "research";
     ph_search_terms := None;
     ph_expected_sources := ["web"];
     ph_dependencies := [];
     ph_success_criteria := [];
     ph_priority := "high" |}.

Definition waiting_phase : Phase :=
  {| ph_id := Some "phase_3";
     ph_title := "Storage";
     ph_description := "Study grid storage";
     ph_type := "research";
     ph_search_terms := Some ["storage"];
     ph_expected_sources := ["web"];
     ph_dependencies := ["phase_1"];
     ph_success_criteria := [];
     ph_priority := "medium" |}.

Definition blocked_plan : Plan :=
  mkPlan "plan_1" "Sequential research"
    [empty_phase; raising_phase; waiting_phase] "grid storage" None None.

(** One turn of the loop once the first phase is completed: the phase that
    raises is selected, and only the log changes. *)
Lemma blocked_iteration w phase_results s :
  current_plan s = Some blocked_plan → completed_phases s = ["phase_1"] →
  ∃ s', phase_iteration w phase_results s
        = (Val (inr (phase_results ++ [PhaseFailed "phase_2" type_error])), s')
    ∧ current_plan s' = Some blocked_plan
    ∧ completed_phases s' = ["phase_1"]
    ∧ execution_log s'
      = execution_log s
        ++ [mkLogEntry (w_time w (clock s)) "Executing phase: Primary Research" 1].
Proof.
  intros Hplan Hdone.
  unfold phase_iteration, bind, get. rewrite Hplan, Hdone.
  assert (Hnext : get_next_phase blocked_plan ["phase_1"] = Some raising_phase)
    by reflexivity.
  rewrite Hnext. cbn. rewrite Hdone.
  eexists. split_and!; [reflexivity|done|done|done].
Qed.

Lemma blocked_loop w fuel phase_results s :
  current_plan s = Some blocked_plan → completed_phases s = ["phase_1"] →
  (phase_loop w fuel phase_results s).1 = Diverge
  ∧ completed_phases (phase_loop w fuel phase_results s).2 = ["phase_1"]
  ∧ ∀ entry, entry ∈ execution_log (phase_loop w fuel phase_results s).2 →
             entry ∈ execution_log s
             ∨ description entry = "Executing phase: Primary Research".
Proof.
  revert phase_results s.
  induction fuel as [|fuel IH]; intros phase_results s Hplan Hdone.
  - cbn. split_and!; [done|done|by left].
  - destruct (blocked_iteration w phase_results s Hplan Hdone)
      as (s' & Hturn & Hplan' & Hdone' & Hlog).
    assert (Hstep : phase_loop w (S fuel) phase_results s
                    = phase_loop w fuel
                        (phase_results ++ [PhaseFailed "phase_2" type_error]) s')
      by (cbn [phase_loop]; unfold bind; by rewrite Hturn).
    rewrite Hstep.
    destruct (IH (phase_results ++ [PhaseFailed "phase_2" type_error]) s'
                Hplan' Hdone') as (-> & -> & Hentries).
    split_and!; [done|done|].
    intros entry Hentry. destruct (Hentries entry Hentry) as [Hin|]; [|by right].
    rewrite Hlog in Hin. apply elem_of_app in Hin as [|Hin]; [by left|].
    apply list_elem_of_singleton in Hin as ->. by right.
Qed.


End SampleRun.

(** ** What execute_research returns *)

Section StructuredResult.
Import Planner ExecutionAgent.
#[local] Open Scope nat_scope.

(** [x] is [y], unless [x] ran out of turns. *)
Definition below {A} (x y : result A * Agent) : Prop :=
  x.1 = Diverge ∨ x = y.

Lemma below_refl {A} (x : result A * Agent) : below x x.
Proof. by right. Qed.

Lemma below_bind {A B} (m m' : M A) (k k' : A → M B) s :
  below (m s) (m' s) → (∀ a s1, below (k a s1) (k' a s1)) →
  below (bind m k s) (bind m' k' s).
Proof.
  intros [Hm|Hm] Hk; unfold bind.
  - left. destruct (m s) as [[a|e|] s1]; by cbn in *.
  - rewrite <- Hm. destruct (m s) as [[a|e|] s1]; [apply Hk|by right..].
Qed.

Lemma below_catch {A} (m m' : M A) s :
  below (m s) (m' s) → below (catch m s) (catch m' s).
Proof.
  intros [Hm|Hm]; unfold catch.
  - left. destruct (m s) as [[a|e|] s1]; by cbn in *.
  - rewrite <- Hm. by right.
Qed.

(** More turns do not change a loop that has ended. *)
Lemma phase_loop_below w fuel fuel' phase_results s :
  fuel ≤ fuel' →
  below (phase_loop w fuel phase_results s) (phase_loop w fuel' phase_results s).
Proof.
  revert fuel' phase_results s.
  induction fuel as [|fuel IH]; intros fuel' phase_results s Hle.
  - by left.
  - destruct fuel' as [|fuel']; [lia|]. cbn [phase_loop].
    apply below_bind; [apply below_refl|].
    intros [x|x] s1; [apply below_refl|]. apply IH. lia.
Qed.

Lemma research_below w fuel fuel' parsed_goal start_time s :
  fuel ≤ fuel' →
  below (research w fuel parsed_goal start_time s)
        (research w fuel' parsed_goal start_time s).
Proof.
  intros Hle. unfold research, _execute_phases.
  repeat
    first [ apply below_refl
          | apply below_bind;
            [first [apply below_refl | by apply phase_loop_below]|intros ? ?] ].
Qed.

Lemma execute_research_below w fuel fuel' parsed_goal s :
  fuel ≤ fuel' →
  below (execute_research w fuel parsed_goal s)
        (execute_research w fuel' parsed_goal s).
Proof.
  intros Hle. unfold execute_research.
  apply below_bind; [apply below_refl|]. intros start_time s1.
  apply below_bind; [|intros; apply below_refl].
  by apply below_catch, research_below.
Qed.


End StructuredResult.

(** ** A run that fails with partial results, and a run that never ends *)

Section SampleFailure.
Import Planner ExecutionAgent.
#[local] Open Scope nat_scope.

Definition storage_goal : GoalParser.Goal :=
  GoalParser.mkGoal (Some "grid storage") None None None None None None None.

(** A phase the planning answer gave no id. *)
Definition anonymous_phase : Phase :=
  {| ph_id := None;
     ph_title := "Storage";
     ph_description := "Study grid storage";
     ph_type := "research";
     ph_search_terms := Some ["storage"];
     ph_expected_sources := ["web"];
     ph_dependencies := [];
     ph_success_criteria := [];
     ph_priority := "medium" |}.

Definition anonymous_plan : Plan :=
  mkPlan "plan_1" "Sequential research" [anonymous_phase] "grid storage"
    None None.

Definition with_plan (w : World) (plan : Plan) : World :=
  {| w_time := w_time w;
     w_now := w_now w;
     w_create_research_session := w_create_research_session w;
     w_update_session_status := w_update_session_status w;
     w_save_research_phase := w_save_research_phase w;
     w_save_findings := w_save_findings w;
     w_save_citations := w_save_citations w;
     w_create_execution_plan := λ _ _, Ok plan;
     w_plan_updates := w_plan_updates w;
     w_search_web := w_search_web w;
     w_search_arxiv := w_search_arxiv w;
     w_store_documents := w_store_documents w;
     w_extract_key_information := w_extract_key_information w;
     w_extract_citations_from_content := w_extract_citations_from_content w;
     w_generate_text := w_generate_text w;
     w_critique_phase_results := w_critique_phase_results w;
     w_review_raises := w_review_raises w |}.

Definition anonymous_world : World := with_plan sample_world anonymous_plan.


End SampleFailure.

Section Replanning.
Import Planner ExecutionAgent.
#[local] Open Scope nat_scope.

(** The phase the update answer asks for, every time it is asked. *)
Definition follow_up : NewPhase :=
  mkNewPhase "Follow-up" "Follow the open question" (Some ["storage"]) "medium".

Definition follow_up_plan : Plan :=
  mkPlan "plan_1" "Sequential research" [appended_phase 0 follow_up]
    "grid storage" None None.

(** Collaborators that all answer, with a conclusion in every document and
    a new phase in every update answer. *)
Definition replanning_world : World :=
  {| w_time := λ _, 0%float;
     w_now := λ _, "2024-05-01T00:00:00";
     w_create_research_session := λ _ _, Ok "session-1";
     w_update_session_status := λ _ _ _, true;
     w_save_research_phase := λ _ _ _, Ok true;
     w_save_findings := λ _ _ findings, Ok (length findings);
     w_save_citations := λ _ _ citations, Ok (length citations);
     w_create_execution_plan := λ _ _, Ok follow_up_plan;
     w_plan_updates := λ _ _ _ _, Ok (mkUpdates true [follow_up] [] None);
     w_search_web :=
       λ _ term _, if String.eqb term "storage" then [storage_document] else [];
     w_search_arxiv := λ _ _, [];
     w_store_documents := λ _ docs, d_url <$> docs;
     w_extract_key_information :=
       λ _ _ _, Ok (mkKeyInfo [] [] [] ["More work is needed"]
                      (Some 0.5%float));
     w_extract_citations_from_content := λ _ _, Ok [];
     w_generate_text := λ _ _, Ok "Storage is growing.";
     w_critique_phase_results := λ _ _ _ _, mkPhaseCritique 0.5 [] [] [];
     w_review_raises := λ _, None |}.

Definition nth_id (k : nat) : string := "phase_" +:+ Py.str_of_nat (k + 1).

(** The plan after [k] updates, and the phases completed by then. *)
Definition grown (k : nat) (plan : Plan) : Prop :=
  phases plan = (λ j, appended_phase j follow_up) <$> seq 0 (S k).

Definition replanned (k : nat) (s : Agent) : Prop :=
  ∃ plan, current_plan s = Some plan ∧ grown k plan
    ∧ completed_phases s = nth_id <$> seq 0 k.

(** The run returns for no number of turns. *)
Definition never_returns (w : World) (parsed_goal : GoalParser.Goal)
    (s : Agent) : Prop :=
  ∀ fuel, (execute_research w fuel parsed_goal s).1 = Diverge.

Lemma nth_id_inj j k : nth_id j = nth_id k → j = k.
Proof.
  unfold nth_id, Py.str_of_nat. cbn. intros [= H].
  change (pretty (j + 1) = pretty (k + 1)) in H.
  apply (inj pretty) in H. lia.
Qed.

Lemma next_in_skip done_phases rest completed :
  Forall (λ p, get_id p ∈ completed) done_phases →
  next_in (done_phases ++ rest) completed = next_in rest completed.
Proof.
  induction 1 as [|p l Hp _ IH]; [done|]. cbn.
  by rewrite bool_decide_eq_true_2.
Qed.

Lemma next_of_grown k plan :
  grown k plan →
  get_next_phase plan (nth_id <$> seq 0 k) = Some (appended_phase k follow_up).
Proof.
  unfold grown, get_next_phase. intros ->.
  rewrite seq_S, fmap_app. cbn [fmap list_fmap Nat.add].
  rewrite next_in_skip.
  - cbn. rewrite bool_decide_eq_false_2; [done|].
    intros (j & Hid & Hj)%list_elem_of_fmap.
    apply nth_id_inj in Hid. subst j. apply elem_of_seq in Hj. lia.
  - apply Forall_fmap, Forall_forall. intros j Hj. cbn.
    apply list_elem_of_fmap. by exists j.
Qed.

Lemma bind_returns {A B} (m : M A) (k : A → M B) s a s1 :
  m s = (Val a, s1) → bind m k s = k a s1.
Proof. unfold bind. by intros ->. Qed.

Lemma bind_diverges {A B} (m : M A) (k : A → M B) s :
  (m s).1 = Diverge → (bind m k s).1 = Diverge.
Proof. unfold bind. by destruct (m s) as [[a|e|] s1]. Qed.

Lemma catch_diverges {A} (m : M A) s :
  (m s).1 = Diverge → (catch m s).1 = Diverge.
Proof. unfold catch. by destruct (m s) as [[a|e|] s1]. Qed.

(** Every follow-up phase returns with an insight. *)
Lemma follow_up_executed k s plan :
  current_plan s = Some plan →
  match (_execute_single_phase replanning_world (appended_phase k follow_up) s).1
  with
  | Val r => get_new_insights r = ["More work is needed"]
  | _ => False
  end.
Proof.
  destruct s as [limit current completed findings citations log session now].
  cbn. intros ->. vm_compute. reflexivity.
Qed.

(** The update appends one more follow-up phase. *)
Lemma follow_up_appended k s plan insight :
  current_plan s = Some plan → grown k plan →
  ∃ s', _consider_plan_updates replanning_world [insight] s = (Val tt, s')
    ∧ completed_phases s' = completed_phases s
    ∧ ∃ plan', current_plan s' = Some plan' ∧ grown (S k) plan'.
Proof.
  intros Hplan Hgrown.
  assert (Hlen : length (phases plan) = S k)
    by (rewrite Hgrown, length_fmap; apply length_seq).
  assert (Hmore : phases plan ++ [appended_phase (S k) follow_up]
                  = (λ j, appended_phase j follow_up) <$> seq 0 (S (S k)))
    by (rewrite (seq_S (S k)), fmap_app, <- Hgrown; done).
  unfold _consider_plan_updates, bind, get, catch, call_exc, call, modify.
  rewrite Hplan. cbn. rewrite Hlen.
  case_bool_decide; cbn; eexists; (split_and!; [reflexivity|done|]);
    eexists; (split; [reflexivity|]); exact Hmore.
Qed.

(** One turn on the plan after [k] updates: the last phase is run and
    completed, and the plan gets one more. *)
Lemma replanned_turn k phase_results s :
  replanned k s →
  ∃ phase_results' s',
    phase_iteration replanning_world phase_results s
    = (Val (inr phase_results'), s')
    ∧ replanned (S k) s'.
Proof.
  intros (plan & Hplan & Hgrown & Hdone).
  pose proof (follow_up_executed k s plan Hplan) as Hexec.
  pose proof (execute_single_phase_same_schedule replanning_world
                (appended_phase k follow_up) s) as (Hdone1 & Hplan1 & _).
  destruct (_execute_single_phase replanning_world
              (appended_phase k follow_up) s) as [[r|e|] s1] eqn:Hrun;
    cbn in Hexec, Hdone1, Hplan1; [|done|done].
  rewrite Hplan in Hplan1.
  destruct (follow_up_appended k
              (match session_of (append_completed (nth_id k) s1) with
               | Some _ => tick (append_completed (nth_id k) s1)
               | None => append_completed (nth_id k) s1
               end) plan "More work is needed")
    as (s' & Hupdate & Hdone' & plan' & Hplan' & Hgrown'); [|done|].
  { by destruct (session_of _). }
  exists (phase_results ++ [r]), s'. split.
  - unfold phase_iteration. unfold bind at 1. unfold get at 1.
    rewrite Hplan, Hdone, (next_of_grown k plan Hgrown).
    unfold bind at 1. unfold catch at 1. rewrite Hrun.
    unfold bind at 1. unfold catch, complete_phase.
    cbn [ph_id appended_phase]. fold (nth_id k). rewrite Hexec.
    unfold bind at 1. unfold modify at 1. unfold bind at 1. unfold get at 1.
    unfold bind at 1.
    destruct (session_of (append_completed (nth_id k) s1)) as [sid|];
      cbn -[_consider_plan_updates append_completed];
      by rewrite Hupdate.
  - exists plan'. split_and!; [done|done|].
    rewrite Hdone'.
    rewrite seq_S, fmap_app, <- Hdone, <- Hdone1.
    by destruct (session_of _).
Qed.

Lemma replanned_loop fuel : ∀ k phase_results s,
  replanned k s →
  (phase_loop replanning_world fuel phase_results s).1 = Diverge.
Proof.
  induction fuel as [|fuel IH]; intros k phase_results s Hs; [done|].
  destruct (replanned_turn k phase_results s Hs) as (pr' & s' & Hturn & Hs').
  cbn [phase_loop]. unfold bind. rewrite Hturn. by eapply IH.
Qed.

End Replanning.


(** * Part III: further properties of the modelled code *)

(** ** The list of completed phases *)

Section CompletedOnce.
Import Planner ExecutionAgent.
#[local] Open Scope nat_scope.

(** A computation that leaves the completed list alone. *)
Definition keeps_completed {A} (m : M A) : Prop :=
  ∀ s, completed_phases (m s).2 = completed_phases s.

Lemma keeps_completed_bind {A B} (m : M A) (k : A → M B) :
  keeps_completed m → (∀ a, keeps_completed (k a)) →
  keeps_completed (bind m k).
Proof.
  intros Hm Hk s. unfold bind. specialize (Hm s).
  destruct (m s) as [[a|e|] s1]; cbn in *; [|done|done].
  by rewrite Hk.
Qed.

Lemma log_step_keeps_completed w description :
  keeps_completed (_log_step w description).
Proof. by intros s. Qed.

Lemma synthesize_findings_keeps_completed w :
  keeps_completed (_synthesize_findings w).
Proof.
  intros s.
  apply (preserves_synthesize_findings same_completed); unfold same_completed;
    try (intros; done).
  intros s1 s2 s3 -> ->. done.
Qed.

Lemma final_quality_check_keeps_completed w :
  keeps_completed (_final_quality_check w).
Proof.
  intros s.
  apply (preserves_final_quality_check same_completed); unfold same_completed;
    try (intros; done).
  intros s1 s2 s3 -> ->. done.
Qed.

(** One turn of the loop leaves the completed list as it is, or appends the
    id of the phase selected, which was not in it. *)
Lemma phase_iteration_completed w phase_results s :
  completed_phases (phase_iteration w phase_results s).2 = completed_phases s
  ∨ ∃ phase_id,
      (phase_id ∉ completed_phases s)
      ∧ completed_phases (phase_iteration w phase_results s).2
        = completed_phases s ++ [phase_id].
Proof.
  destruct (phase_iteration w phase_results s) as [turn s'] eqn:Hturn.
  cbn [snd]. revert Hturn.
  unfold phase_iteration. unfold bind at 1. unfold get at 1.
  destruct (current_plan s) as [plan|]; [|intros [= _ <-]; by left].
  destruct (get_next_phase plan (completed_phases s)) as [next|] eqn:Hnext;
    [|intros [= _ <-]; by left].
  pose proof (next_in_spec (phases plan) (completed_phases s)) as Hspec.
  unfold get_next_phase in Hnext. rewrite Hnext in Hspec.
  destruct Hspec as (_ & _ & _ & [Hnew _] & _).
  pose proof (execute_single_phase_same_schedule w next s) as (Hdone1 & _).
  unfold bind at 1. unfold catch at 1.
  destruct (_execute_single_phase w next s) as [[r|e|] s1]; cbn in Hdone1;
    [| |intros [= _ <-]; by left].
  - unfold bind at 1.
    destruct (ph_id next) as [phase_id|] eqn:Hid.
    + destruct (complete_phase_completes w next r phase_id s1 Hid)
        as (outcome & s2 & -> & Hdone').
      unfold get_id in Hnew. rewrite Hid in Hnew.
      destruct outcome as [[]|e]; unfold record_failure; rewrite ?Hid;
        intros [= _ <-]; right; exists phase_id;
        (split; [done|]); by rewrite <- Hdone1.
    + unfold catch, complete_phase, record_failure. rewrite Hid.
      intros [= _ <-]. by left.
  - unfold record_failure. destruct (ph_id next); intros [= _ <-]; by left.
Qed.

Lemma phase_loop_completed_once w fuel : ∀ phase_results s,
  NoDup (completed_phases s) →
  NoDup (completed_phases (phase_loop w fuel phase_results s).2).
Proof.
  induction fuel as [|fuel IH]; intros pr s Hs; [done|].
  cbn [phase_loop]. unfold bind.
  pose proof (phase_iteration_completed w pr s) as Hturn.
  destruct (phase_iteration w pr s) as [[[x|x]|e|] s1]; cbn in Hturn.
  all: assert (Hs1 : NoDup (completed_phases s1))
         by (destruct Hturn as [->|(i & Hi & ->)]; [done|];
             apply NoDup_app; split_and!; [done| |apply NoDup_singleton];
             intros j Hj ->%list_elem_of_singleton; done).
  all: try done.
  by apply IH.
Qed.

Lemma research_completed_once w fuel parsed_goal start_time s :
  NoDup (completed_phases s) →
  NoDup (completed_phases (research w fuel parsed_goal start_time s).2).
Proof.
  intros Hs. unfold research, _execute_phases.
  unfold bind at 1. unfold call_exc at 1.
  destruct (w_create_research_session w (clock s) _) as [sid|e]; [|done].
  unfold bind at 1. unfold modify at 1.
  unfold bind at 1. rewrite log_step_returns.
  unfold bind at 1. unfold call_exc at 1.
  destruct (w_create_execution_plan w _ _) as [plan|e]; [|done].
  unfold bind at 1. unfold modify at 1.
  unfold bind at 1. rewrite log_step_returns.
  unfold bind at 1.
  match goal with
  | |- context [phase_loop w fuel [] ?s0] =>
      pose proof (phase_loop_completed_once w fuel [] s0 Hs) as Hloop;
      destruct (phase_loop w fuel [] s0) as [[pr|e|] s1]
  end; [|done|done].
  cbn [snd] in Hloop.
  unfold bind at 1. rewrite log_step_returns.
  unfold bind at 1.
  pose proof (synthesize_findings_keeps_completed w
                (_log_step w "Synthesizing research findings" s1).2) as Hsyn.
  destruct (_synthesize_findings w _) as [[syn|e|] s2]; cbn in Hsyn;
    [|by cbn; rewrite Hsyn..].
  unfold bind at 1. rewrite log_step_returns.
  unfold bind at 1.
  pose proof (final_quality_check_keeps_completed w
                (_log_step w "Conducting final quality review" s2).2) as Hfin.
  destruct (_final_quality_check w _) as [[rev|e|] s3]; cbn in Hfin;
    [|by cbn; rewrite Hfin, Hsyn..].
  assert (Hs3 : NoDup (completed_phases s3)) by (by rewrite Hfin, Hsyn).
  unfold bind at 1. unfold call at 1.
  unfold bind at 1. unfold get at 1.
  unfold bind at 1.
  destruct (session_of (tick s3)) as [sid'|]; [|done].
  unfold bind at 1. unfold call_exc at 1.
  destruct (w_save_findings w _ _ _); [|done].
  unfold bind at 1. unfold call_exc at 1.
  destruct (w_save_citations w _ _ _); [|done].
  done.
Qed.
(** In every run, whatever the collaborators answer, no phase id is appended
    to the completed list twice, and nothing is ever removed from the list:
    a list without duplicates before [execute_research] is extended to a
    list without duplicates. *)
Theorem completed_phases_once (w : World) (fuel : nat)
    (parsed_goal : GoalParser.Goal) (s : Agent) :
  NoDup (completed_phases s) →
  let s' := (execute_research w fuel parsed_goal s).2 in
  NoDup (completed_phases s')
  ∧ completed_phases s `prefix_of` completed_phases s'.
Proof.
  intros Hs. cbv zeta. split.
  - pose proof (research_completed_once w fuel parsed_goal
                  (w_time w (clock s)) (tick s) Hs) as Hres.
    unfold execute_research. unfold bind at 1. unfold call at 1.
    unfold bind at 1. unfold catch at 1.
    destruct (research w fuel parsed_goal _ _) as [[r|e|] s1]; cbn in Hres;
      [done| |done].
    unfold research_failed, bind, get, call, ret.
    by destruct (session_of s1).
  - apply (preserves_execute_research
             (λ s s', completed_phases s `prefix_of` completed_phases s'));
      try done.
    + intros s1 s2 s3. apply transitivity.
    + intros phase_id s0. by exists [phase_id].
Qed.

End CompletedOnce.

Lemma completed_phases_once_witness :
  NoDup (ExecutionAgent.completed_phases
           (ExecutionAgent.execute_research sample_world 3 storage_goal
              (ExecutionAgent.new_agent 10)).2)
  ∧ [] `prefix_of`
      ExecutionAgent.completed_phases
        (ExecutionAgent.execute_research sample_world 3 storage_goal
           (ExecutionAgent.new_agent 10)).2.
Proof.
  apply (completed_phases_once sample_world 3 storage_goal
           (ExecutionAgent.new_agent 10)).
  apply NoDup_nil_2.
Defined.

(** ** What a phase adds to the lists of the agent *)

Section PhaseLists.
Import Planner ExecutionAgent.
#[local] Open Scope nat_scope.
#[local] Set Warnings "-inexact-float".

(** The two global lists are the same in both states. *)
Definition same_lists (s s' : Agent) : Prop :=
  all_findings s' = all_findings s ∧ all_citations s' = all_citations s.

Lemma same_lists_trans s1 s2 s3 :
  same_lists s1 s2 → same_lists s2 s3 → same_lists s1 s3.
Proof. intros [H1 H2] [H3 H4]. split; congruence. Qed.

Lemma retrieve_same_lists w search_terms source_types s :
  same_lists s (retrieve_from_sources w search_terms source_types s).2.
Proof.
  apply preserves_retrieve; try done. apply same_lists_trans.
Qed.

Lemma synthesize_phase_same_lists w findings phase s :
  same_lists s (_synthesize_phase_findings w findings phase s).2.
Proof.
  apply preserves_synthesize_phase; try done. apply same_lists_trans.
Qed.

(** What one document adds: at most one finding, of this phase and this
    document, to the local and to the global list alike. *)
Definition added_by (phase_id : string) (docs : list Document)
    (acc acc' : list Finding * list Citation) (s s' : Agent) : Prop :=
  ∃ new_findings new_citations,
    acc' = (acc.1 ++ new_findings, acc.2 ++ new_citations)
    ∧ all_findings s' = all_findings s ++ new_findings
    ∧ all_citations s' = all_citations s ++ new_citations
    ∧ length new_findings ≤ length docs
    ∧ Forall (λ f, f_phase_id f = phase_id
                   ∧ ∃ doc, doc ∈ docs ∧ f_source_url f = d_url doc
                            ∧ f_source_title f = d_title doc) new_findings.

Lemma process_document_adds w phase_id doc acc s :
  ∃ acc', (process_document w phase_id doc acc s).1 = Val acc'
    ∧ added_by phase_id [doc] acc acc' s
        (process_document w phase_id doc acc s).2.
Proof.
  destruct acc as [pf pc].
  unfold process_document, bind, get, catch, call_exc, modify, ret.
  destruct (current_plan s) as [plan|].
  2: { eexists. split; [done|]. exists [], []. cbn.
       rewrite !app_nil_r. split_and!; try done. lia. }
  destruct (w_extract_key_information w _ _ _) as [key_info|e]; cbn.
  2: { eexists. split; [done|]. exists [], []. cbn.
       rewrite !app_nil_r. split_and!; try done. lia. }
  destruct (0.3 <? relevance key_info)%float; cbn;
    destruct (w_extract_citations_from_content w _ doc) as [cited|e]; cbn;
    eexists; (split; [done|]).
  - eexists [_], cited. cbn. split_and!; try done.
    repeat constructor. exists doc. split; [apply list_elem_of_here|done].
  - eexists [_], []. cbn. rewrite !app_nil_r. split_and!; try done.
    repeat constructor. exists doc. split; [apply list_elem_of_here|done].
  - exists [], cited. cbn. rewrite !app_nil_r. split_and!; try done. lia.
  - exists [], []. cbn. rewrite !app_nil_r. split_and!; try done. lia.
Qed.

Lemma process_documents_adds w phase_id docs : ∀ acc s,
  ∃ acc', (process_documents w phase_id docs acc s).1 = Val acc'
    ∧ added_by phase_id docs acc acc' s
        (process_documents w phase_id docs acc s).2.
Proof.
  induction docs as [|doc rest IH]; intros acc s; cbn [process_documents].
  - exists acc. split; [done|]. exists [], []. cbn. rewrite !app_nil_r.
    destruct acc. split_and!; done.
  - destruct (process_document_adds w phase_id doc acc s)
      as (acc1 & Hval & nf1 & nc1 & -> & Hf1 & Hc1 & Hlen1 & Hall1).
    unfold bind.
    destruct (process_document w phase_id doc acc s) as [r s1].
    cbn in Hval, Hf1, Hc1. subst r.
    destruct (IH (acc.1 ++ nf1, acc.2 ++ nc1) s1)
      as (acc2 & Hval2 & nf2 & nc2 & -> & Hf2 & Hc2 & Hlen2 & Hall2).
    exists (acc.1 ++ nf1 ++ nf2, acc.2 ++ nc1 ++ nc2).
    split; [by rewrite Hval2; cbn; rewrite <- !app_assoc|].
    exists (nf1 ++ nf2), (nc1 ++ nc2). cbn in *.
    rewrite Hf2, Hc2, Hf1, Hc1, <- !app_assoc, length_app.
    split_and!; try done; [lia|].
    apply Forall_app. split.
    + eapply Forall_impl; [exact Hall1|].
      intros f (Hid & d & Hd & Hrest). split; [done|].
      exists d. split; [|done].
      apply list_elem_of_singleton in Hd as ->. apply list_elem_of_here.
    + eapply Forall_impl; [exact Hall2|].
      intros f (Hid & d & Hd & Hrest). split; [done|].
      exists d. split; [|done]. by apply list_elem_of_further.
Qed.

(** The findings and citations in the result of a phase are exactly what the
    phase appended to the lists of the agent, one finding per retrieved
    document at most, each of this phase and of one of its documents; the
    insights are computed from these findings.  A phase that returns the
    failure result has appended nothing.  However the phase ends, the two
    lists have only grown. *)
Theorem phase_result_is_what_was_added (w : World) (phase : Phase) (s : Agent) :
  match _execute_single_phase w phase s with
  | (Val (PhaseDone phase_id _ documents_retrieved _ findings citations _ _
            new_insights), s') =>
      all_findings s' = all_findings s ++ findings
      ∧ all_citations s' = all_citations s ++ citations
      ∧ length findings ≤ documents_retrieved
      ∧ 0 < documents_retrieved
      ∧ phase_id = default "unknown" (ph_id phase)
      ∧ Forall (λ f, f_phase_id f = phase_id) findings
      ∧ new_insights = _extract_new_insights findings
  | (Val (PhaseFailed _ _), s') =>
      all_findings s' = all_findings s ∧ all_citations s' = all_citations s
  | (_, s') =>
      all_findings s `prefix_of` all_findings s'
      ∧ all_citations s `prefix_of` all_citations s'
  end.
Proof.
  unfold _execute_single_phase. unfold bind at 1. rewrite log_step_returns.
  unfold bind at 1.
  pose proof (retrieve_same_lists w (ph_search_terms phase)
                (ph_expected_sources phase)
                (_log_step w ("Executing phase: " +:+ ph_title phase) s).2)
    as Hret.
  destruct (retrieve_from_sources w _ _ _) as [[docs|e|] s1];
    destruct Hret as [Hf1 Hc1]; cbn in Hf1, Hc1;
    [|by rewrite Hf1, Hc1|by rewrite Hf1, Hc1].
  destruct docs as [|doc rest]; [done|].
  unfold bind at 1. unfold call at 1. unfold bind at 1.
  destruct (process_documents_adds w (default "unknown" (ph_id phase))
              (doc :: rest) ([], []) (tick s1))
    as (acc & Hval & nf & nc & -> & Hf2 & Hc2 & Hlen & Hall).
  destruct (process_documents w _ _ _ _) as [r s2]. cbn in Hval, Hf2, Hc2.
  subst r. cbn [fst snd app].
  unfold bind at 1.
  pose proof (synthesize_phase_same_lists w nf phase s2) as [Hf3 Hc3].
  destruct (returns_synthesize_phase w nf phase s2) as (summary & s3 & Hsyn).
  rewrite Hsyn in Hf3, Hc3 |- *. cbn in Hf3, Hc3.
  unfold bind, call, ret. cbn.
  split_and!; try congruence; try (cbn in Hlen; lia).
  eapply Forall_impl; [exact Hall|]. by intros f [? _].
Qed.

End PhaseLists.

(** ** Retrieval *)

Section Retrieval.
Import Planner ExecutionAgent.
#[local] Open Scope nat_scope.

Lemma unique_by_url_spec results : ∀ seen_urls,
  let unique := unique_by_url seen_urls results in
  unique `sublist_of` results
  ∧ NoDup (d_url <$> unique)
  ∧ Forall (λ d, d_url d ≠ "" ∧ d_url d ∉ seen_urls) unique
  ∧ (∀ r, r ∈ results → d_url r ≠ "" → d_url r ∉ seen_urls →
          d_url r ∈ d_url <$> unique).
Proof.
  induction results as [|r rest IH]; intros seen; cbn.
  - split_and!; [done|constructor|constructor|]. by intros r Hr%elem_of_nil.
  - case_bool_decide as Hnew.
    + destruct Hnew as [Hne Hnew].
      destruct (IH ({[d_url r]} ∪ seen)) as (Hsub & Hnd & Hall & Hcov).
      split_and!.
      * by apply sublist_skip.
      * cbn. apply NoDup_cons. split; [|done].
        intros (d & Hd & Hin)%list_elem_of_fmap.
        apply (proj1 (Forall_forall _ _) Hall) in Hin as [_ Hin].
        apply Hin. rewrite <- Hd. set_solver.
      * constructor; [done|].
        eapply Forall_impl; [exact Hall|]. intros d [? Hd]. split; [done|].
        set_solver.
      * intros r' Hr' Hne' Hnew'. cbn.
        destruct (decide (d_url r' = d_url r)) as [->|Hdiff];
          [apply list_elem_of_here|].
        apply list_elem_of_further.
        apply elem_of_cons in Hr' as [->|Hr']; [done|].
        apply Hcov; [done|done|set_solver].
    + destruct (IH seen) as (Hsub & Hnd & Hall & Hcov).
      split_and!; [by apply sublist_cons|done|done|].
      intros r' Hr' Hne' Hnew'.
      apply elem_of_cons in Hr' as [->|Hr']; [|by apply Hcov].
      exfalso. by apply Hnew.
Qed.

(** [retrieve_from_sources] on a list of search terms returns, and what it
    returns has no two documents with the same url and no document without
    url; it keeps the order of the search results, and every url found by a
    search is the url of a document returned. *)
Theorem retrieved_documents_unique (w : World) (terms source_types : list string)
    (s : Agent) :
  ∃ all_results s',
    search_terms_loop w (length terms) terms source_types s
    = (Val all_results, s')
    ∧ retrieve_from_sources w (Some terms) source_types s
      = (Val (unique_by_url ∅ all_results), s')
    ∧ unique_by_url ∅ all_results `sublist_of` all_results
    ∧ NoDup (d_url <$> unique_by_url ∅ all_results)
    ∧ Forall (λ d, d_url d ≠ "") (unique_by_url ∅ all_results)
    ∧ (∀ r, r ∈ all_results → d_url r ≠ "" →
            d_url r ∈ d_url <$> unique_by_url ∅ all_results).
Proof.
  destruct (returns_search_terms_loop w (length terms) terms source_types s)
    as (all_results & s' & Hloop).
  exists all_results, s'.
  destruct (unique_by_url_spec all_results ∅) as (Hsub & Hnd & Hall & Hcov).
  split_and!; try done.
  - unfold retrieve_from_sources, bind. by rewrite Hloop.
  - eapply Forall_impl; [exact Hall|]. by intros d [? _].
  - intros r Hr Hne. apply Hcov; [done|done|set_solver].
Qed.

End Retrieval.

(** ** New insights and re-planning *)

Section Insights.
Import Planner ExecutionAgent.
#[local] Open Scope nat_scope.
#[local] Set Warnings "-inexact-float".

Lemma elem_of_concat {A} (x : A) (ls : list (list A)) :
  x ∈ concat ls ↔ ∃ l, x ∈ l ∧ l ∈ ls.
Proof.
  induction ls as [|l0 ls IH]; cbn.
  - split; [by intros ?%elem_of_nil|by intros (l & _ & ?%elem_of_nil)].
  - rewrite elem_of_app, IH. split.
    + intros [H|(l & Hx & Hl)].
      * exists l0. split; [done|apply list_elem_of_here].
      * exists l. split; [done|by apply list_elem_of_further].
    + intros (l & Hx & [->|Hl]%elem_of_cons); [by left|right; eauto].
Qed.

(** [_extract_new_insights] returns at most five insights, each of them a
    conclusion of one of the findings or a key finding of a finding whose
    relevance is above 0.8; and a phase result without insights (the failure
    result of a phase, or findings without conclusions and of relevance at
    most 0.8) leaves the plan of the agent as it is: the planner is not
    asked for an update. *)
Theorem insights_bounded_and_needed (findings : list Finding) :
  length (_extract_new_insights findings) ≤ 5
  ∧ (∀ insight, insight ∈ _extract_new_insights findings →
       ∃ finding, finding ∈ findings
         ∧ (insight ∈ f_conclusions finding
            ∨ (insight ∈ f_key_findings finding
               ∧ (0.8 <? f_relevance_score finding)%float = true)))
  ∧ (Forall (λ f, f_conclusions f = []
                  ∧ (0.8 <? f_relevance_score f)%float = false) findings →
     _extract_new_insights findings = [])
  ∧ (∀ w next_phase result s,
       get_new_insights result = [] →
       current_plan (catch (complete_phase w next_phase result) s).2
       = current_plan s
       ∧ clock (catch (complete_phase w next_phase result) s).2
         ≤ S (clock s)).
Proof.
  unfold _extract_new_insights. split_and!.
  - rewrite length_take. lia.
  - intros insight Hin. apply elem_of_take in Hin as (i & Hin & _).
    apply list_elem_of_lookup_2 in Hin.
    apply elem_of_concat in Hin as (l & Hin & Hl).
    apply list_elem_of_fmap in Hl as (finding & -> & Hfinding).
    exists finding. split; [done|].
    apply elem_of_app in Hin as [Hin|Hin]; [right|by left].
    destruct (0.8 <? f_relevance_score finding)%float; [done|].
    by apply elem_of_nil in Hin.
  - intros Hall.
    assert (Hnil : concat
              ((λ finding,
                  (if (0.8 <? f_relevance_score finding)%float
                   then f_key_findings finding else [])
                  ++ f_conclusions finding) <$> findings) = []).
    { induction Hall as [|f l [Hc Hr] _ IH]; [done|].
      cbn. by rewrite Hc, Hr, IH. }
    by rewrite Hnil.
  - intros w next_phase result s Hnone.
    unfold catch, complete_phase.
    destruct (ph_id next_phase); [|cbn; split; [done|lia]].
    rewrite Hnone. unfold bind, modify, get, call_exc, ret.
    destruct (session_of _); cbn; [|split; [done|lia]].
    destruct (w_save_research_phase w _ _ _); cbn; (split; [done|lia]).
Qed.

End Insights.

(** ** Plan updates *)

Section PlanUpdates.
Import Planner.
#[local] Open Scope nat_scope.

Lemma append_phases_ids new_phases : ∀ phases,
  ph_id <$> append_phases phases new_phases
  = (ph_id <$> phases)
    ++ ((λ k, Some (nth_id (length phases + k))) <$> seq 0 (length new_phases)).
Proof.
  unfold append_phases.
  induction new_phases as [|np rest IH]; intros phases; cbn [fold_left].
  - cbn. by rewrite app_nil_r.
  - rewrite IH, fmap_app, <- app_assoc, length_app. cbn [length seq fmap list_fmap].
    rewrite Nat.add_0_r. f_equal. cbn. f_equal.
    rewrite <- fmap_S_seq, <- list_fmap_compose. apply list_fmap_ext.
    intros i k _. cbn. do 2 f_equal. lia.
Qed.

Lemma modify_phase_ids phases m phases' :
  modify_phase phases m = Ok phases' → ph_id <$> phases' = ph_id <$> phases.
Proof.
  revert phases'. induction phases as [|phase rest IH]; intros phases'; cbn.
  - by intros [= <-].
  - destruct (ph_id phase) as [i|] eqn:Hid; [|done].
    case_bool_decide.
    + intros [= <-]. cbn. by rewrite Hid.
    + destruct (modify_phase rest m) as [rest'|e]; [|done].
      intros [= <-]. cbn. by rewrite Hid, (IH rest').
Qed.

Lemma modify_phases_loop_ids ms : ∀ phases,
  ph_id <$> (modify_phases_loop phases ms).1 = ph_id <$> phases.
Proof.
  induction ms as [|m rest IH]; intros phases; cbn; [done|].
  destruct (modify_phase phases m) as [phases'|e] eqn:Hm; [|done].
  by rewrite IH, (modify_phase_ids phases m phases').
Qed.

(** [update_plan] never removes, renames or reorders a phase: on an update
    answer in the format of the update prompt it appends one phase per entry
    of [new_phases], numbered on from the length of the plan.  The phase
    list is shared between the current plan and the plan returned, so when a
    modification raises, the plan returned is the current one with the new
    phases already in it.  Without an update (no answer, or
    [update_needed] false) both plans are the plan given. *)
Theorem update_plan_appends (plan : Plan) (answer : exc Updates) (now : string) :
  let current := (update_plan plan answer now).1 in
  let updated := (update_plan plan answer now).2 in
  phases current = phases updated
  ∧ research_goal updated = research_goal plan
  ∧ plan_id updated = plan_id plan
  ∧ match answer with
    | Ok updates =>
        if update_needed updates
        then ph_id <$> phases updated
             = (ph_id <$> phases plan)
               ++ ((λ k, Some (nth_id (length (phases plan) + k)))
                     <$> seq 0 (length (new_phases updates)))
        else current = plan ∧ updated = plan
    | Raise _ => current = plan ∧ updated = plan
    end.
Proof.
  cbv zeta. unfold update_plan, _apply_plan_updates.
  destruct answer as [updates|e]; [|done].
  destruct (update_needed updates); [|done]. cbn [negb].
  pose proof (modify_phases_loop_ids (modify_phases updates)
                (append_phases (phases plan) (new_phases updates))) as Hids.
  destruct (modify_phases_loop _ _) as [phases2 [e|]]; cbn in Hids |- *;
    by rewrite Hids, append_phases_ids.
Qed.

End PlanUpdates.

(** ** De-duplication of citations *)

Section Deduplication.
Import CitationEngine.
#[local] Open Scope nat_scope.

(** Two citations clash: they share a url that is not empty, or a title
    that is not empty, case apart. *)
Definition clash (a b : Citation) : Prop :=
  (c_url a ≠ "" ∧ c_url a = c_url b)
  ∨ (Py.lower (c_title a) ≠ "" ∧ Py.lower (c_title a) = Py.lower (c_title b)).

Definition fresh (seen_urls seen_titles : gset string) (c : Citation) : Prop :=
  ¬ (c_url c ≠ "" ∧ c_url c ∈ seen_urls)
  ∧ ¬ (Py.lower (c_title c) ≠ "" ∧ Py.lower (c_title c) ∈ seen_titles).

Lemma dedup_from_cons_fresh seen_urls seen_titles c rest :
  fresh seen_urls seen_titles c →
  dedup_from seen_urls seen_titles (c :: rest)
  = c :: dedup_from (remember (c_url c) seen_urls)
           (remember (Py.lower (c_title c)) seen_titles) rest.
Proof.
  intros [Hu Ht]. cbn. unfold seen_before.
  by rewrite !bool_decide_eq_false_2.
Qed.

Lemma dedup_from_cons_seen seen_urls seen_titles c rest :
  ¬ fresh seen_urls seen_titles c →
  dedup_from seen_urls seen_titles (c :: rest)
  = dedup_from seen_urls seen_titles rest.
Proof.
  intros Hseen. cbn. unfold seen_before.
  case_bool_decide as Hu; [done|]. case_bool_decide as Ht; [done|].
  exfalso. by apply Hseen.
Qed.

Lemma fresh_remember seen_urls seen_titles c d :
  fresh (remember (c_url c) seen_urls)
        (remember (Py.lower (c_title c)) seen_titles) d ↔
  fresh seen_urls seen_titles d ∧ ¬ clash c d.
Proof.
  unfold fresh, clash, CitationEngine.remember.
  repeat case_bool_decide;
    rewrite ?elem_of_union, ?elem_of_singleton; intuition congruence.
Qed.

Lemma dedup_from_spec citations : ∀ seen_urls seen_titles,
  let unique := dedup_from seen_urls seen_titles citations in
  unique `sublist_of` citations
  ∧ Forall (fresh seen_urls seen_titles) unique
  ∧ (∀ i j a b, i < j → unique !! i = Some a → unique !! j = Some b →
                ¬ clash a b)
  ∧ dedup_from seen_urls seen_titles unique = unique
  ∧ (∀ c, c ∈ citations →
          ¬ fresh seen_urls seen_titles c ∨ c ∈ unique
          ∨ ∃ kept, kept ∈ unique ∧ clash kept c).
Proof.
  induction citations as [|c rest IH]; intros su st.
  - cbn. split_and!; [done|constructor|by intros [|?] ? ? ? ? ?|done|].
    by intros c ?%elem_of_nil.
  - destruct (decide (fresh su st c)) as [Hfresh|Hseen].
    + cbv zeta. rewrite dedup_from_cons_fresh by done.
      destruct (IH (remember (c_url c) su)
                   (remember (Py.lower (c_title c)) st))
        as (Hsub & Hall & Hpair & Hidem & Hcov).
      set (unique := dedup_from _ _ rest) in *.
      split_and!.
      * by apply sublist_skip.
      * constructor; [done|].
        eapply Forall_impl; [exact Hall|].
        by intros d [? _]%fresh_remember.
      * intros [|i] [|j] a b Hij Ha Hb; try lia; cbn in Ha, Hb.
        -- injection Ha as <-.
           apply list_elem_of_lookup_2 in Hb.
           apply (proj1 (Forall_forall _ _) Hall) in Hb.
           by apply fresh_remember in Hb as [_ ?].
        -- apply (Hpair i j); [lia|done|done].
      * rewrite dedup_from_cons_fresh by done. by rewrite Hidem.
      * intros d [->|Hd]%elem_of_cons; [right; left; apply list_elem_of_here|].
        destruct (Hcov d Hd) as [Hn|[Hin|(k & Hk & Hclash)]].
        -- destruct (decide (fresh su st d)) as [Hd_fresh|]; [|by left].
           right. right. exists c. split; [apply list_elem_of_here|].
           destruct (decide (clash c d)); [done|].
           exfalso. apply Hn. by apply fresh_remember.
        -- right. left. by apply list_elem_of_further.
        -- right. right. exists k. split; [by apply list_elem_of_further|done].
    + cbv zeta. rewrite dedup_from_cons_seen by done.
      destruct (IH su st) as (Hsub & Hall & Hpair & Hidem & Hcov).
      split_and!; [by apply sublist_cons|done|done|done|].
      intros d [->|Hd]%elem_of_cons; [by left|by apply Hcov].
Qed.

(** [_deduplicate_citations] keeps a sub-list of the citations, in their
    order and starting with the first one; no two citations kept share a
    url or a title (empty ones apart); every citation dropped shares one
    with a citation kept; and de-duplicating twice changes nothing more. *)
Theorem deduplicate_citations_spec (citations : list Citation) :
  let unique := _deduplicate_citations citations in
  unique `sublist_of` citations
  ∧ head unique = head citations
  ∧ (∀ i j a b, i < j → unique !! i = Some a → unique !! j = Some b →
                ¬ clash a b)
  ∧ (∀ c, c ∈ citations → c ∈ unique ∨ ∃ kept, kept ∈ unique ∧ clash kept c)
  ∧ _deduplicate_citations unique = unique.
Proof.
  assert (Hfresh : ∀ c, fresh ∅ ∅ c)
    by (intros c; split; intros [_ ?%elem_of_empty]; done).
  unfold _deduplicate_citations.
  destruct (dedup_from_spec citations ∅ ∅)
    as (Hsub & _ & Hpair & Hidem & Hcov).
  cbv zeta. split_and!; try done.
  - destruct citations as [|c rest]; [done|].
    by rewrite dedup_from_cons_fresh.
  - intros c Hc. destruct (Hcov c Hc) as [Hn|H]; [|done].
    exfalso. apply Hn, Hfresh.
Qed.

End Deduplication.

(** ** The order of the bibliography *)

Section BibliographyOrder.
Import CitationEngine.
#[local] Open Scope nat_scope.

Definition key_le (a b : Citation) : Prop :=
  String.leb (sort_key a) (sort_key b) = true.

Lemma key_le_total a b : key_le a b ∨ key_le b a.
Proof. apply String.leb_total. Qed.

Lemma insert_sorted_perm x sorted : insert_sorted x sorted ≡ₚ x :: sorted.
Proof.
  induction sorted as [|y rest IH]; cbn; [done|].
  destruct (String.leb _ _); [done|]. rewrite IH. apply Permutation_swap.
Qed.

(** Each citation of the list is not after the next one. *)
Fixpoint ascending (l : list Citation) : Prop :=
  match l with
  | a :: (b :: _) as rest => key_le a b ∧ ascending rest
  | _ => True
  end.

Lemma insert_sorted_ascending x sorted :
  ascending sorted → ascending (insert_sorted x sorted).
Proof.
  induction sorted as [|y rest IH]; [done|].
  intros Hsorted. cbn [insert_sorted].
  destruct (String.leb (sort_key x) (sort_key y)) eqn:Hle; [by split|].
  assert (Hyx : key_le y x).
  { destruct (key_le_total x y) as [H|H]; [|done].
    unfold key_le in H. congruence. }
  destruct rest as [|z rest]; [by split|].
  destruct Hsorted as [Hyz Hrest]. specialize (IH Hrest).
  cbn [insert_sorted] in IH |- *.
  destruct (String.leb (sort_key x) (sort_key z)); by split.
Qed.

Lemma insert_sorted_stable k x sorted :
  filter (λ c, sort_key c = k) (insert_sorted x sorted)
  = filter (λ c, sort_key c = k) (x :: sorted).
Proof.
  induction sorted as [|y rest IH]; cbn; [done|].
  destruct (String.leb (sort_key x) (sort_key y)) eqn:Hle; [done|].
  rewrite filter_cons, IH, !filter_cons.
  destruct (decide (sort_key y = k)) as [Hy|Hy];
    destruct (decide (sort_key x = k)) as [Hx|Hx]; try done.
  exfalso. rewrite Hx, <- Hy in Hle.
  destruct (String.leb_total (sort_key y) (sort_key y)); congruence.
Qed.

(** The citations listed in the bibliography are the de-duplicated ones,
    each once, in ascending order of their lowercased titles, citations with
    the same lowercased title in their original order; the bibliography has
    at most one entry per citation given, and for no citation it is the
    header alone. *)
Theorem bibliography_order (env : Env) (citations : list Citation) :
  let unique := _deduplicate_citations citations in
  let listed := sorted_by_title unique in
  listed ≡ₚ unique
  ∧ ascending listed
  ∧ (∀ k, filter (λ c, sort_key c = k) listed
          = filter (λ c, sort_key c = k) unique)
  ∧ formatted_citations env citations
    = filter (λ formatted, Py.nonempty formatted = true)
        (format_citation env <$> listed)
  ∧ length (formatted_citations env citations) ≤ length citations
  ∧ create_bibliography env [] = header env.
Proof.
  cbv zeta.
  assert (Hperm : ∀ l, sorted_by_title l ≡ₚ l).
  { induction l as [|x l IH]; cbn; [done|].
    by rewrite insert_sorted_perm, IH. }
  split_and!; try done.
  - generalize (_deduplicate_citations citations).
    induction l as [|x l IH]; [done|].
    by apply insert_sorted_ascending.
  - intros k. generalize (_deduplicate_citations citations).
    induction l as [|x l IH]; [done|].
    change (sorted_by_title (x :: l))
      with (insert_sorted x (sorted_by_title l)).
    by rewrite insert_sorted_stable, !filter_cons, IH.
  - unfold formatted_citations.
    etransitivity; [apply length_filter|].
    rewrite length_fmap, (Permutation_length (Hperm _)).
    apply sublist_length.
    by destruct (dedup_from_spec citations ∅ ∅) as [? _].
Qed.

End BibliographyOrder.

(** ** Facts on strings *)

Section StringFacts.
Import Py.
#[local] Open Scope nat_scope.



Lemma append_cons c s t : String c s +:+ t = String c (s +:+ t).
Proof. reflexivity. Qed.

Lemma all_chars_impl (p q : ascii → bool) s :
  (∀ c, p c = true → q c = true) →
  GoalParser.all_chars p s = true → GoalParser.all_chars q s = true.
Proof.
  intros Hpq. induction s as [|c r IH]; cbn; [done|].
  intros [Hc Hr]%andb_prop. by rewrite (Hpq c Hc), IH.
Qed.

Lemma all_chars_lstrip p s : GoalParser.all_chars p s = true → GoalParser.all_chars p (lstrip s) = true.
Proof.
  induction s as [|c r IH]; cbn; [done|].
  intros H. destruct (is_space c); [|done].
  apply andb_prop in H as [_ H]. by apply IH.
Qed.

Lemma all_chars_rstrip p s : GoalParser.all_chars p s = true → GoalParser.all_chars p (rstrip s) = true.
Proof.
  induction s as [|c r IH]; cbn; [done|].
  intros [Hc Hr]%andb_prop. specialize (IH Hr).
  destruct (rstrip r) as [|c' r']; [destruct (is_space c)|]; cbn in *;
    by rewrite ?Hc, ?IH.
Qed.

Lemma all_chars_strip p s : GoalParser.all_chars p s = true → GoalParser.all_chars p (strip s) = true.
Proof. intros H. by apply all_chars_rstrip, all_chars_lstrip. Qed.

Lemma all_chars_app p s t :
  GoalParser.all_chars p (s +:+ t) = GoalParser.all_chars p s && GoalParser.all_chars p t.
Proof.
  induction s as [|c r IH]; [done|].
  change (String c r +:+ t) with (String c (r +:+ t)).
  cbn. by rewrite IH, andb_assoc.
Qed.

Lemma startswith_contains sub s : startswith sub s = true → contains sub s = true.
Proof. destruct s; cbn; [done|]. by intros ->. Qed.

Lemma contains_cons sub c s : contains sub s = true → contains sub (String c s) = true.
Proof. cbn. intros ->. apply orb_true_r. Qed.

Lemma contains_app_r sub p s : contains sub s = true → contains sub (p +:+ s) = true.
Proof.
  intros H. induction p as [|c p IH]; [done|].
  rewrite append_cons. by apply contains_cons.
Qed.

(** A character of the text that starts with [sub] is in [sub] or after it. *)
Lemma startswith_chars p sub s :
  startswith sub s = true → GoalParser.all_chars p s = true → GoalParser.all_chars p sub = true.
Proof.
  revert s. induction sub as [|a sub IH]; intros s; [done|].
  destruct s as [|b s]; cbn; [done|].
  intros [Hab Hs]%andb_prop [Hb Hr]%andb_prop.
  apply Ascii.eqb_eq in Hab as ->. by rewrite Hb, (IH s).
Qed.

Lemma span_digits_app s : (span_digits s).1 +:+ (span_digits s).2 = s.
Proof.
  induction s as [|c r IH]; cbn; [done|].
  destruct (is_digit c); [|done].
  destruct (span_digits r) as [d rest]. cbn in *.
  by rewrite append_cons, IH.
Qed.

Lemma span_spaces_app s : (span_spaces s).1 +:+ (span_spaces s).2 = s.
Proof.
  induction s as [|c r IH]; cbn; [done|].
  destruct (is_space c); [|done].
  destruct (span_spaces r) as [d rest]. cbn in *.
  by rewrite append_cons, IH.
Qed.

Lemma collect_spec limit p xs : ∀ out,
  ∃ new, collect limit p xs out = out ++ new
    ∧ new `sublist_of` xs
    ∧ Forall (λ x, p x = true) new
    ∧ length (out ++ new) ≤ max limit (S (length out)).
Proof.
  induction xs as [|x rest IH]; intros out; cbn.
  - exists []. rewrite app_nil_r. split_and!; [done|done|done|lia].
  - destruct (p x) eqn:Hp.
    + destruct (limit <=? length (out ++ [x])) eqn:Hlim.
      * exists [x]. split_and!; [done| |by repeat constructor|].
        -- apply sublist_skip, sublist_nil_l.
        -- rewrite length_app in *. cbn in *. lia.
      * apply Nat.leb_gt in Hlim.
        destruct (IH (out ++ [x])) as (new & -> & Hsub & Hall & Hlen).
        exists (x :: new). rewrite <- app_assoc. cbn.
        split_and!; [done|by apply sublist_skip|by constructor|].
        rewrite <- app_assoc in Hlen. cbn in Hlen.
        rewrite length_app in Hlim. cbn in Hlim.
        rewrite !length_app in *. cbn in *. lia.
    + destruct (IH out) as (new & -> & Hsub & Hall & Hlen).
      exists new. split_and!; [done|by apply sublist_cons|done|done].
Qed.

End StringFacts.

Lemma string_app_assoc (s t u : string) : (s +:+ t) +:+ u = s +:+ (t +:+ u).
Proof. induction s as [|c s IH]; [done|]. by rewrite !append_cons, IH. Qed.

Lemma string_app_length (s t : string) :
  String.length (s +:+ t) = (String.length s + String.length t)%nat.
Proof. induction s as [|c s IH]; [done|]. rewrite append_cons. cbn. by rewrite IH. Qed.

(** ** The emergency extractor *)

Section EmergencyShape.
Import Py EmergencyMode.
#[local] Open Scope nat_scope.
#[local] Set Warnings "-inexact-float".

(** A character of a sentence: kept by the cleaning, and no terminator. *)
Definition sentence_char (c : ascii) : bool := kept c && negb (is_terminator c).

Lemma keep_only_chars p text : GoalParser.all_chars p (keep_only p text) = true.
Proof.
  induction text as [|c r IH]; cbn; [done|].
  destruct (p c) eqn:Hp; cbn; by rewrite ?Hp, ?IH.
Qed.

Lemma clean_text_chars text : GoalParser.all_chars kept (_clean_text text) = true.
Proof. unfold _clean_text. apply all_chars_strip, keep_only_chars. Qed.

Lemma split_terminators_chars text : ∀ in_run,
  GoalParser.all_chars kept text = true →
  Forall (λ s, GoalParser.all_chars sentence_char s = true)
         (split_terminators in_run text).
Proof.
  induction text as [|c r IH]; intros in_run; cbn.
  - intros _. by repeat constructor.
  - intros [Hc Hr]%andb_prop.
    destruct (is_terminator c) eqn:Hterm.
    + destruct in_run; [by apply IH|]. constructor; [done|by apply IH].
    + specialize (IH false Hr).
      destruct (split_terminators false r) as [|h t].
      * repeat constructor. cbn. unfold sentence_char. by rewrite Hc, Hterm.
      * inversion IH as [|? ? Hh Ht]; subst. constructor; [|done].
        cbn. unfold sentence_char at 1. by rewrite Hc, Hterm, Hh.
Qed.

Lemma sentences_spec text :
  GoalParser.all_chars kept text = true →
  Forall (λ s, 20 < String.length s
               ∧ GoalParser.all_chars sentence_char s = true)
         (_split_into_sentences text).
Proof.
  intros Htext. unfold _split_into_sentences.
  apply Forall_fmap, Forall_forall. intros s [Hlen Hin]%list_elem_of_filter.
  split; [done|]. apply all_chars_strip.
  by apply (proj1 (Forall_forall _ _) (split_terminators_chars text false Htext)).
Qed.

(** The words through which a sentence is recognised as a statistic. *)
Definition quantity_words : list string :=
  ["percent"; "million"; "billion"; "thousand"].

Definition not_percent (c : ascii) : bool := negb (Ascii.eqb c "%").

Lemma sentence_char_lower c :
  sentence_char c = true → not_percent (lower_ascii c) = true.
Proof.
  destruct c as [[] [] [] [] [] [] [] []]; vm_compute; congruence.
Qed.

Lemma lower_not_percent s :
  GoalParser.all_chars sentence_char s = true →
  GoalParser.all_chars not_percent (lower s) = true.
Proof.
  induction s as [|c r IH]; cbn; [done|].
  intros [Hc Hr]%andb_prop. by rewrite (sentence_char_lower c Hc), IH.
Qed.

Lemma match_statistic_word t :
  GoalParser.all_chars not_percent t = true →
  match_statistic t = true → contains_any quantity_words t = true.
Proof.
  intros Hchars. unfold match_statistic.
  pose proof (span_digits_app t) as Ht.
  destruct (span_digits t) as [digits r1]. cbn in Ht.
  intros [_ Hmatch]%andb_prop. revert Hmatch.
  set (r2 := match r1 with String "."%char r => r | _ => r1 end).
  assert (Hr1 : ∃ p, r1 = p +:+ r2).
  { subst r2. destruct r1 as [|c r]; [by exists ""|].
    destruct (decide (c = "."%char)) as [->|Hc]; [by exists "."|].
    exists "". by destruct c as [[] [] [] [] [] [] [] []]. }
  destruct Hr1 as [p1 Hr1].
  pose proof (span_digits_app r2) as Hr2.
  destruct (span_digits r2) as [d2 r3]. cbn in Hr2.
  pose proof (span_spaces_app r3) as Hr3.
  destruct (span_spaces r3) as [sp r4]. cbn in Hr3.
  assert (Ht4 : t = (digits +:+ p1 +:+ d2 +:+ sp) +:+ r4).
  { rewrite <- Ht, Hr1, <- Hr2, <- Hr3.
    by rewrite !string_app_assoc. }
  assert (Hr4 : GoalParser.all_chars not_percent r4 = true).
  { rewrite Ht4, all_chars_app in Hchars. by apply andb_prop in Hchars as [_ ?]. }
  intros Hmatch. apply existsb_exists in Hmatch as (w & Hw & Hstart).
  assert (Hword : w ∈ quantity_words).
  { apply list_elem_of_In in Hw.
    apply elem_of_cons in Hw as [->|Hw]; [|done].
    pose proof (startswith_chars not_percent "%" r4 Hstart Hr4). done. }
  unfold contains_any. apply existsb_exists. exists w.
  split; [by apply list_elem_of_In|].
  rewrite Ht4. by apply contains_app_r, startswith_contains.
Qed.

Lemma search_statistic_word t :
  GoalParser.all_chars not_percent t = true →
  search_statistic t = true → contains_any quantity_words t = true.
Proof.
  induction t as [|c r IH]; [done|].
  intros Hchars. cbn [search_statistic].
  intros [Hm|Hs]%orb_prop; [by apply match_statistic_word|].
  cbn in Hchars. apply andb_prop in Hchars as [_ Hr].
  specialize (IH Hr Hs). unfold contains_any in *.
  apply existsb_exists in IH as (w & Hw & Hin).
  apply existsb_exists. exists w. split; [done|]. by apply contains_cons.
Qed.

Lemma no_percent_sign s :
  GoalParser.all_chars sentence_char s = true →
  contains "%" s = false ∧ contains "." s = false.
Proof.
  induction s as [|c r IH]; [done|].
  cbn. intros [Hc Hr]%andb_prop. destruct (IH Hr) as [-> ->].
  rewrite !orb_false_r.
  destruct c as [[] [] [] [] [] [] [] []]; vm_compute in Hc |- *; done.
Qed.

Lemma collect_from_nil limit p xs :
  collect limit p xs [] `sublist_of` xs
  ∧ Forall (λ x, p x = true) (collect limit p xs [])
  ∧ length (collect limit p xs []) ≤ max limit 1.
Proof.
  destruct (collect_spec limit p xs []) as (new & -> & Hsub & Hall & Hlen).
  done.
Qed.

Lemma take_sublist {A} n (l k : list A) :
  l `sublist_of` k → take n l `sublist_of` k.
Proof. intros H. etransitivity; [apply sublist_take|done]. Qed.

(** What the emergency extractor returns, for every content: the sentences
    it works on have more than 20 characters, none of them a sentence
    terminator or a character that the cleaning removes; the facts are the
    first five sentences; the key findings, statistics and conclusions are
    at most 3, 2 and 2 of the sentences, in their order, each with one of
    the indicators of its kind. *)
Theorem emergency_extraction_shape (content : string)
    (source_metadata : SourceMetadata) :
  let info := extract_key_information content source_metadata in
  let sentences := _split_into_sentences (_clean_text content) in
  Forall (λ s, 20 < String.length s
               ∧ GoalParser.all_chars sentence_char s = true) sentences
  ∧ relevant_facts info = take 5 sentences
  ∧ (key_findings info `sublist_of` sentences
     ∧ length (key_findings info) ≤ 3
     ∧ Forall (λ s, contains_any key_indicators (lower s) = true)
              (key_findings info))
  ∧ (statistics info `sublist_of` sentences
     ∧ length (statistics info) ≤ 2
     ∧ Forall (λ s, search_statistic (lower s) = true) (statistics info))
  ∧ (conclusions info `sublist_of` sentences
     ∧ length (conclusions info) ≤ 2
     ∧ Forall (λ s, contains_any conclusion_indicators (lower s) = true)
              (conclusions info)).
Proof.
  cbv zeta. unfold extract_key_information. cbn.
  unfold _extract_key_findings, _extract_statistics, _extract_conclusions.
  split_and!; try done.
  - apply sentences_spec, clean_text_chars.
  - apply take_sublist, collect_from_nil.
  - rewrite length_take. lia.
  - apply Forall_take.
    apply (collect_from_nil 5
             (λ sentence, contains_any key_indicators (lower sentence))).
  - apply take_sublist, collect_from_nil.
  - rewrite length_take. lia.
  - apply Forall_take.
    apply (collect_from_nil 3 (λ sentence, search_statistic (lower sentence))).
  - apply take_sublist, collect_from_nil.
  - rewrite length_take. lia.
  - apply Forall_take.
    apply (collect_from_nil 3
             (λ sentence, contains_any conclusion_indicators (lower sentence))).
Qed.

(** For every content, a sentence reported as a statistic contains one of
    the words percent, million, billion, thousand: the percent sign is
    removed by the cleaning and the decimal point ends a sentence, so
    neither is ever part of a statistic. *)
Theorem statistics_need_a_word (content : string)
    (source_metadata : SourceMetadata) :
  Forall (λ s, contains_any quantity_words (lower s) = true
               ∧ contains "%" s = false ∧ contains "." s = false)
         (statistics (extract_key_information content source_metadata)).
Proof.
  unfold extract_key_information. cbn. unfold _extract_statistics.
  pose proof (sentences_spec (_clean_text content) (clean_text_chars content))
    as Hsentences.
  destruct (collect_from_nil 3 (λ sentence, search_statistic (lower sentence))
              (_split_into_sentences (_clean_text content)))
    as (Hsub & Hall & _).
  apply Forall_take, Forall_forall. intros s Hs.
  assert (Hchars : GoalParser.all_chars sentence_char s = true).
  { pose proof (elem_of_sublist _ _ s Hs Hsub) as Hin.
    by apply (proj1 (Forall_forall _ _) Hsentences) in Hin as [_ ?]. }
  split; [|by apply no_percent_sign].
  apply search_statistic_word; [by apply lower_not_percent|].
  by apply (proj1 (Forall_forall _ _) Hall).
Qed.

End EmergencyShape.

(** ** Search terms *)

Section SearchTerms.
Import Py GoalParser.
#[local] Open Scope nat_scope.

(** A search term made of at least three lower-case letters. *)
Definition lowercase_word (w : string) : Prop :=
  3 ≤ String.length w ∧ all_chars is_lower w = true.

Definition not_upper (c : ascii) : bool := negb (is_upper c).

Lemma lower_ascii_not_upper c : not_upper (lower_ascii c) = true.
Proof. destruct c as [[] [] [] [] [] [] [] []]; vm_compute; congruence. Qed.

Lemma lower_not_upper s : all_chars not_upper (lower s) = true.
Proof.
  induction s as [|c r IH]; cbn; [done|].
  by rewrite lower_ascii_not_upper, IH.
Qed.

Lemma word_runs_chars p s : ∀ cur,
  all_chars p cur = true → all_chars p s = true →
  Forall (λ w, all_chars p w = true) (word_runs cur s).
Proof.
  induction s as [|c r IH]; intros cur Hcur; cbn.
  - intros _. destruct (nonempty cur); by repeat constructor.
  - intros [Hc Hr]%andb_prop. destruct (is_word c).
    + apply IH; [|done]. rewrite all_chars_app. cbn. by rewrite Hcur, Hc.
    + apply Forall_app. split; [destruct (nonempty cur); by repeat constructor|].
      by apply IH.
Qed.

Lemma alpha_not_upper w :
  all_chars is_alpha w = true → all_chars not_upper w = true →
  all_chars is_lower w = true.
Proof.
  induction w as [|c r IH]; cbn; [done|].
  intros [Hc Hr]%andb_prop [Hu Hur]%andb_prop. rewrite (IH Hr Hur).
  unfold is_alpha, not_upper in *. destruct (is_upper c); [done|].
  cbn in Hc. by rewrite Hc.
Qed.

Lemma findall_words_lower text :
  Forall lowercase_word (findall_words (lower text)).
Proof.
  unfold findall_words. apply Forall_forall.
  intros w [[Halpha Hlen] Hin]%list_elem_of_filter.
  split; [done|]. apply alpha_not_upper; [done|].
  by apply (proj1 (Forall_forall _ _)
              (word_runs_chars not_upper (lower text) "" eq_refl
                 (lower_not_upper text))).
Qed.

Lemma fromkeys_from_spec l : ∀ seen,
  fromkeys_from seen l `sublist_of` l
  ∧ NoDup (fromkeys_from seen l)
  ∧ Forall (λ x, x ∉ seen) (fromkeys_from seen l).
Proof.
  induction l as [|x r IH]; intros seen; cbn.
  - split_and!; [done|constructor|constructor].
  - case_bool_decide as Hx.
    + destruct (IH seen) as (Hsub & Hnd & Hall).
      split_and!; [by apply sublist_cons|done|done].
    + destruct (IH (x :: seen)) as (Hsub & Hnd & Hall).
      split_and!.
      * by apply sublist_skip.
      * apply NoDup_cons. split; [|done]. intros Hin.
        apply (proj1 (Forall_forall _ _) Hall) in Hin. apply Hin.
        apply list_elem_of_here.
      * constructor; [done|]. eapply Forall_impl; [exact Hall|].
        intros y Hy Hin. apply Hy. by apply list_elem_of_further.
Qed.

Lemma lowercase_word_cbv w :
  (3 <=? String.length w) && all_chars is_lower w = true → lowercase_word w.
Proof. intros [?%Nat.leb_le ?]%andb_prop. by split. Qed.

(** [GoalParser._generate_search_terms] returns between one and five terms,
    each made of at least three lower-case letters; outside the branch for
    questions of location (no keyword, no mention of morocco, and one of the
    words where, location, place, country, city in the text) no term is
    repeated; and when the description has a keyword, a word of three
    letters or more that is no stop word, the terms are taken from the
    description and are no stop words. *)
Theorem goal_search_terms_shape (description : string) :
  let terms := _generate_search_terms description in
  1 ≤ length terms ≤ 5
  ∧ Forall lowercase_word terms
  ∧ ((∃ keyword, keyword ∈ findall_words (lower description)
                 ∧ keyword ∉ stop_words)
     ∨ contains "morocco" (lower description) = true
     ∨ contains_any ["where"; "location"; "place"; "country"; "city"]
         (lower description) = false →
     NoDup terms)
  ∧ (∀ keyword,
       keyword ∈ findall_words (lower description) →
       keyword ∉ stop_words →
       description ≠ "" →
       terms `sublist_of` findall_words (lower description)
       ∧ Forall (λ t, t ∉ stop_words) terms).
Proof.
  cbv zeta. unfold _generate_search_terms.
  pose proof (findall_words_lower description) as Hwords.
  set (words := findall_words (lower description)) in *.
  set (keywords :=
         filter (λ word, (word ∉ stop_words) ∧ 2 < String.length word) words).
  assert (Hkw_sub : keywords `sublist_of` words) by apply sublist_filter.
  destruct (fromkeys_from_spec keywords []) as (Hsub & Hnd & _).
  fold (fromkeys keywords) in Hsub, Hnd.
  assert (Hfixed : ∀ l, forallb (λ w, (3 <=? String.length w)
                                       && all_chars is_lower w) l = true →
                        Forall lowercase_word l).
  { intros l Hl. apply Forall_forall. intros w Hw.
    apply lowercase_word_cbv.
    apply (proj1 (forallb_forall _ _) Hl). by apply list_elem_of_In. }
  assert (Hnodup : ∀ l : list string, bool_decide (NoDup l) = true → NoDup l)
    by (intros l; apply bool_decide_eq_true_1).
  destruct (nonempty description) eqn:Hne; cbn [negb].
  2: { split_and!; try (cbn; lia); [by apply Hfixed|intros _; by apply Hnodup|].
       intros k _ _ Hd. by destruct description. }
  destruct (fromkeys keywords) as [|k ks] eqn:Hk.
  - assert (Hnone : keywords = []).
    { destruct keywords as [|x r]; [done|]. unfold fromkeys in Hk. cbn in Hk.
      by rewrite bool_decide_eq_false_2 in Hk by apply not_elem_of_nil. }
    assert (Hno_keyword : ∀ keyword, keyword ∈ words → keyword ∉ stop_words →
                                     False).
    { intros kw Hin Hstop.
      assert (Hin' : kw ∈ keywords); [|by rewrite Hnone in Hin'; inversion Hin'].
      apply list_elem_of_filter. split; [|done]. split; [done|].
      apply (proj1 (Forall_forall _ _) Hwords) in Hin as [? _]. lia. }
    destruct (contains "morocco" _).
    { split_and!; try (cbn; lia);
        [by apply Hfixed|intros _; by apply Hnodup|].
      intros kw Hin Hstop _. by destruct (Hno_keyword kw). }
    destruct (contains_any _ _).
    + assert (Hbranch : (∃ keyword, keyword ∈ words ∧ keyword ∉ stop_words)
                        ∨ false = true ∨ true = false → False).
      { intros [(kw & Hin & Hstop)|[?|?]]; [|done|done].
        by destruct (Hno_keyword kw). }
      destruct (filter (λ w, 3 < String.length w) words) as [|w ws] eqn:Hclean.
      * split_and!; try (cbn; lia); [by apply Hfixed|by intros ?%Hbranch|].
        intros kw Hin Hstop _. by destruct (Hno_keyword kw).
      * split_and!; [| | |by intros ?%Hbranch|].
        -- rewrite length_app. cbn [length]. lia.
        -- rewrite length_app, length_take. cbn [length]. lia.
        -- apply Forall_app. split; [|by apply Hfixed].
           apply Forall_take. rewrite <- Hclean.
           apply Forall_forall. intros x [_ Hx]%list_elem_of_filter.
           by apply (proj1 (Forall_forall _ _) Hwords).
        -- intros kw Hin Hstop _. by destruct (Hno_keyword kw).
    + split_and!; try (cbn; lia);
        [by apply Hfixed|intros _; by apply Hnodup|].
      intros kw Hin Hstop _. by destruct (Hno_keyword kw).
  - assert (Hlen : 1 ≤ length (take 5 (k :: ks)) ≤ 5).
    { rewrite length_take. cbn [length]. lia. }
    assert (Htake : take 5 (k :: ks) `sublist_of` words).
    { etransitivity; [apply sublist_take|]. by etransitivity. }
    split_and!; try lia.
    + apply Forall_forall. intros w Hw.
      apply (proj1 (Forall_forall _ _) Hwords).
      by apply (elem_of_sublist _ _ w Hw).
    + intros _. eapply sublist_NoDup; [done|apply sublist_take].
    + intros kw _ _ _. split; [done|].
      apply Forall_forall. intros w Hw.
      assert (Hin : w ∈ keywords).
      { apply (elem_of_sublist (k :: ks)); [|done].
        apply (elem_of_sublist _ _ w Hw), sublist_take. }
      by apply list_elem_of_filter in Hin as [[? _] _].
Qed.

End SearchTerms.

(** ** Decimal numbers in messages *)

Section Decimal.
Import Py RateLimiter.
#[local] Open Scope nat_scope.

Lemma pretty_N_go_app (x : N) : ∀ s, pretty_N_go x s = pretty_N_go x "" +:+ s.
Proof.
  induction (N.lt_wf_0 x) as [x _ IH]. intros s.
  destruct (decide (0 < x)%N) as [Hx|Hx].
  - rewrite (pretty_N_go_step x s Hx), (pretty_N_go_step x "" Hx).
    assert (Hlt : (x `div` 10 < x)%N) by (apply N.div_lt; lia).
    rewrite (IH _ Hlt (String _ s)), (IH _ Hlt (String _ "")).
    by rewrite string_app_assoc.
  - assert (x = 0%N) as -> by lia. by rewrite !pretty_N_go_0.
Qed.

Lemma pretty_N_char_digit (m : N) :
  (m < 10)%N →
  is_digit (pretty_N_char m) = true ∧ digit_value (pretty_N_char m) = Z.of_N m.
Proof.
  intros Hm.
  assert (Hcases : m ∈ [0; 1; 2; 3; 4; 5; 6; 7; 8; 9]%N).
  { apply list_elem_of_In. cbn. lia. }
  do 10 (apply elem_of_cons in Hcases as [->|Hcases]; [by vm_compute|]).
  by apply elem_of_nil in Hcases.
Qed.

Lemma digits_value_app a b : ∀ acc,
  digits_value acc (a +:+ b) = digits_value (digits_value acc a) b.
Proof.
  induction a as [|c a IH]; intros acc; [done|].
  rewrite append_cons. cbn. by rewrite IH.
Qed.

(** The digits of [x], most significant first, none for zero. *)
Lemma pretty_N_go_digits (x : N) :
  GoalParser.all_chars is_digit (pretty_N_go x "") = true
  ∧ digits_value 0 (pretty_N_go x "") = Z.of_N x.
Proof.
  induction (N.lt_wf_0 x) as [x _ IH].
  destruct (decide (0 < x)%N) as [Hx|Hx].
  - rewrite (pretty_N_go_step x "" Hx), pretty_N_go_app.
    assert (Hlt : (x `div` 10 < x)%N) by (apply N.div_lt; lia).
    destruct (IH _ Hlt) as [Hdigits Hvalue].
    destruct (pretty_N_char_digit (x `mod` 10)) as [Hd Hv];
      [by apply N.mod_lt|].
    split.
    + rewrite all_chars_app, Hdigits. cbn. by rewrite Hd.
    + rewrite digits_value_app, Hvalue. cbn. rewrite Hv.
      rewrite (N.div_mod x 10) at 3 by done. lia.
  - assert (x = 0%N) as -> by lia. by rewrite pretty_N_go_0.
Qed.

Lemma str_of_nat_digits (n : nat) :
  str_of_nat n ≠ ""
  ∧ GoalParser.all_chars is_digit (str_of_nat n) = true
  ∧ digits_value 0 (str_of_nat n) = Z.of_nat n.
Proof.
  unfold str_of_nat, pretty, pretty_nat, pretty, pretty_N.
  destruct (decide (N.of_nat n = 0%N)) as [Hn|Hn].
  - assert (n = 0) as -> by lia. by split_and!.
  - destruct (pretty_N_go_digits (N.of_nat n)) as [Hd Hv].
    split_and!; [|done|by rewrite Hv, nat_N_Z].
    intros Hempty. rewrite Hempty in Hv. cbn in Hv. lia.
Qed.

Lemma span_digits_all d rest :
  GoalParser.all_chars is_digit d = true →
  (span_digits rest).1 = "" →
  span_digits (d +:+ rest) = (d, rest).
Proof.
  intros Hd Hrest. induction d as [|c d IH].
  - change ("" +:+ rest) with rest.
    pose proof (span_digits_app rest) as Happ.
    destruct (span_digits rest) as [digits r]. cbn in Hrest, Happ.
    by subst.
  - rewrite append_cons. cbn in Hd |- *. apply andb_prop in Hd as [-> Hd].
    by rewrite (IH Hd).
Qed.

End Decimal.

(** ** The delay a provider states *)

Section StatedDelay.
Import Py RateLimiter.
#[local] Open Scope nat_scope.

Lemma search_wait_found tail g :
  match_seconds tail = Some g →
  search_wait ("rate_limit_exceeded: Please try again in " +:+ tail) = Some g.
Proof. intros Hg. lazy -[match_seconds]. by rewrite Hg. Qed.

Lemma match_seconds_whole (n : nat) (after : string) :
  match_seconds (str_of_nat n +:+ "s" +:+ after) = Some (str_of_nat n, "").
Proof.
  destruct (str_of_nat_digits n) as (Hne & Hdigits & _).
  unfold match_seconds.
  rewrite (span_digits_all (str_of_nat n) ("s" +:+ after) Hdigits eq_refl).
  by destruct (str_of_nat n).
Qed.

(** The pacing prelude sleeps exactly when less than [min_interval] has
    passed since the last call, and then for what is missing. *)
Lemma wait_if_needed_sleep pace current_time time_after :
  (wait_if_needed pace current_time time_after).1
  = if Qlt_le_dec (current_time - last_call_time pace) (min_interval pace)
    then Some (min_interval pace - (current_time - last_call_time pace))%Q
    else None.
Proof.
  unfold wait_if_needed, Qlt_bool. cbn.
  destruct (Qlt_le_dec _ _) as [Hlt|Hle].
  - destruct (Qle_bool _ _) eqn:Hle; [|done].
    apply Qle_bool_iff in Hle. by apply Qlt_not_le in Hlt.
  - apply Qle_bool_iff in Hle. by rewrite Hle.
Qed.


End StatedDelay.


(** ** How a wrapped call ends *)

Section BackoffOutcome.
Import Py RateLimiter.
#[local] Open Scope nat_scope.
Context {A : Type}.
Variable self : RateLimiter.
Variable func : nat → exc A.

Lemma span_digits_digits s :
  GoalParser.all_chars is_digit (span_digits s).1 = true.
Proof.
  induction s as [|c r IH]; cbn; [done|].
  destruct (is_digit c) eqn:Hc; [|done].
  destruct (span_digits r) as [d rest]. cbn in *. by rewrite Hc.
Qed.

Lemma digit_value_nonneg c : is_digit c = true → (0 ≤ digit_value c)%Z.
Proof.
  unfold is_digit, digit_value. cbv zeta.
  intros [H _]%andb_prop. apply Nat.leb_le in H. lia.
Qed.

Lemma digits_value_nonneg d : ∀ acc,
  GoalParser.all_chars is_digit d = true → (0 ≤ acc)%Z →
  (0 ≤ digits_value acc d)%Z.
Proof.
  induction d as [|c d IH]; intros acc; cbn; [done|].
  intros [Hc Hd]%andb_prop Hacc. apply IH; [done|].
  apply digit_value_nonneg in Hc. lia.
Qed.

Lemma match_seconds_digits s g :
  match_seconds s = Some g →
  GoalParser.all_chars is_digit g.1 = true
  ∧ GoalParser.all_chars is_digit g.2 = true.
Proof.
  unfold match_seconds.
  pose proof (span_digits_digits s) as H1.
  destruct (span_digits s) as [int_digits r1]. cbn in H1.
  destruct int_digits as [|c i]; [done|].
  set (r2 := match r1 with String "."%char r => r | _ => r1 end).
  pose proof (span_digits_digits r2) as H2.
  destruct (span_digits r2) as [frac_digits r3]. cbn in H2.
  destruct r3 as [|c3 r3]; [done|].
  destruct (Ascii.eqb c3 "s") eqn:Hs.
  - apply Ascii.eqb_eq in Hs as ->. by intros [= <-].
  - intros H. exfalso. revert H.
    destruct c3 as [[] [] [] [] [] [] [] []]; try done.
Qed.

Lemma search_wait_digits m g :
  search_wait m = Some g →
  GoalParser.all_chars is_digit g.1 = true
  ∧ GoalParser.all_chars is_digit g.2 = true.
Proof.
  induction m as [|c r IH]; [done|].
  cbn [search_wait].
  destruct (strip_prefix _ _) as [rest|]; [|done].
  destruct (match_seconds rest) as [g'|] eqn:Hm; [|done].
  intros [= <-]. by apply match_seconds_digits in Hm.
Qed.

Lemma seconds_value_nonneg g :
  GoalParser.all_chars is_digit g.1 = true →
  GoalParser.all_chars is_digit g.2 = true →
  (0 <= seconds_value g)%Q.
Proof.
  destruct g as [i f]. cbn [fst snd]. intros Hi Hf. unfold seconds_value.
  apply (digits_value_nonneg _ 0) in Hi; [|done].
  apply (digits_value_nonneg _ 0) in Hf; [|done].
  assert (Hpow : (0 < 10 ^ Z.of_nat (String.length f))%Z)
    by (apply Z.pow_pos_nonneg; lia).
  apply Qle_trans with (inject_Z (digits_value 0 i) + 0)%Q.
  - rewrite Qplus_0_r. change 0%Q with (inject_Z 0). by rewrite <- Zle_Qle.
  - apply Qplus_le_r. apply Qle_shift_div_l.
    + change 0%Q with (inject_Z 0). by rewrite <- Zlt_Qlt.
    + rewrite Qmult_0_l. change 0%Q with (inject_Z 0). by rewrite <- Zle_Qle.
Qed.

(** A delay read from the message is at least the buffer, so the sleep
    never fails on it. *)
Lemma extract_wait_time_nonneg e w :
  _extract_wait_time e = Some w → (0 <= w)%Q.
Proof.
  unfold _extract_wait_time, provider_delay.
  destruct (search_wait e) as [g|] eqn:Hg; [|done].
  intros [= <-]. apply search_wait_digits in Hg as [Hi Hf].
  pose proof (seconds_value_nonneg g Hi Hf) as H.
  apply Qle_trans with (seconds_value g + 0)%Q.
  - by rewrite Qplus_0_r.
  - by apply Qplus_le_r.
Qed.

Lemma wait_time_nonneg e attempt :
  (0 <= base_delay self)%Q →
  Qle_bool 0
    match _extract_wait_time e with
    | Some w => w
    | None => (base_delay self * inject_Z (2 ^ Z.of_nat attempt))%Q
    end = true.
Proof.
  intros Hbase. apply Qle_bool_iff.
  destruct (_extract_wait_time e) as [w|] eqn:Hw.
  - by apply extract_wait_time_nonneg in Hw.
  - apply Qmult_le_0_compat; [done|].
    change 0%Q with (inject_Z 0). rewrite <- Zle_Qle.
    apply Z.pow_nonneg. lia.
Qed.

Lemma attempts_outcome (k : nat) : ∀ remaining attempt,
  (0 <= base_delay self)%Q →
  k < remaining →
  (Z.of_nat (attempt + k) ≤ max_retries self)%Z →
  (∀ i, i < k → ∃ e, func (attempt + i) = Raise e
                     ∧ is_rate_limit_error e = true) →
  let r := attempts self func remaining attempt in
  match func (attempt + k) with
  | Ok a => outcome r = Returned a ∧ calls r = S k ∧ length (sleeps r) = k
  | Raise e =>
      Z.of_nat (attempt + k) = max_retries self
      ∨ is_rate_limit_error e = false →
      outcome r = Raised e ∧ calls r = S k ∧ length (sleeps r) = k
  end.
Proof.
  induction k as [|k IH]; intros remaining attempt Hbase Hrem Hmax Hbefore;
    (destruct remaining as [|remaining]; [lia|]); cbv zeta; cbn [attempts].
  - rewrite Nat.add_0_r in *.
    destruct (func attempt) as [a|e]; [done|].
    intros [Hlast|Hother].
    + destruct (is_rate_limit_error e); [|done].
      by replace (Z.of_nat attempt <? max_retries self)%Z with false
        by (symmetry; apply Z.ltb_ge; lia).
    + by rewrite Hother.
  - destruct (Hbefore 0 ltac:(lia)) as (e0 & Hf0 & Hrl0).
    rewrite Nat.add_0_r in Hf0. rewrite Hf0, Hrl0.
    replace (Z.of_nat attempt <? max_retries self)%Z with true
      by (symmetry; apply Z.ltb_lt; lia).
    rewrite wait_time_nonneg by done. cbn [outcome calls sleeps length].
    replace (attempt + S k) with (S attempt + k) in * by lia.
    specialize (IH remaining (S attempt) Hbase ltac:(lia) Hmax).
    cbv zeta in IH.
    destruct (func (S attempt + k)) as [a|e].
    + destruct IH as (-> & -> & ->); [|done].
      intros i Hi. replace (S attempt + i) with (attempt + S i) by lia.
      apply Hbefore. lia.
    + intros Hstop. destruct IH as (-> & -> & ->); [|done|done].
      intros i Hi. replace (S attempt + i) with (attempt + S i) by lia.
      apply Hbefore. lia.
Qed.

Lemma attempts_not_none : ∀ remaining attempt,
  0 < remaining →
  (Z.of_nat attempt + Z.of_nat remaining = max_retries self + 1)%Z →
  outcome (attempts self func remaining attempt) ≠ ReturnedNone.
Proof.
  induction remaining as [|remaining IH]; intros attempt Hpos Hsum; [lia|].
  cbn [attempts].
  destruct (func attempt) as [a|e]; [done|].
  destruct (is_rate_limit_error e); [|done].
  destruct (Z.of_nat attempt <? max_retries self)%Z eqn:Hlt; [|done].
  destruct (Qle_bool 0 _); [|done].
  apply Z.ltb_lt in Hlt. cbn [outcome]. apply IH; lia.
Qed.

(** The sleeps of a whole call: the one of the pacing prelude, if less than
    [min_interval] has passed since the last call, and those of the loop. *)
Lemma all_sleeps_length pace current_time time_after :
  length (all_sleeps
            (paced_call_with_backoff self pace current_time time_after func))
  = (if Qlt_le_dec (current_time - last_call_time pace) (min_interval pace)
     then 1 else 0)
    + length (sleeps (call_with_backoff self func)).
Proof.
  unfold paced_call_with_backoff, all_sleeps.
  pose proof (wait_if_needed_sleep pace current_time time_after) as Hpace.
  destruct (wait_if_needed pace current_time time_after) as [slept pace'].
  cbn in Hpace. subst slept. cbn [pacing backoff].
  rewrite length_app, length_fmap. by destruct (Qlt_le_dec _ _).
Qed.

Lemma backoff_of_call pace current_time time_after :
  backoff (paced_call_with_backoff self pace current_time time_after func)
  = call_with_backoff self func.
Proof.
  unfold paced_call_with_backoff.
  by destruct (wait_if_needed pace current_time time_after).
Qed.


(** The final [return None] is reached only with a negative number of
    retries, and then without any call of the function and with no sleep
    but that of the pacing prelude, made when less than [min_interval] has
    passed since the last call; otherwise the wrapped call ends by returning
    the result of the function or by raising. *)
Theorem backoff_returns_none_iff (pace : Pace) (current_time time_after : Q) :
  let r := paced_call_with_backoff self pace current_time time_after func in
  (outcome (backoff r) = ReturnedNone ↔ (max_retries self < 0)%Z)
  ∧ (outcome (backoff r) = ReturnedNone →
     calls (backoff r) = 0
     ∧ all_sleeps r
       = if Qlt_le_dec (current_time - last_call_time pace) (min_interval pace)
         then [(min_interval pace - (current_time - last_call_time pace))%Q]
         else []).
Proof.
  cbv zeta. unfold all_sleeps. rewrite backoff_of_call.
  unfold paced_call_with_backoff.
  pose proof (wait_if_needed_sleep pace current_time time_after) as Hpace.
  destruct (wait_if_needed pace current_time time_after) as [slept pace'].
  cbn in Hpace. subst slept. cbn [pacing backoff].
  unfold call_with_backoff.
  destruct (Z.to_nat (max_retries self + 1)) as [|n] eqn:Hn.
  - cbn. split; [split; [lia|done]|].
    intros _. split; [done|]. by destruct (Qlt_le_dec _ _).
  - pose proof (attempts_not_none (S n) 0 ltac:(lia) ltac:(lia)) as Hnot.
    split; [|done]. split; [done|lia].
Qed.

End BackoffOutcome.


(** ** Requests to the provider *)

Section Requests.
Import Py RateLimiter LLMTools.
#[local] Open Scope nat_scope.

Definition not_t (c : ascii) : bool := negb (Ascii.eqb c "t").
Definition not_r (c : ascii) : bool := negb (Ascii.eqb c "r").
Definition not_4 (c : ascii) : bool := negb (Ascii.eqb c "4").

Lemma search_wait_without_t s :
  GoalParser.all_chars not_t s = true → search_wait s = None.
Proof.
  induction s as [|c r IH]; [done|].
  cbn [GoalParser.all_chars search_wait]. intros [Hc Hr]%andb_prop.
  rewrite (IH Hr).
  assert (strip_prefix "try again in " (String c r) = None) as ->; [|done].
  cbn [strip_prefix]. unfold not_t in Hc. apply negb_true_iff in Hc.
  rewrite Ascii.eqb_sym in Hc. by rewrite Hc.
Qed.

Lemma contains_without_r s :
  GoalParser.all_chars not_r s = true →
  contains "rate_limit_exceeded" s = false.
Proof.
  induction s as [|c r IH]; [done|].
  cbn [GoalParser.all_chars contains]. intros [Hc Hr]%andb_prop.
  rewrite (IH Hr), orb_false_r. cbn [startswith].
  unfold not_r in Hc. apply negb_true_iff in Hc.
  rewrite Ascii.eqb_sym in Hc. by rewrite Hc.
Qed.

Lemma digit_not c : is_digit c = true → not_t c = true ∧ not_r c = true.
Proof.
  intros H. destruct c as [[] [] [] [] [] [] [] []]; try done.
Qed.

Lemma digits_not d :
  GoalParser.all_chars is_digit d = true →
  GoalParser.all_chars not_t d = true ∧ GoalParser.all_chars not_r d = true.
Proof.
  intros H. split; eapply all_chars_impl; try exact H;
    intros c Hc; by apply digit_not in Hc as [? ?].
Qed.

(** The message of a failed request, with the digits of a status. *)
Lemma failed_message_plain d :
  GoalParser.all_chars is_digit d = true →
  search_wait ("API request failed: " +:+ d) = None
  ∧ is_rate_limit_error ("API request failed: " +:+ d) = contains "429" d.
Proof.
  intros [Ht Hr]%digits_not. split.
  - rewrite !append_cons. change ("" +:+ d) with d.
    cbn -[strip_prefix]. cbn. by apply search_wait_without_t.
  - unfold is_rate_limit_error.
    rewrite !append_cons. change ("" +:+ d) with d.
    cbn. by rewrite contains_without_r.
Qed.

Lemma status_with_429 (n : nat) :
  n < 1000 → contains "429" (str_of_nat n) = true → n = 429.
Proof.
  intros Hn Hc.
  assert (Hall : forallb (λ n, implb (contains "429" (str_of_nat n))
                                 (n =? 429)) (seq 0 1000) = true)
    by (by vm_compute).
  rewrite forallb_forall in Hall.
  specialize (Hall n ltac:(apply in_seq; lia)).
  rewrite Hc in Hall. by apply Nat.eqb_eq in Hall.
Qed.

Lemma attempts_status_429 (post : nat → exc Response) response
    remaining attempt :
  post attempt = Ok response → status_code response = 429 → attempt < 3 →
  attempts rate_limiter (λ k, _make_request (post k)) (S remaining) attempt
  = let rest := attempts rate_limiter (λ k, _make_request (post k))
                  remaining (S attempt) in
    mkRun (outcome rest) (S (calls rest))
      (mkSleep attempt "API request failed: 429"
         (2 * inject_Z (2 ^ Z.of_nat attempt)) :: sleeps rest).
Proof.
  intros Hpost Hstatus Hlt. cbn [attempts]. rewrite Hpost.
  unfold _make_request. rewrite Hstatus.
  change (429 =? 200) with false. cbv iota.
  change ("API request failed: " +:+ str_of_nat 429)
    with "API request failed: 429".
  change (is_rate_limit_error "API request failed: 429") with true.
  change (_extract_wait_time "API request failed: 429") with (@None Q).
  cbv iota.
  replace (Z.of_nat attempt <? max_retries rate_limiter)%Z with true
    by (symmetry; apply Z.ltb_lt; cbn; lia).
  assert (Qle_bool 0 (base_delay rate_limiter
                      * inject_Z (2 ^ Z.of_nat attempt)) = true) as ->; [|done].
  apply (wait_time_nonneg rate_limiter "API request failed: 429" attempt).
  done.
Qed.

(** Whatever the provider answers, a text generation makes at most four
    requests.  A wait that follows an answer with an error status lasts
    two, four or eight seconds, by the number of the request, never a
    delay stated by the provider: the message raised carries only the
    status.  Such an answer is retried only when the digits of its status
    contain 429, which for a status below 1000 means status 429.  Four
    answers with status 429 make the generation fail with that error after
    waits of two, four and eight seconds. *)
Theorem generate_text_http_errors (post : nat → exc Response) :
  let r := generate_text post in
  calls r ≤ 4
  ∧ (∀ i s response,
       sleeps r !! i = Some s → post i = Ok response →
       status_code response ≠ 200 →
       sl_wait_time s = (2 * inject_Z (2 ^ Z.of_nat i))%Q
       ∧ contains "429" (str_of_nat (status_code response)) = true
       ∧ (status_code response < 1000 → status_code response = 429))
  ∧ ((∀ i, i < 4 →
        ∃ response, post i = Ok response ∧ status_code response = 429) →
     outcome r = Raised "API request failed: 429" ∧ calls r = 4
     ∧ sl_wait_time <$> sleeps r = [2; 4; 8]%Q).
Proof.
  cbv zeta. unfold generate_text, call_with_backoff. split_and!.
  - apply attempts_calls.
  - intros i s response Hs Hpost Hstatus.
    apply attempts_sleeps in Hs as (_ & Hraise & Hrl & _ & Hwait).
    cbn in Hraise. rewrite Hpost in Hraise. unfold _make_request in Hraise.
    apply Nat.eqb_neq in Hstatus. rewrite Hstatus in Hraise.
    injection Hraise as Hmessage.
    destruct (str_of_nat_digits (status_code response)) as (_ & Hdigits & _).
    destruct (failed_message_plain _ Hdigits) as [Hnone Hsame].
    rewrite <- Hmessage in Hrl, Hwait.
    unfold provider_delay in Hwait. rewrite Hnone in Hwait.
    rewrite Hsame in Hrl. split_and!; [done|done|].
    intros Hlt. by apply status_with_429.
  - intros Hall.
    destruct (Hall 0 ltac:(lia)) as (r0 & H0 & Hs0).
    destruct (Hall 1 ltac:(lia)) as (r1 & H1 & Hs1).
    destruct (Hall 2 ltac:(lia)) as (r2 & H2 & Hs2).
    destruct (Hall 3 ltac:(lia)) as (r3 & H3 & Hs3).
    change (Z.to_nat (max_retries rate_limiter + 1)) with 4.
    rewrite (attempts_status_429 post r0 3 0 H0 Hs0 ltac:(lia)).
    rewrite (attempts_status_429 post r1 2 1 H1 Hs1 ltac:(lia)).
    rewrite (attempts_status_429 post r2 1 2 H2 Hs2 ltac:(lia)).
    cbn [attempts]. rewrite H3. unfold _make_request. rewrite Hs3.
    done.
Qed.

End Requests.

(** ** The plans the planner builds by itself *)

Section PlanChains.
Import Py Planner PlanCreation.
#[local] Open Scope nat_scope.

Lemma phase_name_inj i j : phase_name i = phase_name j → i = j.
Proof.
  unfold phase_name, str_of_nat. cbn. intros [= H].
  change (pretty i = pretty j) in H. by apply (inj pretty) in H.
Qed.

Lemma search_terms_from_text_length text :
  1 ≤ length (_generate_search_terms_from_text text) ≤ 5.
Proof.
  unfold _generate_search_terms_from_text.
  destruct (negb (nonempty text)); [cbn; lia|]. cbv zeta.
  destruct (take 5 _) as [|k ks] eqn:Htake.
  - destruct (contains "morocco" (lower text)); cbn; lia.
  - rewrite <- Htake, length_take. split; [|lia].
    apply (f_equal length) in Htake. rewrite length_take in Htake.
    cbn [length] in Htake. lia.
Qed.

(** Phases numbered from one, each waiting for the one before it, each with
    search terms. *)
Definition chain (phases : list Phase) : Prop :=
  ∀ k phase, phases !! k = Some phase →
    ph_id phase = Some (phase_name (k + 1))
    ∧ ph_dependencies phase = (if (0 <? k) then [phase_name k] else [])
    ∧ ∃ terms, ph_search_terms phase = Some terms ∧ terms ≠ [].

Lemma search_terms_from_text_nonempty text :
  _generate_search_terms_from_text text ≠ [].
Proof.
  pose proof (search_terms_from_text_length text) as H.
  intros Hnil. rewrite Hnil in H. cbn in H. lia.
Qed.

Lemma previous_phase_next k :
  previous_phase (S k) = if 0 <? k then [phase_name k] else [].
Proof.
  unfold previous_phase. destruct k as [|k]; [done|].
  cbn [Nat.ltb Nat.leb]. by rewrite Nat.sub_1_r.
Qed.

Lemma chain_snoc phases phase :
  chain phases →
  ph_id phase = Some (phase_name (length phases + 1)) →
  ph_dependencies phase = previous_phase (S (length phases)) →
  (∃ terms, ph_search_terms phase = Some terms ∧ terms ≠ []) →
  chain (phases ++ [phase]).
Proof.
  intros Hchain Hid Hdeps Hterms k p Hk.
  destruct (decide (k < length phases)) as [Hlt|Hge].
  - rewrite lookup_app_l in Hk by done. by apply Hchain.
  - rewrite lookup_app_r in Hk by lia.
    destruct (k - length phases) as [|n] eqn:Hn; [|by destruct n].
    injection Hk as <-. assert (k = length phases) as -> by lia.
    by rewrite <- previous_phase_next.
Qed.

Lemma chain_default phase :
  ph_id phase = Some "phase_1" → ph_dependencies phase = [] →
  (∃ terms, ph_search_terms phase = Some terms ∧ terms ≠ []) →
  chain [phase].
Proof.
  intros Hid Hdeps Hterms [|k] p; [|done]. cbn. by intros [= <-].
Qed.

Lemma fallback_phases_chain main_goal subgoals :
  chain (imap (fallback_phase main_goal) subgoals).
Proof.
  intros k phase. rewrite list_lookup_imap.
  destruct (subgoals !! k) as [subgoal|]; [|done]. cbn. intros [= <-].
  cbn. split_and!; [done|done|].
  destruct (default [] (GoalParser.sg_search_terms subgoal)) as [|t ts].
  - eexists. split; [done|]. apply search_terms_from_text_nonempty.
  - by eexists.
Qed.

Lemma manual_steps_chain main_goal lines : ∀ st,
  chain (flush st) → length (flush st) = ps_count st →
  let st' := fold_left (manual_step main_goal) lines st in
  chain (flush st') ∧ length (flush st') = ps_count st'.
Proof.
  induction lines as [|line lines IH]; intros st Hchain Hlen; [done|].
  cbn [fold_left]. apply IH.
  - unfold manual_step. cbv zeta.
    destruct (negb (nonempty (strip line))); [done|].
    destruct (_ && _); [|done].
    unfold flush at 1. cbn [ps_current ps_phases].
    apply chain_snoc; [done|cbn; by rewrite Hlen, Nat.add_1_r|
                       cbn; by rewrite Hlen|].
    eexists. split; [done|]. apply search_terms_from_text_nonempty.
  - unfold manual_step. cbv zeta.
    destruct (negb (nonempty (strip line))); [done|].
    destruct (_ && _); [|done].
    unfold flush at 1. cbn [ps_current ps_phases ps_count].
    rewrite length_app. cbn. lia.
Qed.

Lemma manual_plan_chain response :
  chain (phases (_manual_parse_plan response))
  ∧ phases (_manual_parse_plan response) ≠ [].
Proof.
  unfold _manual_parse_plan. cbv zeta. cbn [phases].
  set (main_goal := manual_main_goal _).
  destruct (manual_steps_chain main_goal (split nl response)
              (mkParseState [] None 0)) as [Hchain _]; [by intros []|done|].
  cbv zeta in Hchain.
  destruct (flush _) as [|p ps]; [|done].
  split; [|done]. apply chain_default; [done|done|].
  eexists. split; [done|]. apply search_terms_from_text_nonempty.
Qed.

Lemma enhance_chain subgoals phases :
  chain phases → imap (enhance_phase subgoals) phases = phases.
Proof.
  intros Hchain. apply list_eq. intros k. rewrite list_lookup_imap.
  destruct (phases !! k) as [phase|] eqn:Hk; [|done]. cbn. f_equal.
  destruct (Hchain k phase Hk) as (_ & _ & terms & Hterms & Hne).
  unfold enhance_phase, lacks_search_terms. rewrite Hterms.
  destruct (subgoals !! k); [|done]. by destruct terms.
Qed.

Lemma named_completed j k :
  phase_name (j + 1) ∈ phase_name <$> seq 1 k ↔ j < k.
Proof.
  rewrite list_elem_of_fmap. split.
  - intros (i & Hi%phase_name_inj & Hin). apply elem_of_seq in Hin. lia.
  - intros Hlt. exists (j + 1). split; [done|]. apply elem_of_seq. lia.
Qed.

(** With the first [k] phases of a chain completed, the phase at index [k]
    is the one that may run. *)
Lemma chain_eligible phases k j q :
  chain phases → phases !! j = Some q →
  eligible (phase_name <$> seq 1 k) q ↔ j = k.
Proof.
  intros Hchain Hj. destruct (Hchain j q Hj) as (Hid & Hdeps & _).
  unfold eligible, get_id. rewrite Hid, Hdeps. cbn [default]. unfold id.
  rewrite named_completed. split.
  - intros [Hnot Hdep]. destruct j as [|j]; [lia|].
    specialize (Hdep (phase_name (S j))).
    cbn [Nat.ltb Nat.leb] in Hdep.
    specialize (Hdep ltac:(apply list_elem_of_here)).
    replace (S j) with (j + 1) in Hdep by lia.
    apply named_completed in Hdep. lia.
  - intros ->. split; [lia|]. intros dep.
    destruct k as [|k]; cbn [Nat.ltb Nat.leb]; [by intros ?%elem_of_nil|].
    intros ->%list_elem_of_singleton.
    replace (S k) with (k + 1) at 1 by lia. apply named_completed. lia.
Qed.

Lemma chain_selection phases k phase :
  chain phases → phases !! k = Some phase →
  next_in phases (phase_name <$> seq 1 k) = Some phase.
Proof.
  intros Hchain Hk.
  pose proof (next_in_spec phases (phase_name <$> seq 1 k)) as Hspec.
  destruct (next_in phases _) as [p|].
  - destruct Hspec as (before & after & Heq & Heligible & _).
    assert (Hp : phases !! length before = Some p).
    { rewrite Heq. by apply list_lookup_middle. }
    apply (chain_eligible phases k _ p Hchain Hp) in Heligible.
    rewrite Heligible in Hp. congruence.
  - exfalso. rewrite Forall_forall in Hspec.
    apply (Hspec phase); [by eapply list_elem_of_lookup_2|].
    by apply (chain_eligible phases k k phase).
Qed.

Lemma chain_selection_end phases :
  chain phases →
  next_in phases (phase_name <$> seq 1 (length phases)) = None.
Proof.
  intros Hchain.
  pose proof (next_in_spec phases (phase_name <$> seq 1 (length phases)))
    as Hspec.
  destruct (next_in phases _) as [p|]; [|done].
  destruct Hspec as (before & after & Heq & Heligible & _).
  assert (Hp : phases !! length before = Some p).
  { rewrite Heq. by apply list_lookup_middle. }
  apply (chain_eligible phases _ _ p Hchain Hp) in Heligible.
  apply lookup_lt_Some in Hp. lia.
Qed.

(** Unless the answer of the model carries a plan in JSON, the plan of
    [create_execution_plan] is a chain: it has at least one phase; its
    phases are named phase_1, phase_2, ... in their order, each depends on
    the one before it alone and has search terms; so the scheduler runs
    them in that order, one after the other, and then stops.  When no
    answer is obtained at all (the prompt cannot be built for a subgoal
    without title or description, or the generation raises), there is one
    phase for each subgoal. *)
Theorem created_plan_is_a_chain (env : Env) (parsed_goal : GoalParser.Goal) :
  (∀ prompt response,
     _create_planning_prompt parsed_goal = Ok prompt →
     generate_text env prompt = Ok response →
     json_plan env response = None) →
  let plan := create_execution_plan env parsed_goal in
  phases plan ≠ []
  ∧ chain (phases plan)
  ∧ (∀ k phase, phases plan !! k = Some phase →
       get_next_phase plan (phase_name <$> seq 1 k) = Some phase)
  ∧ get_next_phase plan (phase_name <$> seq 1 (length (phases plan))) = None
  ∧ research_goal plan = default "" (GoalParser.main_goal parsed_goal)
  ∧ ((∀ prompt, _create_planning_prompt parsed_goal = Ok prompt →
        ∃ e, generate_text env prompt = Raise e) →
     length (phases plan)
     = max 1 (length (GoalParser.get_subgoals parsed_goal))).
Proof.
  intros Hplain. cbv zeta.
  assert (Hfallback :
    let plan := _create_fallback_plan parsed_goal in
    phases plan ≠ [] ∧ chain (phases plan)
    ∧ research_goal plan = default "" (GoalParser.main_goal parsed_goal)
    ∧ length (phases plan)
      = max 1 (length (GoalParser.get_subgoals parsed_goal))).
  { cbv zeta. unfold _create_fallback_plan. cbv zeta.
    cbn [phases research_goal].
    pose proof (fallback_phases_chain
                  (default "" (GoalParser.main_goal parsed_goal))
                  (GoalParser.get_subgoals parsed_goal)) as Hchain.
    pose proof (length_imap
                  (fallback_phase (default "" (GoalParser.main_goal parsed_goal)))
                  (GoalParser.get_subgoals parsed_goal)) as Hlen.
    destruct (imap _ _) as [|p ps].
    - split_and!; [done| |done|cbn in *; lia].
      apply chain_default; [done|done|].
      eexists. split; [done|]. apply search_terms_from_text_nonempty.
    - split_and!; [done|done|done|cbn [length] in *; lia]. }
  assert (Hgoal : ∀ plan,
    phases plan ≠ [] → chain (phases plan) →
    research_goal plan = default "" (GoalParser.main_goal parsed_goal) →
    phases plan ≠ [] ∧ chain (phases plan)
    ∧ (∀ k phase, phases plan !! k = Some phase →
         get_next_phase plan (phase_name <$> seq 1 k) = Some phase)
    ∧ get_next_phase plan (phase_name <$> seq 1 (length (phases plan))) = None
    ∧ research_goal plan = default "" (GoalParser.main_goal parsed_goal)).
  { intros plan Hne Hchain Hresearch. split_and!; try done.
    - intros k phase Hk. by apply chain_selection.
    - by apply chain_selection_end. }
  cbv zeta in Hfallback. destruct Hfallback as (Hne & Hchain & Hres & Hlen).
  unfold create_execution_plan.
  destruct (_create_planning_prompt parsed_goal) as [prompt|e] eqn:Hprompt.
  - destruct (generate_text env prompt) as [response|e] eqn:Hanswer.
    + unfold _extract_execution_plan.
      rewrite (Hplain prompt response eq_refl Hanswer).
      destruct (manual_plan_chain response) as [Hmanual Hmne].
      unfold _enhance_plan.
      rewrite (enhance_chain _ _ Hmanual).
      destruct (Hgoal {| plan_id := plan_id (_manual_parse_plan response);
                         strategy := strategy (_manual_parse_plan response);
                         phases := phases (_manual_parse_plan response);
                         research_goal :=
                           default "" (GoalParser.main_goal parsed_goal);
                         last_updated :=
                           last_updated (_manual_parse_plan response);
                         update_reason :=
                           update_reason (_manual_parse_plan response) |})
        as (H1 & H2 & H3 & H4 & H5); [done|done|done|].
      split_and!; try done.
      intros Hraises. destruct (Hraises prompt eq_refl) as [e He]. congruence.
    + destruct (Hgoal _ Hne Hchain Hres) as (H1 & H2 & H3 & H4 & H5).
      by split_and!.
  - destruct (Hgoal _ Hne Hchain Hres) as (H1 & H2 & H3 & H4 & H5).
    by split_and!.
Qed.

End PlanChains.

(** A goal with one subgoal, and a model that answers in prose. *)
Definition prose_goal : GoalParser.Goal :=
  {| GoalParser.main_goal := Some "grid storage";
     GoalParser.research_domain := Some "Energy";
     GoalParser.time_scope := Some "recent";
     GoalParser.subgoals :=
       Some [ {| GoalParser.sg_id := Some 1%Z;
                 GoalParser.sg_title := Some "Costs";
                 GoalParser.sg_description := Some "Cost of battery storage";
                 GoalParser.sg_search_terms := Some ["battery"; "cost"];
                 GoalParser.sg_priority := Some "high";
                 GoalParser.sg_expected_sources := None |} ];
     GoalParser.success_criteria := None;
     GoalParser.estimated_complexity := None;
     GoalParser.created_at := None;
     GoalParser.total_subgoals := Some 1%nat |}.

Definition prose_env : PlanCreation.Env :=
  {| PlanCreation.generate_text := λ _,
       Ok ("Phase 1: Survey battery costs"
           +:+ String Py.nl "Phase 2: Compare chemistries");
     PlanCreation.json_plan := λ _, None |}.

Lemma created_plan_is_a_chain_witness :
  let plan := PlanCreation.create_execution_plan prose_env prose_goal in
  Planner.phases plan ≠ []
  ∧ chain (Planner.phases plan)
  ∧ (∀ k phase, Planner.phases plan !! k = Some phase →
       Planner.get_next_phase plan (PlanCreation.phase_name <$> seq 1 k)
       = Some phase)
  ∧ Planner.get_next_phase plan
      (PlanCreation.phase_name <$> seq 1 (length (Planner.phases plan)))
    = None
  ∧ Planner.research_goal plan
    = default "" (GoalParser.main_goal prose_goal)
  ∧ ((∀ prompt,
        PlanCreation._create_planning_prompt prose_goal = Ok prompt →
        ∃ e, PlanCreation.generate_text prose_env prompt = Raise e) →
     length (Planner.phases plan)
     = max 1 (length (GoalParser.get_subgoals prose_goal))).
Proof.
  apply (created_plan_is_a_chain prose_env prose_goal).
  intros prompt response _ _. reflexivity.
Defined.

(** ** Search terms of the planner *)

Section PlannerSearchTerms.
Import Py PlanCreation.
#[local] Open Scope nat_scope.

(** [Planner._generate_search_terms_from_text] returns between one and
    five terms, all different, each made of at least three lower-case
    letters.  When the text has a word of three letters or more that is no
    stop word, the terms are words of the text, in the order of their first
    occurrence, and none is a stop word; otherwise they are one of the two
    fixed lists (of an empty text, ["research"; "information"]). *)
Theorem plan_search_terms_shape (text : string) :
  let terms := _generate_search_terms_from_text text in
  let words := GoalParser.findall_words (lower text) in
  1 ≤ length terms ≤ 5
  ∧ NoDup terms
  ∧ Forall lowercase_word terms
  ∧ ((∃ keyword, keyword ∈ words ∧ keyword ∉ stop_words) ∧ text ≠ "" →
     terms `sublist_of` words ∧ Forall (λ t, t ∉ stop_words) terms)
  ∧ (¬ (∃ keyword, keyword ∈ words ∧ keyword ∉ stop_words) ∧ text ≠ "" →
     terms = (if contains "morocco" (lower text)
              then ["morocco"; "location"; "geography"; "africa"; "country"]
              else ["information"; "research"; "data"; "facts"; "details"])).
Proof.
  cbv zeta. unfold _generate_search_terms_from_text.
  pose proof (findall_words_lower text) as Hwords.
  set (words := GoalParser.findall_words (lower text)) in *.
  set (keywords :=
         filter (λ word, (word ∉ stop_words) ∧ 2 < String.length word) words).
  assert (Hkw_sub : keywords `sublist_of` words) by apply sublist_filter.
  destruct (fromkeys_from_spec keywords []) as (Hsub & Hnd & _).
  fold (fromkeys keywords) in Hsub, Hnd.
  assert (Hfixed : ∀ l, forallb (λ w, (3 <=? String.length w)
                                       && GoalParser.all_chars is_lower w) l
                        = true →
                        Forall lowercase_word l).
  { intros l Hl. apply Forall_forall. intros w Hw.
    apply lowercase_word_cbv.
    apply (proj1 (forallb_forall _ _) Hl). by apply list_elem_of_In. }
  assert (Hnodup : ∀ l : list string, bool_decide (NoDup l) = true → NoDup l)
    by (intros l; apply bool_decide_eq_true_1).
  destruct (nonempty text) eqn:Hne; cbn [negb].
  2: { split_and!; try (cbn; lia); [by apply Hnodup|by apply Hfixed| |];
         intros [_ Hd]; by destruct text. }
  destruct (take 5 (fromkeys keywords)) as [|k ks] eqn:Hk.
  - assert (Hnone : keywords = []).
    { destruct keywords as [|x r]; [done|]. unfold fromkeys in Hk. cbn in Hk.
      by rewrite bool_decide_eq_false_2 in Hk by apply not_elem_of_nil. }
    assert (Hno_keyword : ¬ ∃ keyword, keyword ∈ words ∧ keyword ∉ stop_words).
    { intros (kw & Hin & Hstop).
      assert (Hin' : kw ∈ keywords); [|by rewrite Hnone in Hin'; inversion Hin'].
      apply list_elem_of_filter. split; [|done]. split; [done|].
      apply (proj1 (Forall_forall _ _) Hwords) in Hin as [? _]. lia. }
    destruct (contains "morocco" _);
      (split_and!; try (cbn; lia);
       [by apply Hnodup|by apply Hfixed|by intros [? _]|done]).
  - assert (Htake : k :: ks `sublist_of` words).
    { rewrite <- Hk. etransitivity; [apply sublist_take|]. by etransitivity. }
    assert (Hlen : 1 ≤ length (k :: ks) ≤ 5).
    { rewrite <- Hk, length_take.
      apply (f_equal length) in Hk. rewrite length_take in Hk.
      cbn [length] in Hk. lia. }
    split_and!; try lia.
    + rewrite <- Hk. eapply sublist_NoDup; [done|apply sublist_take].
    + apply Forall_forall. intros w Hw.
      apply (proj1 (Forall_forall _ _) Hwords).
      by apply (elem_of_sublist _ _ w Hw).
    + intros _. split; [done|].
      apply Forall_forall. intros w Hw.
      assert (Hin : w ∈ keywords).
      { apply (elem_of_sublist (fromkeys keywords)); [|done].
        apply (elem_of_sublist (k :: ks)); [done|].
        rewrite <- Hk. apply sublist_take. }
      by apply list_elem_of_filter in Hin as [[? _] _].
    + intros [Hnone _]. exfalso. apply Hnone. exists k.
      assert (Hin : k ∈ keywords).
      { apply (elem_of_sublist (fromkeys keywords)); [|done].
        apply (elem_of_sublist (k :: ks)); [apply list_elem_of_here|].
        rewrite <- Hk. apply sublist_take. }
      apply list_elem_of_filter in Hin as [[? _] ?]. by split.
Qed.

End PlannerSearchTerms.

(** ** Previews of content *)

Section ContentSummary.
Import Py Retriever.
#[local] Open Scope nat_scope.

Lemma prefix_chars_length n s :
  String.length (prefix_chars n s) = min n (String.length s).
Proof.
  revert s. induction n as [|n IH]; intros [|c r]; cbn; try done.
  by rewrite IH.
Qed.

Lemma prefix_chars_twice n m s :
  prefix_chars n (prefix_chars m s) = prefix_chars (min n m) s.
Proof.
  revert m s. induction n as [|n IH]; intros [|m] [|c r]; cbn; try done.
  by rewrite IH.
Qed.

Lemma rfind_least c s : (-1 ≤ rfind c s)%Z.
Proof.
  induction s as [|a r IH]; cbn; [done|].
  destruct (0 <=? rfind c r)%Z eqn:Hi; [lia|]. by destruct (Ascii.eqb a c).
Qed.

(** The summary of a content that does not fit in [max_length] characters
    is a prefix of it of at most [max_length] characters, followed by three
    dots: it may be three characters longer than [max_length].  A content
    that fits is returned as it is. *)
Theorem content_summary_length (content : string) (max_length : Z) :
  (0 ≤ max_length)%Z →
  let summary := get_content_summary content max_length in
  ((Z.of_nat (String.length content) ≤ max_length)%Z → summary = content)
  ∧ ((max_length < Z.of_nat (String.length content))%Z →
     ∃ n, (Z.of_nat n ≤ max_length)%Z
          ∧ summary = prefix_chars n content +:+ "..."
          ∧ String.length summary = n + 3).
Proof.
  intros Hmax. cbv zeta. unfold get_content_summary. split.
  - intros Hfits. destruct content as [|c r]; [done|]. cbn [nonempty negb].
    by rewrite (proj2 (Z.leb_le _ _) Hfits).
  - intros Hlong. destruct (nonempty content) eqn:Hne; cbn [negb].
    2: { destruct content; [cbn in Hlong; lia|done]. }
    rewrite (proj2 (Z.leb_gt _ _) Hlong). cbv zeta.
    assert (Hslice : slice_to max_length content
                     = prefix_chars (Z.to_nat max_length) content).
    { unfold slice_to. by rewrite (proj2 (Z.ltb_ge _ _) Hmax). }
    rewrite !Hslice.
    set (m := Z.to_nat max_length).
    set (summary := prefix_chars m content).
    pose proof (rfind_least "." summary) as Hleast.
    set (chosen := if (_ <? _)%float then _ else _).
    assert (Hchosen : ∃ n, n ≤ m ∧ chosen = prefix_chars n content).
    { unfold chosen. destruct (_ <? _)%float.
      - unfold slice_to. rewrite (proj2 (Z.ltb_ge _ _)) by lia.
        unfold summary. rewrite prefix_chars_twice.
        eexists. split; [|done]. lia.
      - by exists m. }
    destruct Hchosen as (n & Hn & ->). exists n.
    split_and!; [lia|done|].
    rewrite string_app_length, prefix_chars_length. cbn. lia.
Qed.

End ContentSummary.

Lemma content_summary_length_witness :
  let summary := Retriever.get_content_summary "abcdefgh.j." 10 in
  ((Z.of_nat (String.length "abcdefgh.j.") ≤ 10)%Z → summary = "abcdefgh.j.")
  ∧ ((10 < Z.of_nat (String.length "abcdefgh.j."))%Z →
     ∃ n, (Z.of_nat n ≤ 10)%Z
          ∧ summary = Retriever.prefix_chars n "abcdefgh.j." +:+ "..."
          ∧ String.length summary = (n + 3)%nat).
Proof. apply (content_summary_length "abcdefgh.j." 10). lia. Defined.

(** ** The quality of a source *)

Section SourceQuality.
Import Py Retriever.
#[local] Open Scope nat_scope.
#[local] Set Warnings "-inexact-float".

(** The quality score of a source lies between zero and one; it is one
    exactly for an academic source with a title, a link and more than a
    thousand characters of content, and zero exactly for a source that is
    not academic, has neither title nor link and at most a hundred
    characters of content. *)
Theorem source_quality_range (source : Document) :
  let score := validate_source_quality source in
  (0 <=? score)%float = true
  ∧ (score <=? 1)%float = true
  ∧ (score = 1%float ↔
       1000 < String.length (d_content source)
       ∧ d_source_type source = "academic"
       ∧ d_title source ≠ "" ∧ d_url source ≠ "")
  ∧ (score = 0%float ↔
       String.length (d_content source) ≤ 100
       ∧ d_source_type source ≠ "academic"
       ∧ d_title source = "" ∧ d_url source = "").
Proof.
  cbv zeta. unfold validate_source_quality. cbv zeta.
  destruct (1000 <? String.length (d_content source)) eqn:H1000;
    [apply Nat.ltb_lt in H1000|apply Nat.ltb_ge in H1000;
     destruct (500 <? String.length (d_content source)) eqn:H500;
       [apply Nat.ltb_lt in H500|apply Nat.ltb_ge in H500;
        destruct (100 <? String.length (d_content source)) eqn:H100;
          [apply Nat.ltb_lt in H100|apply Nat.ltb_ge in H100]]];
    (destruct (String.eqb (d_source_type source) "academic") eqn:Htype;
       [apply String.eqb_eq in Htype|apply String.eqb_neq in Htype]);
    destruct (d_title source) as [|t ts]; destruct (d_url source) as [|u us];
    cbn [nonempty];
    (split_and!; [by vm_compute|by vm_compute|split|split]);
    try (intros (? & ? & ? & ?); done || lia);
    try (intros _; by split_and!);
    try (intros Hscore; apply (f_equal Prim2SF) in Hscore;
         by vm_compute in Hscore).
Qed.

End SourceQuality.

(** ** Batches *)

Section Batches.
Import BatchProcessor.
#[local] Open Scope nat_scope.
Context {Source R : Type}.
Variable self : BatchProcessor.
Variable processor_func : Source → exc (option R).

(** What the processor keeps of a source. *)
Definition kept_result (source : Source) : option R :=
  match processor_func source with
  | Ok result => result
  | Raise _ => None
  end.

Lemma process_batch_omap batch :
  process_batch processor_func batch = omap kept_result batch.
Proof.
  induction batch as [|source rest IH]; [done|]. cbn. unfold kept_result at 1.
  destruct (processor_func source) as [[result|]|e]; by rewrite ?IH.
Qed.

Lemma batches_from (sources : list Source) (d : nat) : ∀ j run,
  (0 < batch_size self)%Z →
  Qle_bool 0 (delay_between_batches self) = true →
  j + d = Z.to_nat ((Z.of_nat (length sources) + batch_size self - 1)
                    / batch_size self) →
  batches self sources processor_func
    ((λ i, Z.of_nat i * batch_size self)%Z <$> seq j d) run
  = Ok {| results :=
            results run
            ++ omap kept_result
                 (drop (j * Z.to_nat (batch_size self)) sources);
          sleeps :=
            sleeps run ++ replicate (d - 1) (delay_between_batches self) |}.
Proof.
  set (bs := batch_size self). set (n := Z.of_nat (length sources)).
  induction d as [|d IH]; intros j run Hbs Hdelay Hk.
  - cbn. rewrite drop_ge, !app_nil_r; [by destruct run|].
    pose proof (Z.mul_succ_div_gt (n + bs - 1) bs Hbs).
    assert (0 ≤ (n + bs - 1) / bs)%Z by (apply Z.div_pos; lia). nia.
  - cbn [seq fmap list_fmap batches]. fold bs. fold n.
    assert (Hslice : slice (Z.of_nat j * bs) (Z.of_nat j * bs + bs) sources
                     = take (Z.to_nat bs) (drop (j * Z.to_nat bs) sources)).
    { unfold slice. f_equal; [f_equal; lia|f_equal; lia]. }
    rewrite Hslice, process_batch_omap.
    pose proof (Z.mul_div_le (n + bs - 1) bs Hbs) as Hle.
    pose proof (Z.mul_succ_div_gt (n + bs - 1) bs Hbs) as Hgt.
    assert (Hq : (0 ≤ (n + bs - 1) / bs)%Z) by (apply Z.div_pos; lia).
    assert (Hparts :
      omap kept_result (take (Z.to_nat bs) (drop (j * Z.to_nat bs) sources))
      ++ omap kept_result (drop (S j * Z.to_nat bs) sources)
      = omap kept_result (drop (j * Z.to_nat bs) sources)).
    { rewrite <- omap_app. f_equal.
      replace (S j * Z.to_nat bs) with (j * Z.to_nat bs + Z.to_nat bs) by lia.
      rewrite <- drop_drop. apply take_drop. }
    destruct (Z.of_nat j * bs + bs <? n)%Z eqn:Hmore.
    + apply Z.ltb_lt in Hmore. rewrite Hdelay.
      rewrite (IH (S j)); [|done|done|lia]. cbn [results sleeps].
      rewrite <- !app_assoc, Hparts. do 2 f_equal.
      destruct d as [|d]; [exfalso; nia|]. cbn. by rewrite Nat.sub_0_r.
    + apply Z.ltb_ge in Hmore.
      rewrite (IH (S j)); [|done|done|lia]. cbn [results sleeps].
      rewrite <- !app_assoc, Hparts. do 2 f_equal.
      destruct d as [|d]; [done|exfalso; nia].
Qed.


End Batches.

(** ** Phases processed one by one *)

Section IncrementalPhases.
Import Planner BatchProcessor.
#[local] Open Scope nat_scope.
Context {R : Type}.
Variable self : BatchProcessor.
Variable executor_func : Phase → exc R.

(** The entry for the phase at index [i]. *)
Definition entry_of (i : nat) (phase : Phase) : Entry R :=
  match executor_func phase with
  | Ok result => Executed result
  | Raise e =>
      Failed (default ("phase_" +:+ Py.str_of_nat (i + 1)) (ph_id phase)) e
  end.

Definition executed (phase : Phase) : bool :=
  match executor_func phase with Ok _ => true | Raise _ => false end.

(** The phases after which the loop sleeps: those executed, the last one
    apart. *)
Definition followed_by_sleep (phases : list Phase) : list Phase :=
  filter (λ phase, executed phase = true) (take (length phases - 1) phases).

Lemma followed_by_sleep_cons phase next rest :
  followed_by_sleep (phase :: next :: rest)
  = (if executed phase then [phase] else [])
    ++ followed_by_sleep (next :: rest).
Proof.
  unfold followed_by_sleep. cbn [length]. rewrite !Nat.sub_succ, !Nat.sub_0_r.
  rewrite firstn_cons, filter_cons.
  destruct (executed phase) eqn:Hex.
  - by rewrite decide_True by done.
  - by rewrite decide_False by done.
Qed.

Lemma entry_of_executed i phase result :
  executor_func phase = Ok result →
  entry_of i phase = Executed result ∧ executed phase = true.
Proof. unfold entry_of, executed. by intros ->. Qed.

Lemma entry_of_failed i phase e :
  executor_func phase = Raise e →
  entry_of i phase
  = Failed (default ("phase_" +:+ Py.str_of_nat (i + 1)) (ph_id phase)) e
  ∧ executed phase = false.
Proof. unfold entry_of, executed. by intros ->. Qed.

Lemma phases_from_patient (phases : list Phase) : ∀ i count run,
  Qle_bool 0 (delay_between_batches self * 2) = true →
  count = i + length phases →
  phases_from self count executor_func i phases run
  = {| results := results run ++ imap (λ j, entry_of (i + j)) phases;
       sleeps := sleeps run
                 ++ replicate (length (followed_by_sleep phases))
                      (delay_between_batches self * 2)%Q |}.
Proof.
  induction phases as [|phase rest IH]; intros i count run Hdelay Hcount.
  - cbn. rewrite !app_nil_r. by destruct run.
  - cbn [phases_from imap]. rewrite (IH (S i) count); [|done|cbn in *; lia].
    assert (Himap : imap (λ j, entry_of (S i + j)) rest
                    = imap ((λ j, entry_of (i + j)) ∘ S) rest).
    { apply imap_ext. intros j p _. cbn. f_equal. lia. }
    rewrite Himap, Nat.add_0_r. unfold phase_step.
    destruct rest as [|next rest].
    + rewrite (proj2 (Z.ltb_ge _ _)) by (cbn in *; lia).
      destruct (executor_func phase) as [result|e] eqn:Hex.
      * destruct (entry_of_executed i phase result Hex) as [-> _].
        cbn. by rewrite ?app_nil_r.
      * destruct (entry_of_failed i phase e Hex) as [-> _].
        cbn. by rewrite ?app_nil_r.
    + rewrite followed_by_sleep_cons.
      rewrite (proj2 (Z.ltb_lt _ _)) by (cbn in *; lia).
      destruct (executor_func phase) as [result|e] eqn:Hex.
      * destruct (entry_of_executed i phase result Hex) as [-> ->].
        rewrite Hdelay. cbn [results sleeps].
        rewrite <- !app_assoc. by cbn.
      * destruct (entry_of_failed i phase e Hex) as [-> ->].
        cbn [results sleeps]. rewrite <- !app_assoc. by cbn.
Qed.

Lemma phases_from_hasty (phases : list Phase) : ∀ i count run,
  Qle_bool 0 (delay_between_batches self * 2) = false →
  count = i + length phases →
  let run' := phases_from self count executor_func i phases run in
  length (results run')
  = length (results run) + length phases + length (followed_by_sleep phases)
  ∧ sleeps run' = sleeps run.
Proof.
  induction phases as [|phase rest IH]; intros i count run Hdelay Hcount.
  - cbn. split; [lia|done].
  - cbv zeta. cbn [phases_from].
    destruct (IH (S i) count
                (phase_step self count executor_func run i phase))
      as [Hlen Hsleeps]; [done|cbn in *; lia|].
    cbv zeta in Hlen, Hsleeps. rewrite Hlen, Hsleeps.
    unfold phase_step.
    destruct rest as [|next rest].
    + rewrite (proj2 (Z.ltb_ge _ _)) by (cbn in *; lia).
      destruct (executor_func phase) as [result|e] eqn:Hex;
        cbn; rewrite length_app; cbn; split; (lia || done).
    + rewrite followed_by_sleep_cons.
      rewrite (proj2 (Z.ltb_lt _ _)) by (cbn in *; lia).
      destruct (executor_func phase) as [result|e] eqn:Hex.
      * destruct (entry_of_executed i phase result Hex) as [_ ->].
        rewrite Hdelay. cbn [results sleeps].
        rewrite !length_app. cbn [length]. split; [lia|done].
      * destruct (entry_of_failed i phase e Hex) as [_ ->].
        cbn [results sleeps]. rewrite !length_app. cbn [length].
        split; [lia|done].
Qed.


End IncrementalPhases.

(** ** The citations of one source *)

Section SourceCitations.
Import CitationEngine CitationExtraction.
#[local] Open Scope nat_scope.

(** A citation that names the source it comes from. *)
Definition cites (source : Document) (c : Citation) : Prop :=
  c_title c = d_title source ∧ c_url c = d_url source
  ∧ c_authors c = d_authors source
  ∧ c_source_type c = d_source_type source.

Lemma parse_citation_response_cites env response source :
  let citations := _parse_citation_response env response source in
  citations ≠ [] ∧ Forall (cites source) citations.
Proof.
  cbv zeta. unfold _parse_citation_response.
  assert (Hbasic : Forall (cites source) [_create_basic_citation env source])
    by (by repeat constructor).
  destruct (GoalParser.search_json response) as [json_str|]; [|done].
  destruct (json_loads env json_str) as [data|e]; [|done].
  assert (Hall : Forall (cites source)
            ((claim_citation env source <$> key_claims data)
             ++ (statistic_citation env source <$> statistics data)
             ++ (insight_citation env source <$> author_insights data))).
  { rewrite !Forall_app, !Forall_fmap. split_and!;
      by apply Forall_forall. }
  destruct (_ ++ _) as [|c cs]; [done|]. done.
Qed.

(** Citations of one source clash with each other, so that only the first
    one survives the de-duplication. *)
Lemma dedup_one_source source : ∀ citations seen_urls seen_titles,
  d_url source ≠ "" ∨ Py.lower (d_title source) ≠ "" →
  Forall (cites source) citations →
  (d_url source ≠ "" → d_url source ∈ seen_urls)
  ∧ (d_url source = "" → Py.lower (d_title source) ∈ seen_titles) →
  dedup_from seen_urls seen_titles citations = [].
Proof.
  induction citations as [|c rest IH]; intros su st Hnamed Hall Hseen; [done|].
  apply Forall_cons in Hall as [(Htitle & Hurl & _) Hrest].
  cbn [dedup_from]. cbv zeta. rewrite Htitle, Hurl.
  unfold seen_before.
  destruct (decide (d_url source = "")) as [Hempty|Hfull].
  - rewrite bool_decide_eq_false_2 by (by intros [? _]).
    rewrite bool_decide_eq_true_2; [by apply IH|].
    destruct Hnamed as [?|?]; [done|]. split; [done|]. by apply Hseen.
  - rewrite bool_decide_eq_true_2; [by apply IH|].
    split; [done|]. by apply Hseen.
Qed.

(** The extraction returns at least one citation for a source, whatever
    the model answers, and each citation carries the title, the link, the
    authors and the type of the source.  Since the bibliography drops a
    citation that shares its link or its title with an earlier one, it
    keeps of a source with a link or a title only the first citation. *)
Theorem one_source_one_entry (env : Env) (content : string) (source : Document) :
  let citations := extract_citations_from_content env content source in
  citations ≠ []
  ∧ Forall (cites source) citations
  ∧ (d_url source ≠ "" ∨ Py.lower (d_title source) ≠ "" →
     _deduplicate_citations citations = take 1 citations).
Proof.
  cbv zeta.
  assert (Hcites : extract_citations_from_content env content source ≠ []
                   ∧ Forall (cites source)
                       (extract_citations_from_content env content source)).
  { unfold extract_citations_from_content. cbv zeta.
    destruct (generate_text env _) as [response|e].
    - apply parse_citation_response_cites.
    - split; [done|]. by repeat constructor. }
  destruct Hcites as [Hne Hall]. split_and!; [done|done|].
  intros Hnamed.
  destruct (extract_citations_from_content env content source) as [|c rest];
    [done|].
  apply Forall_cons in Hall as [(Htitle & Hurl & Hc) Hrest].
  unfold _deduplicate_citations. cbn [dedup_from take]. cbv zeta.
  unfold seen_before.
  rewrite !bool_decide_eq_false_2 by (by intros [_ ?%elem_of_empty]).
  f_equal. apply (dedup_one_source source); [done|done|].
  rewrite Htitle, Hurl. unfold remember. split.
  - intros Hfull. rewrite bool_decide_eq_true_2 by done. set_solver.
  - intros Hempty. destruct Hnamed as [?|Hnamed]; [done|].
    rewrite (bool_decide_eq_true_2 (Py.lower (d_title source) ≠ "")) by done.
    set_solver.
Qed.

End SourceCitations.

(** ** Thematic groups *)

Section Themes.
Import ExecutionAgent.
#[local] Open Scope nat_scope.

(** The findings with their themes, one pair for each key finding that has
    a theme, in the order of the two loops. *)
Definition themed (findings : list Finding) : list (string * Finding) :=
  finding ← findings;
  key_finding ← f_key_findings finding;
  match theme_of key_finding with
  | Some theme => [(theme, finding)]
  | None => []
  end.

(** The members listed under [theme]. *)
Definition listed_under (theme : string) (pairs : list (string * Finding))
  : list Finding :=
  snd <$> filter (λ pair, pair.1 = theme) pairs.

Definition add_pair (themes : list (string * list Finding))
    (pair : string * Finding) : list (string * list Finding) :=
  add_to_theme pair.1 pair.2 themes.

Lemma group_findings_themed findings :
  _group_findings_by_theme findings = fold_left add_pair (themed findings) [].
Proof.
  unfold _group_findings_by_theme, themed. generalize (@nil (string * list Finding)).
  induction findings as [|finding rest IH]; intros themes; [done|].
  cbn [fold_left mbind list_bind]. rewrite fold_left_app, <- IH. f_equal.
  clear IH. revert themes.
  induction (f_key_findings finding) as [|key_finding kfs IH]; intros themes;
    [done|].
  cbn [fold_left mbind list_bind]. rewrite fold_left_app, <- IH. f_equal.
  by destruct (theme_of key_finding).
Qed.

Lemma add_to_theme_keys theme finding themes :
  (add_to_theme theme finding themes).*1
  = if bool_decide (theme ∈ themes.*1) then themes.*1
    else themes.*1 ++ [theme].
Proof.
  induction themes as [|[name members] rest IH]; [done|].
  cbn [add_to_theme]. destruct (String.eqb name theme) eqn:Heq.
  - apply String.eqb_eq in Heq as ->. cbn.
    by rewrite bool_decide_eq_true_2 by apply list_elem_of_here.
  - apply String.eqb_neq in Heq. cbn. rewrite IH.
    destruct (decide (theme ∈ rest.*1)) as [Hin|Hout].
    + rewrite !bool_decide_eq_true_2;
        [done|by apply list_elem_of_further|done].
    + rewrite !bool_decide_eq_false_2; [done| |done].
      intros [?|?]%elem_of_cons; congruence.
Qed.

Lemma add_to_theme_members theme finding themes name members :
  NoDup themes.*1 →
  (name, members) ∈ add_to_theme theme finding themes ↔
  (name ≠ theme ∧ (name, members) ∈ themes)
  ∨ (name = theme ∧ (theme ∉ themes.*1) ∧ members = [finding])
  ∨ (name = theme ∧ ∃ before, (theme, before) ∈ themes
                              ∧ members = before ++ [finding]).
Proof.
  induction themes as [|[n ms] rest IH]; intros Hnodup.
  - cbn. rewrite list_elem_of_singleton. split.
    + intros Heq. simplify_eq. right. left. split_and!; [done| |done].
      apply not_elem_of_nil.
    + intros [[_ Hin]|[(-> & _ & ->)|(_ & b & Hin & _)]];
        [by apply elem_of_nil in Hin|done|by apply elem_of_nil in Hin].
  - cbn in Hnodup. apply NoDup_cons in Hnodup as [Hn Hrest].
    assert (Hfresh : ∀ x, (n, x) ∈ rest → False).
    { intros x Hx. apply Hn. apply list_elem_of_fmap. by exists (n, x). }
    cbn [add_to_theme]. destruct (String.eqb n theme) eqn:Heq.
    + apply String.eqb_eq in Heq as ->. rewrite !elem_of_cons. split.
      * intros [Heq|Hin].
        -- simplify_eq. right. right. split; [done|].
           exists ms. split; [by left|done].
        -- left. split; [|by right]. intros ->. by apply (Hfresh members).
      * intros [[Hne [Heq|Hin]]|[(-> & Hout & _)|(-> & b & Hin & ->)]].
        -- by simplify_eq.
        -- by right.
        -- exfalso. apply Hout. cbn. apply list_elem_of_here.
        -- apply elem_of_cons in Hin as [Heq|Hin]; [|by destruct (Hfresh b)].
           simplify_eq. by left.
    + apply String.eqb_neq in Heq. rewrite !elem_of_cons, (IH Hrest).
      cbn [fmap list_fmap fst]. rewrite not_elem_of_cons. split.
      * intros [Hhere|[[Hne Hin]|[(-> & Hout & ->)|(-> & b & Hin & ->)]]].
        -- simplify_eq. left. split; [done|by left].
        -- left. split; [done|by right].
        -- right. left. by split_and!.
        -- right. right. split; [done|]. exists b. split; [by right|done].
      * intros [[Hne [Hhere|Hin]]|[(-> & [_ Hout] & ->)
                                   |(-> & b & Hin & ->)]].
        -- by left.
        -- right. left. by split.
        -- right. right. left. by split_and!.
        -- apply elem_of_cons in Hin as [Hhere|Hin]; [by simplify_eq|].
           right. right. right. split; [done|]. by exists b.
Qed.

Lemma grouped_spec pairs :
  let themes := fold_left add_pair pairs [] in
  NoDup themes.*1
  ∧ ∀ name members,
      (name, members) ∈ themes ↔
      members ≠ [] ∧ members = listed_under name pairs.
Proof.
  induction pairs as [|[theme finding] pairs IH] using rev_ind.
  - cbn. split; [constructor|]. intros name members. split.
    + by intros ?%elem_of_nil.
    + unfold listed_under. cbn. by intros [? ->].
  - cbv zeta. rewrite fold_left_app. cbn [fold_left]. cbv zeta in IH. destruct IH as [Hnodup Hmembers].
    set (themes := fold_left add_pair pairs []) in *.
    split.
    + change (add_pair themes (theme, finding))
        with (add_to_theme theme finding themes).
      rewrite add_to_theme_keys. case_bool_decide as Hin; [done|].
      apply NoDup_app. split_and!; [done| |by apply NoDup_singleton].
      by intros x Hx ->%list_elem_of_singleton.
    + intros name members.
      change (add_pair themes (theme, finding))
        with (add_to_theme theme finding themes).
      rewrite (add_to_theme_members _ _ _ _ _ Hnodup).
      assert (Hunder : ∀ n, listed_under n (pairs ++ [(theme, finding)])
                = listed_under n pairs
                  ++ (if decide (n = theme) then [finding] else [])).
      { intros n. unfold listed_under.
        rewrite filter_app, fmap_app. f_equal.
        rewrite filter_cons, filter_nil. cbn [fst].
        by destruct (decide (theme = n)), (decide (n = theme)). }
      rewrite Hunder.
      assert (Hkey : theme ∈ themes.*1 ↔ listed_under theme pairs ≠ []).
      { split.
        - intros ([n ms] & Hn & Hin)%list_elem_of_fmap.
          cbn [fst] in Hn. subst n.
          apply Hmembers in Hin as [Hne Heq]. congruence.
        - intros Hne. apply list_elem_of_fmap.
          exists (theme, listed_under theme pairs). split; [done|].
          by apply Hmembers. }
      split.
      * intros [[Hne Hin]|[(-> & Hout & ->)|(-> & before & Hin & ->)]].
        -- apply Hmembers in Hin as [Hms ->].
           rewrite decide_False by done. by rewrite app_nil_r.
        -- rewrite decide_True by done.
           destruct (listed_under theme pairs) as [|m ms] eqn:Hl; [done|].
           exfalso. apply Hout, Hkey. by rewrite ?Hl.
        -- apply Hmembers in Hin as [Hms ->]. rewrite decide_True by done.
           split; [|done]. by destruct (listed_under theme pairs).
      * intros [Hne ->]. destruct (decide (name = theme)) as [->|Hother].
        -- right. destruct (listed_under theme pairs) as [|m ms] eqn:Hl.
           ++ left. split_and!; [done| |done]. rewrite Hkey, ?Hl.
              intros Hnil. by apply Hnil.
           ++ right. split; [done|]. exists (m :: ms). split; [|done].
              apply Hmembers. by rewrite ?Hl.
        -- left. split; [done|]. rewrite app_nil_r in *. by apply Hmembers.
Qed.

(** The thematic groups are a grouping of the findings by theme: the
    themes are all different; the group of a theme lists, in order, the
    findings that have a key finding of this theme (the first word of more
    than five characters of the key finding, in lower case), once for each
    such key finding; and no group is empty. *)
Theorem thematic_groups_spec (findings : list Finding) :
  let groups := _group_findings_by_theme findings in
  NoDup groups.*1
  ∧ ∀ theme members,
      (theme, members) ∈ groups ↔
      members ≠ [] ∧ members = listed_under theme (themed findings).
Proof. cbv zeta. rewrite group_findings_themed. apply grouped_spec. Qed.

End Themes.

(** ** The agent on a plan of the planner *)

Section OwnPlan.
Import Planner PlanCreation ExecutionAgent.
#[local] Open Scope nat_scope.
Variable w : World.
Hypothesis Hstatic : static w.

(** Under a planner that does not re-plan, the loop over a chain runs the
    phases that are left, in their order, and returns. *)
Lemma chain_loop fuel : ∀ k phase_results s plan,
  current_plan s = Some plan → chain (phases plan) →
  completed_phases s = phase_name <$> seq 1 k →
  k ≤ length (phases plan) → length (phases plan) - k < fuel →
  ∃ results s',
    phase_loop w fuel phase_results s = (Val results, s')
    ∧ completed_phases s' = phase_name <$> seq 1 (length (phases plan)).
Proof.
  induction fuel as [|fuel IH]; intros k pr s plan Hplan Hchain Hdone Hk Hfuel;
    [lia|].
  cbn [phase_loop]. unfold bind.
  destruct (decide (k = length (phases plan))) as [->|Hless].
  - unfold phase_iteration, bind, get. rewrite Hplan, Hdone.
    unfold get_next_phase. rewrite (chain_selection_end _ Hchain).
    eexists _, _. split; [reflexivity|done].
  - destruct (lookup_lt_is_Some_2 (phases plan) k ltac:(lia)) as [next Hnext].
    pose proof (chain_selection _ _ _ Hchain Hnext) as Hselected.
    destruct (Hchain k next Hnext) as (Hid & _ & terms & Hterms & _).
    assert (Hsel : get_next_phase plan (completed_phases s) = Some next)
      by (unfold get_next_phase; by rewrite Hdone).
    assert (Hsearch : ph_search_terms next ≠ None) by (by rewrite Hterms).
    pose proof (static_turn w pr s plan next Hstatic Hplan Hsel Hsearch)
      as Hturn.
    destruct (phase_iteration w pr s) as [[[x|pr']|e|] s1];
      [done| |congruence|done].
    destruct Hturn as (Hplan1 & phase_id & Hid' & Hdone1).
    rewrite Hid in Hid'. injection Hid' as <-.
    apply (IH (S k) pr' s1 plan); [done|done| |lia|lia].
    rewrite Hdone1, Hdone, seq_S, fmap_app. cbn. do 3 f_equal. lia.
Qed.

Lemma research_on_chain fuel parsed_goal start_time s plan :
  (∀ t, w_create_execution_plan w t parsed_goal = Ok plan) →
  chain (phases plan) → completed_phases s = [] →
  length (phases plan) < fuel →
  match research w fuel parsed_goal start_time s with
  | (Val (ResearchSucceeded _ _ phase_results _ _ _ _ _ _ _), s') =>
      completed_phases s' = phase_name <$> seq 1 (length (phases plan))
  | (Val (ResearchFailed _ _ _ _ _), _) => False
  | (Exn _, s') =>
      completed_phases s' = []
      ∨ completed_phases s' = phase_name <$> seq 1 (length (phases plan))
  | (Diverge, _) => False
  end.
Proof.
  intros Hcreated Hchain Hs Hfuel. unfold research, _execute_phases.
  unfold bind at 1. unfold call_exc at 1.
  destruct (w_create_research_session w (clock s) _) as [sid|e];
    [|by left].
  unfold bind at 1. unfold modify at 1.
  unfold bind at 1. rewrite log_step_returns.
  unfold bind at 1. unfold call_exc at 1. rewrite Hcreated.
  unfold bind at 1. unfold modify at 1.
  unfold bind at 1. rewrite log_step_returns.
  unfold bind at 1.
  match goal with
  | |- context [phase_loop w fuel [] ?s0] =>
      destruct (chain_loop fuel 0 [] s0 plan) as (pr & s1 & -> & Hdone);
        [done|done|done|lia|lia|]
  end.
  unfold bind at 1. rewrite log_step_returns.
  unfold bind at 1.
  pose proof (synthesize_findings_keeps_completed w
                (_log_step w "Synthesizing research findings" s1).2) as Hsyn.
  pose proof (ends_synthesize_findings w
                (_log_step w "Synthesizing research findings" s1).2) as Hsyn'.
  destruct (_synthesize_findings w _) as [[syn|e|] s2]; cbn in Hsyn;
    [|right; by rewrite Hsyn|done].
  unfold bind at 1. rewrite log_step_returns.
  unfold bind at 1.
  pose proof (final_quality_check_keeps_completed w
                (_log_step w "Conducting final quality review" s2).2) as Hfin.
  pose proof (ends_final_quality_check w
                (_log_step w "Conducting final quality review" s2).2) as Hfin'.
  destruct (_final_quality_check w _) as [[rev|e|] s3]; cbn in Hfin;
    [|right; by rewrite Hfin, Hsyn|done].
  assert (Hs3 : completed_phases s3
                = phase_name <$> seq 1 (length (phases plan)))
    by (by rewrite Hfin, Hsyn).
  unfold bind at 1. unfold call at 1.
  unfold bind at 1. unfold get at 1.
  unfold bind at 1.
  destruct (session_of (tick s3)) as [sid'|].
  - unfold bind at 1. unfold call_exc at 1.
    destruct (w_save_findings w _ _ _); [|by right].
    unfold bind at 1. unfold call_exc at 1.
    destruct (w_save_citations w _ _ _); [|by right].
    done.
  - done.
Qed.

Lemma created_plan_chain (env : PlanCreation.Env)
    (parsed_goal : GoalParser.Goal) :
  (∀ prompt response,
     _create_planning_prompt parsed_goal = Ok prompt →
     generate_text env prompt = Ok response →
     json_plan env response = None) →
  phases (create_execution_plan env parsed_goal) ≠ []
  ∧ chain (phases (create_execution_plan env parsed_goal)).
Proof.
  intros Hplain.
  assert (Hfallback : phases (_create_fallback_plan parsed_goal) ≠ []
                      ∧ chain (phases (_create_fallback_plan parsed_goal))).
  { unfold _create_fallback_plan. cbv zeta. cbn [phases].
    pose proof (fallback_phases_chain
                  (default "" (GoalParser.main_goal parsed_goal))
                  (GoalParser.get_subgoals parsed_goal)) as Hchain.
    destruct (imap _ _) as [|p ps]; [|done].
    split; [done|]. apply chain_default; [done|done|].
    eexists. split; [done|]. apply search_terms_from_text_nonempty. }
  unfold create_execution_plan.
  destruct (_create_planning_prompt parsed_goal) as [prompt|e] eqn:Hprompt;
    [|done].
  destruct (generate_text env prompt) as [response|e] eqn:Hanswer; [|done].
  unfold _extract_execution_plan.
  rewrite (Hplain prompt response eq_refl Hanswer).
  destruct (manual_plan_chain response) as [Hmanual Hne].
  unfold _enhance_plan. cbn [phases]. by rewrite (enhance_chain _ _ Hmanual).
Qed.

(** A run of the agent on a plan that the planner built by itself, a chain,
    under a planner that does not re-plan: whenever the run comes to an end
    it returns a dictionary; when it succeeds, every phase of the plan has
    been completed exactly once, in the order of the plan; when it fails,
    either no phase or every phase has been. *)
Theorem own_plan_runs_in_order (env : PlanCreation.Env) (fuel : nat)
    (parsed_goal : GoalParser.Goal) (s : Agent) :
  let plan := create_execution_plan env parsed_goal in
  let all_phases := phase_name <$> seq 1 (length (phases plan)) in
  (∀ t, w_create_execution_plan w t parsed_goal = Ok plan) →
  (∀ prompt response,
     _create_planning_prompt parsed_goal = Ok prompt →
     generate_text env prompt = Ok response →
     json_plan env response = None) →
  completed_phases s = [] →
  (execute_research w fuel parsed_goal s).1 ≠ Diverge →
  match execute_research w fuel parsed_goal s with
  | (Val (ResearchSucceeded _ _ _ _ _ _ _ _ _ _), s') =>
      completed_phases s' = all_phases
  | (Val (ResearchFailed _ _ _ _ _), s') =>
      completed_phases s' = [] ∨ completed_phases s' = all_phases
  | _ => False
  end.
Proof.
  intros plan all_phases Hcreated Hplain Hs Hends.
  destruct (created_plan_chain env parsed_goal Hplain) as [_ Hchain].
  set (turns := fuel `max` S (length (phases plan))).
  destruct (execute_research_below w fuel turns parsed_goal s ltac:(lia))
    as [Hdiverge| ->]; [done|].
  pose proof (research_on_chain turns parsed_goal (w_time w (clock s)) (tick s)
                plan Hcreated Hchain Hs ltac:(lia)) as Hres.
  unfold execute_research. unfold bind at 1. unfold call at 1.
  unfold bind at 1. unfold catch at 1.
  destruct (research w turns parsed_goal _ _) as [[r|e|] s1]; [| |done].
  - by destruct r.
  - unfold research_failed, bind, get, call, ret.
    by destruct (session_of s1).
Qed.

End OwnPlan.

(** The collaborators of the sample run, with the planner of [prose_env]. *)
Definition prose_world : ExecutionAgent.World :=
  with_plan sample_world
    (PlanCreation.create_execution_plan prose_env prose_goal).

Lemma own_plan_runs_in_order_witness :
  match ExecutionAgent.execute_research prose_world 3 prose_goal
          (ExecutionAgent.new_agent 10) with
  | (Val (ExecutionAgent.ResearchSucceeded _ _ _ _ _ _ _ _ _ _), s') =>
      ExecutionAgent.completed_phases s' = ["phase_1"; "phase_2"]
  | (Val (ExecutionAgent.ResearchFailed _ _ _ _ _), s') =>
      ExecutionAgent.completed_phases s' = []
      ∨ ExecutionAgent.completed_phases s' = ["phase_1"; "phase_2"]
  | _ => False
  end.
Proof.
  assert (Hstatic : static prose_world)
    by (intros t plan insights completed; reflexivity).
  exact (own_plan_runs_in_order prose_world Hstatic prose_env 3 prose_goal
           (ExecutionAgent.new_agent 10)
           (λ t, eq_refl) (λ _ _ _ _, eq_refl) eq_refl
           ltac:(vm_compute; discriminate)).
Defined.
